(** * X Stream & Play: player.js, library.js and theme.js

    A shallow embedding of the three modules.  Of the player: format
    resolution, the HLS.js engine lifecycle and its event handlers, the
    video element listeners, seeking, the buffer helpers, the unmute timer,
    the scrubber, the auto-hide of the controls and the stats panel.  Of the
    library: adding, deleting, playing and clearing entries, rendering,
    metadata loading, persistence and the toast.  Of the theme: the
    toggle and its persistence.

    JavaScript numbers are IEEE-754 binary64 values ([spec_float] with
    precision 53 and maximal exponent 1024), so arithmetic rounds exactly as
    the engine does.  Strings are byte strings; [toLowerCase] folds the ASCII
    letters only, which is all the comparisons against ['m3u8'] and ['mpd']
    can observe. *)

From Stdlib Require Import ZArith List Bool String Ascii DecimalString Lia.
From Stdlib Require Import Floats.SpecFloat.
Import ListNotations.

Open Scope Z_scope.
Open Scope string_scope.

(* ------------------------------------------------------------------ *)
(** ** JavaScript values *)

Module JS.

(** Numbers. *)
Definition number := spec_float.

Definition prec : Z := 53.
Definition emax : Z := 1024.

Definition NaN : number := S754_nan.
Definition pos_zero : number := S754_zero false.
Definition neg_zero : number := S754_zero true.
Definition Infinity : number := S754_infinity false.

(** An integer literal. *)
Definition of_Z (z : Z) : number := binary_normalize prec emax z 0 false.

(** The literal [0.1]: the binary64 value nearest to one tenth. *)
Definition lit_0_1 : number := S754_finite false 7205759403792794 (-56).

Definition add : number -> number -> number := SFadd prec emax.
Definition sub : number -> number -> number := SFsub prec emax.
Definition mul : number -> number -> number := SFmul prec emax.
Definition div : number -> number -> number := SFdiv prec emax.

(** [x < y], [x <= y], [x > y] and numeric equality; all false on NaN. *)
Definition lt (x y : number) : bool := SFltb x y.
Definition le (x y : number) : bool := SFleb x y.
Definition gt (x y : number) : bool := SFltb y x.
Definition num_eq (x y : number) : bool := SFeqb x y.

Definition is_nan (x : number) : bool :=
  match x with S754_nan => true | _ => false end.

(** Neither NaN nor an infinity. *)
Definition is_finite (x : number) : bool :=
  match x with
  | S754_zero _ | S754_finite _ _ _ => true
  | S754_infinity _ | S754_nan => false
  end.

(** ToBoolean on a number: NaN, +0 and -0 are falsy. *)
Definition num_truthy (x : number) : bool :=
  match x with
  | S754_nan | S754_zero _ => false
  | _ => true
  end.

(** [Math.min(x, y)]: NaN if either is NaN, and -0 is below +0. *)
Definition Math_min (x y : number) : number :=
  match SFcompare x y with
  | None => NaN
  | Some Lt => x
  | Some Gt => y
  | Some Eq => match x with S754_zero true => x | _ => y end
  end.

(** [Math.max(x, y)]: NaN if either is NaN, and +0 is above -0. *)
Definition Math_max (x y : number) : number :=
  match SFcompare x y with
  | None => NaN
  | Some Lt => y
  | Some Gt => x
  | Some Eq => match x with S754_zero false => x | _ => y end
  end.

(** A value that is a number or [undefined] (a property that may be
    missing). *)
Inductive value : Type :=
| Undefined
| Num (x : number).

Definition truthy (v : value) : bool :=
  match v with
  | Undefined => false
  | Num x => num_truthy x
  end.

(** [v || 0] for such a value. *)
Definition or_zero (v : value) : number :=
  match v with
  | Num x => if num_truthy x then x else pos_zero
  | Undefined => pos_zero
  end.

(** Strings. *)

(** [s.split(sep)] for a one-character separator: never empty. *)
Fixpoint split (sep : ascii) (s : string) : list string :=
  match s with
  | EmptyString => [EmptyString]
  | String c s' =>
      if Ascii.eqb c sep then EmptyString :: split sep s'
      else match split sep s' with
           | [] => [String c EmptyString]
           | h :: t => String c h :: t
           end
  end.

(** [a.pop()] as far as its result goes: the last element, [None]
    (undefined) on an empty array. *)
Fixpoint pop (a : list string) : option string :=
  match a with
  | [] => None
  | [x] => Some x
  | _ :: t => pop t
  end.

(** [s.toLowerCase()] on the letters A to Z; every other byte is kept.
    Strings are byte strings here, so the few characters outside ASCII
    whose lower case is an ASCII letter (the Kelvin sign, for one) are not
    mapped. *)
Definition lower_ascii (c : ascii) : ascii :=
  let n := N_of_ascii c in
  if andb (N.leb 65 n) (N.leb n 90) then ascii_of_N (n + 32) else c.

Fixpoint toLowerCase (s : string) : string :=
  match s with
  | EmptyString => EmptyString
  | String c s' => String (lower_ascii c) (toLowerCase s')
  end.

(** [s.includes(sub)]. *)
Fixpoint includes (sub s : string) : bool :=
  if String.prefix sub s then true
  else match s with
       | EmptyString => false
       | String _ s' => includes sub s'
       end.

(** Completion of a piece of code that may throw. *)
Inductive exn : Type :=
| TypeError (what : string).

Inductive completion (A : Type) : Type :=
| Normal (a : A)
| Throw (e : exn).
Arguments Normal {A} a.
Arguments Throw {A} e.

End JS.

(* ------------------------------------------------------------------ *)
(** ** The player module *)

Module Player.
Import JS.

(** *** What the module reads from its surroundings *)

Inductive cfgval : Type :=
| CBool (b : bool)
| CNum (n : Z).

(** An HLS.js configuration object: option name, value. *)
Definition HlsConfig := list (string * cfgval).

(** The globals and host functions that player.js probes or calls but
    does not define. *)
Record Platform : Type := {
  (** [new URL(u).pathname]; [None] when the constructor throws. *)
  URL_pathname : string -> option string;
  (** [typeof Hls !== 'undefined'] *)
  Hls_defined : bool;
  (** [Hls.isSupported()] *)
  Hls_isSupported : bool;
  (** [video.canPlayType('application/vnd.apple.mpegurl')] is non-empty. *)
  canPlayType_mpegurl : bool;
  (** [window.HLS_CONFIG], when hls-config.js was loaded. *)
  window_HLS_CONFIG : option HlsConfig;
  (** Number-to-string conversion, as string concatenation applies it. *)
  Number_toString : number -> string
}.

(** *** Data *)

(** [video.error] *)
Record MediaError : Type := { code : Z }.

(** The properties of the video element that the module reads or writes.
    [buffered] is the TimeRanges object as its (start, end) pairs.  [src]
    is the attribute as the module's own code leaves it: [Some u] after
    [video.src = u], [None] after [removeAttribute('src')].  The object URL
    that HLS.js gives the element while it is attached is not recorded
    here, so [src] says nothing about an element that an engine holds. *)
Record Video : Type := {
  src : option string;
  muted : bool;
  volume : number;
  paused : bool;
  currentTime : number;
  duration : value;
  buffered : list (number * number);
  error : option MediaError
}.

(** The widgets the modelled functions touch. *)
Record UI : Type := {
  playerTitle : string;
  playerVisible : bool;
  spinnerActive : bool;
  errorActive : bool;
  errorMsg : string;
  playIconPaused : bool;
  bufferBarWidth : string;
  statsActive : bool;
  statsBody : string
}.

Inductive HlsEvent : Type :=
| MANIFEST_PARSED
| ERROR
| AUDIO_TRACK_LOADED.

Definition HlsEvent_eqb (a b : HlsEvent) : bool :=
  match a, b with
  | MANIFEST_PARSED, MANIFEST_PARSED => true
  | ERROR, ERROR => true
  | AUDIO_TRACK_LOADED, AUDIO_TRACK_LOADED => true
  | _, _ => false
  end.

(** [Hls.ErrorTypes] *)
Inductive ErrorType : Type :=
| NETWORK_ERROR
| MEDIA_ERROR
| KEY_SYSTEM_ERROR
| MUX_ERROR
| OTHER_ERROR.

(** The payload of an HLS.js ERROR event. *)
Record ErrorData : Type := {
  fatal : bool;
  type : ErrorType;
  details : option string
}.

(** One HLS.js instance.  [listeners] holds the events subscribed with
    [on]; the module has one handler per event.  [audioTracks] and
    [audioTrack] are what the getters of those names return ([-1]: no
    track selected).  [destroy()] detaches the media and drops every
    listener, as HLS.js documents it. *)
Record Hls : Type := {
  config : HlsConfig;
  destroyed : bool;
  source : option string;
  media_attached : bool;
  listeners : list HlsEvent;
  audioTracks : option (list string);
  audioTrack : Z
}.

(** The callbacks handed to [setTimeout] by the modelled functions; the
    timers of the controls bar and of the seek indicators are not part of
    the model. *)
Inductive TimerCallback : Type :=
| UnmuteCallback.

(** A pending [setTimeout]. *)
Record Timer : Type := {
  delay : Z;
  callback : TimerCallback
}.

(** Calls to the engine, to the video element and to [showError], in the
    order made. *)
Inductive Call : Type :=
| CNewHls (i : nat)
| CLoadSource (i : nat) (u : string)
| CAttachMedia (i : nat)
| COn (i : nat) (ev : HlsEvent)
| CDestroy (i : nat)
| CStartLoad (i : nat)
| CRecoverMediaError (i : nat)
| CSetAudioTrack (i : nat) (n : Z)
| CVideoLoad
| CVideoPlay
| CVideoPause
| CShowError (msg : string)
| CSetTimeout (ms : Z).

(** Module-level state.  [heap] holds every engine constructed so far,
    [hlsInstance] is [null] or the index of one of them. *)
Record State : Type := {
  video : Video;
  ui : UI;
  hlsInstance : option nat;
  heap : list Hls;
  unmutePending : bool;
  timers : list Timer;
  calls : list Call
}.

(** A handler either returns or throws; what it did before is kept. *)
Inductive outcome : Type :=
| Done (s : State)
| Raised (e : exn) (s : State).

Definition state_of (o : outcome) : State :=
  match o with Done s | Raised _ s => s end.

Definition bind (o : outcome) (k : State -> outcome) : outcome :=
  match o with
  | Done s => k s
  | Raised e s => Raised e s
  end.

Notation "o >>= k" := (bind o k) (at level 50, left associativity).

(** *** Field updates *)

Definition with_video (f : Video -> Video) (s : State) : State :=
  {| video := f (video s); ui := ui s; hlsInstance := hlsInstance s;
     heap := heap s; unmutePending := unmutePending s;
     timers := timers s; calls := calls s |}.

Definition with_ui (f : UI -> UI) (s : State) : State :=
  {| video := video s; ui := f (ui s); hlsInstance := hlsInstance s;
     heap := heap s; unmutePending := unmutePending s;
     timers := timers s; calls := calls s |}.

Definition set_hlsInstance (h : option nat) (s : State) : State :=
  {| video := video s; ui := ui s; hlsInstance := h;
     heap := heap s; unmutePending := unmutePending s;
     timers := timers s; calls := calls s |}.

Definition with_heap (f : list Hls -> list Hls) (s : State) : State :=
  {| video := video s; ui := ui s; hlsInstance := hlsInstance s;
     heap := f (heap s); unmutePending := unmutePending s;
     timers := timers s; calls := calls s |}.

Definition set_unmutePending (b : bool) (s : State) : State :=
  {| video := video s; ui := ui s; hlsInstance := hlsInstance s;
     heap := heap s; unmutePending := b;
     timers := timers s; calls := calls s |}.

Definition with_timers (f : list Timer -> list Timer) (s : State) : State :=
  {| video := video s; ui := ui s; hlsInstance := hlsInstance s;
     heap := heap s; unmutePending := unmutePending s;
     timers := f (timers s); calls := calls s |}.

Definition call (c : Call) (s : State) : State :=
  {| video := video s; ui := ui s; hlsInstance := hlsInstance s;
     heap := heap s; unmutePending := unmutePending s;
     timers := timers s; calls := calls s ++ [c] |}.

Definition set_src (u : option string) (v : Video) : Video :=
  {| src := u; muted := muted v; volume := volume v; paused := paused v;
     currentTime := currentTime v; duration := duration v;
     buffered := buffered v; error := error v |}.

Definition set_muted (b : bool) (v : Video) : Video :=
  {| src := src v; muted := b; volume := volume v; paused := paused v;
     currentTime := currentTime v; duration := duration v;
     buffered := buffered v; error := error v |}.

Definition set_volume (x : number) (v : Video) : Video :=
  {| src := src v; muted := muted v; volume := x; paused := paused v;
     currentTime := currentTime v; duration := duration v;
     buffered := buffered v; error := error v |}.

Definition set_currentTime (x : number) (v : Video) : Video :=
  {| src := src v; muted := muted v; volume := volume v; paused := paused v;
     currentTime := x; duration := duration v;
     buffered := buffered v; error := error v |}.

Definition set_spinner (b : bool) (u : UI) : UI :=
  {| playerTitle := playerTitle u; playerVisible := playerVisible u;
     spinnerActive := b; errorActive := errorActive u;
     errorMsg := errorMsg u; playIconPaused := playIconPaused u;
     bufferBarWidth := bufferBarWidth u; statsActive := statsActive u;
     statsBody := statsBody u |}.

Definition set_errorActive (b : bool) (u : UI) : UI :=
  {| playerTitle := playerTitle u; playerVisible := playerVisible u;
     spinnerActive := spinnerActive u; errorActive := b;
     errorMsg := errorMsg u; playIconPaused := playIconPaused u;
     bufferBarWidth := bufferBarWidth u; statsActive := statsActive u;
     statsBody := statsBody u |}.

Definition set_errorMsg (m : string) (u : UI) : UI :=
  {| playerTitle := playerTitle u; playerVisible := playerVisible u;
     spinnerActive := spinnerActive u; errorActive := errorActive u;
     errorMsg := m; playIconPaused := playIconPaused u;
     bufferBarWidth := bufferBarWidth u; statsActive := statsActive u;
     statsBody := statsBody u |}.

Definition set_playIcon (isPaused : bool) (u : UI) : UI :=
  {| playerTitle := playerTitle u; playerVisible := playerVisible u;
     spinnerActive := spinnerActive u; errorActive := errorActive u;
     errorMsg := errorMsg u; playIconPaused := isPaused;
     bufferBarWidth := bufferBarWidth u; statsActive := statsActive u;
     statsBody := statsBody u |}.

Definition set_bufferBarWidth (w : string) (u : UI) : UI :=
  {| playerTitle := playerTitle u; playerVisible := playerVisible u;
     spinnerActive := spinnerActive u; errorActive := errorActive u;
     errorMsg := errorMsg u; playIconPaused := playIconPaused u;
     bufferBarWidth := w; statsActive := statsActive u;
     statsBody := statsBody u |}.

Definition set_title (t : string) (u : UI) : UI :=
  {| playerTitle := t; playerVisible := true;
     spinnerActive := spinnerActive u; errorActive := errorActive u;
     errorMsg := errorMsg u; playIconPaused := playIconPaused u;
     bufferBarWidth := bufferBarWidth u; statsActive := statsActive u;
     statsBody := statsBody u |}.

Definition set_stats (active : bool) (body : string) (u : UI) : UI :=
  {| playerTitle := playerTitle u; playerVisible := playerVisible u;
     spinnerActive := spinnerActive u; errorActive := errorActive u;
     errorMsg := errorMsg u; playIconPaused := playIconPaused u;
     bufferBarWidth := bufferBarWidth u; statsActive := active;
     statsBody := body |}.

(** Replace the [i]-th element; nothing happens out of range. *)
Fixpoint update_nth {A : Type} (i : nat) (f : A -> A) (l : list A) {struct l}
  : list A :=
  match l, i with
  | [], _ => []
  | x :: t, O => f x :: t
  | x :: t, S j => x :: update_nth j f t
  end.

Definition with_engine (i : nat) (f : Hls -> Hls) (s : State) : State :=
  with_heap (update_nth i f) s.

(** *** Spinner and error overlay *)

Definition showSpinner (s : State) : State := with_ui (set_spinner true) s.
Definition hideSpinner (s : State) : State := with_ui (set_spinner false) s.

(** [showError(msg)]: the text shown is [msg || 'Could not load video.']. *)
Definition showError (msg : string) (s : State) : State :=
  let s := call (CShowError msg) s in
  let s := hideSpinner s in
  let shown := if String.eqb msg EmptyString then "Could not load video." else msg in
  with_ui (fun u => set_errorActive true (set_errorMsg shown u)) s.

Definition hideError (s : State) : State := with_ui (set_errorActive false) s.

Definition _setPlayIcon (isPaused : bool) (s : State) : State :=
  with_ui (set_playIcon isPaused) s.

Definition closeStats (s : State) : State :=
  with_ui (fun u => set_stats false (statsBody u) u) s.

Definition clearStats (s : State) : State :=
  with_ui (set_stats false EmptyString) (closeStats s).

(** *** Format resolution *)

(** [x.split('.').pop().toLowerCase().split('?')[0]]: [pop] of an empty
    array is undefined and calling [toLowerCase] on it throws; element 0 of
    an empty array is undefined ([None]). *)
Definition last_dot_segment (x : string) : completion (option string) :=
  match pop (split "." x) with
  | None => Throw (TypeError "undefined.toLowerCase")
  | Some seg => Normal (hd_error (split "?" (toLowerCase seg)))
  end.

(** [_getExt(url)]: the extension of the URL's pathname and, when anything
    in the [try] block throws, that of the raw string. *)
Definition _getExt (env : Platform) (url : string) : completion (option string) :=
  match URL_pathname env url with
  | Some path =>
      match last_dot_segment path with
      | Normal e => Normal e
      | Throw _ => last_dot_segment url
      end
  | None => last_dot_segment url
  end.

Inductive DeliveryKind : Type :=
| HLS
| DASH
| Progressive.

(** [ext === lit] *)
Definition ext_is (ext : option string) (lit : string) : bool :=
  match ext with
  | Some e => String.eqb e lit
  | None => false
  end.

(** The branch that [loadVideo] takes, from [ext] and [url]. *)
Definition kind_of (ext : option string) (url : string) : DeliveryKind :=
  if ext_is ext "m3u8" || includes ".m3u8" url then HLS
  else if ext_is ext "mpd" || includes ".mpd" url then DASH
  else Progressive.

(** The format resolver: [_getExt] followed by the branch test. *)
Definition classify (env : Platform) (url : string) : completion DeliveryKind :=
  match _getExt env url with
  | Normal ext => Normal (kind_of ext url)
  | Throw e => Throw e
  end.

(** *** Engine lifecycle *)

Definition default_config : HlsConfig :=
  [("enableWorker", CBool true);
   ("lowLatencyMode", CBool false);
   ("backBufferLength", CNum 90)].

(** A freshly constructed engine. *)
Definition new_Hls (cfg : HlsConfig) : Hls :=
  {| config := cfg; destroyed := false; source := None;
     media_attached := false; listeners := [];
     audioTracks := Some []; audioTrack := -1 |}.

Definition hls_destroy (h : Hls) : Hls :=
  {| config := config h; destroyed := true; source := source h;
     media_attached := false; listeners := [];
     audioTracks := audioTracks h; audioTrack := audioTrack h |}.

Definition hls_loadSource (u : string) (h : Hls) : Hls :=
  {| config := config h; destroyed := destroyed h; source := Some u;
     media_attached := media_attached h; listeners := listeners h;
     audioTracks := audioTracks h; audioTrack := audioTrack h |}.

(** [hls.attachMedia(video)] as far as the engine object goes.  What the
    library does to the element (it points the element's source at a media
    source of its own) is outside this model. *)
Definition hls_attachMedia (h : Hls) : Hls :=
  {| config := config h; destroyed := destroyed h; source := source h;
     media_attached := true; listeners := listeners h;
     audioTracks := audioTracks h; audioTrack := audioTrack h |}.

Definition hls_on (ev : HlsEvent) (h : Hls) : Hls :=
  {| config := config h; destroyed := destroyed h; source := source h;
     media_attached := media_attached h; listeners := listeners h ++ [ev];
     audioTracks := audioTracks h; audioTrack := audioTrack h |}.

Definition hls_set_audioTrack (n : Z) (h : Hls) : Hls :=
  {| config := config h; destroyed := destroyed h; source := source h;
     media_attached := media_attached h; listeners := listeners h;
     audioTracks := audioTracks h; audioTrack := n |}.

(** What the engine itself changes in its track list and selection. *)
Definition hls_set_tracks (tracks : option (list string)) (n : Z) (h : Hls) : Hls :=
  {| config := config h; destroyed := destroyed h; source := source h;
     media_attached := media_attached h; listeners := listeners h;
     audioTracks := tracks; audioTrack := n |}.

(** [_destroyHls()] *)
Definition _destroyHls (s : State) : State :=
  let s :=
    match hlsInstance s with
    | Some i =>
        set_hlsInstance None
          (with_engine i hls_destroy (call (CDestroy i) s))
    | None => s
    end in
  call CVideoLoad (with_video (set_src None) s).

(** [video.src = url; video.play().catch(() => {})] *)
Definition play_native (url : string) (s : State) : State :=
  call CVideoPlay (with_video (set_src (Some url)) s).

(** [_loadHls(url)] *)
Definition _loadHls (env : Platform) (url : string) (s : State) : State :=
  if negb (Hls_defined env) then
    if canPlayType_mpegurl env then play_native url s
    else showError "HLS.js failed to load. Check your connection." s
  else if negb (Hls_isSupported env) then play_native url s
  else
    let cfg := match window_HLS_CONFIG env with
               | Some c => c
               | None => default_config
               end in
    let i := List.length (heap s) in
    let s := call (CNewHls i) (with_heap (fun h => (h ++ [new_Hls cfg])%list) s) in
    let s := set_hlsInstance (Some i) s in
    let s := call (CLoadSource i url) (with_engine i (hls_loadSource url) s) in
    let s := call (CAttachMedia i) (with_engine i hls_attachMedia s) in
    let s := call (COn i MANIFEST_PARSED) (with_engine i (hls_on MANIFEST_PARSED) s) in
    call (COn i ERROR) (with_engine i (hls_on ERROR) s).

(** [hlsInstance.on(ev, ...)] on the module variable: a TypeError when it
    is [null]. *)
Definition hlsInstance_on (ev : HlsEvent) (s : State) : outcome :=
  match hlsInstance s with
  | Some i => Done (call (COn i ev) (with_engine i (hls_on ev) s))
  | None => Raised (TypeError "hlsInstance is null") s
  end.

(** [loadVideo(url, title)].  The AUDIO_TRACK_LOADED subscription stands
    after the body of [_loadHls], in [loadVideo] itself, and so runs on
    the module variable once the branch has been taken. *)
Definition loadVideo (env : Platform) (url title : string) (s : State) : outcome :=
  let s := _destroyHls s in
  let s := clearStats s in
  let s := hideError s in
  let s := showSpinner s in
  let s := with_ui (set_title (if String.eqb title EmptyString then "Untitled" else title)) s in
  match _getExt env url with
  | Throw e => Raised e s
  | Normal ext =>
      let s := with_video (fun v => set_volume (of_Z 1) (set_muted true v)) s in
      let s :=
        match kind_of ext url with
        | HLS => _loadHls env url s
        | DASH =>
            call CVideoPlay (call CVideoLoad (with_video (set_src (Some url)) s))
        | Progressive =>
            let s := with_video (fun v => set_volume (of_Z 1) (set_muted false v)) s in
            call CVideoPlay (call CVideoLoad (with_video (set_src (Some url)) s))
        end in
      hlsInstance_on AUDIO_TRACK_LOADED s
  end.

(** *** Engine event handlers *)

Definition null_deref (s : State) : outcome :=
  Raised (TypeError "hlsInstance is null") s.

(** The handler subscribed to MANIFEST_PARSED. *)
Definition on_MANIFEST_PARSED (s : State) : outcome :=
  match hlsInstance s with
  | None => null_deref s
  | Some i =>
      match nth_error (heap s) i with
      | None => null_deref s
      | Some h =>
          let s :=
            match audioTracks h with
            | Some (_ :: _) =>
                call (CSetAudioTrack i 0) (with_engine i (hls_set_audioTrack 0) s)
            | _ => s
            end in
          let s := with_video (fun v => set_volume (of_Z 1) (set_muted false v)) s in
          Done (call CVideoPlay s)
      end
  end.

(** [data.details || 'unknown'] *)
Definition details_or_unknown (d : option string) : string :=
  match d with
  | Some x => if String.eqb x EmptyString then "unknown" else x
  | None => "unknown"
  end.

(** The handler subscribed to ERROR. *)
Definition on_ERROR (data : ErrorData) (s : State) : outcome :=
  if fatal data then
    match type data with
    | NETWORK_ERROR =>
        match hlsInstance s with
        | Some i => Done (call (CStartLoad i) s)
        | None => null_deref s
        end
    | MEDIA_ERROR =>
        match hlsInstance s with
        | Some i => Done (call (CRecoverMediaError i) s)
        | None => null_deref s
        end
    | _ =>
        Done (showError ("HLS fatal error: " ++ details_or_unknown (details data)) s)
    end
  else Done s.

(** The handler subscribed to AUDIO_TRACK_LOADED. *)
Definition on_AUDIO_TRACK_LOADED (s : State) : outcome :=
  match hlsInstance s with
  | None => null_deref s
  | Some i =>
      match nth_error (heap s) i with
      | None => null_deref s
      | Some h =>
          if (audioTrack h <? 0)%Z then
            match audioTracks h with
            | None => Raised (TypeError "audioTracks is undefined") s
            | Some (_ :: _) =>
                Done (call (CSetAudioTrack i 0)
                        (with_engine i (hls_set_audioTrack 0) s))
            | Some [] => Done s
            end
          else Done s
      end
  end.

(** An event as an engine emits it. *)
Inductive HlsEmit : Type :=
| EmitManifestParsed
| EmitError (data : ErrorData)
| EmitAudioTrackLoaded.

Definition event_of (e : HlsEmit) : HlsEvent :=
  match e with
  | EmitManifestParsed => MANIFEST_PARSED
  | EmitError _ => ERROR
  | EmitAudioTrackLoaded => AUDIO_TRACK_LOADED
  end.

Definition handler_of (e : HlsEmit) : State -> outcome :=
  match e with
  | EmitManifestParsed => on_MANIFEST_PARSED
  | EmitError data => on_ERROR data
  | EmitAudioTrackLoaded => on_AUDIO_TRACK_LOADED
  end.

(** Engine [i] emits [e]: each of its listeners for that event runs, in
    subscription order; a listener that throws does not stop the rest. *)
Definition hls_emit (i : nat) (e : HlsEmit) (s : State) : State :=
  match nth_error (heap s) i with
  | None => s
  | Some h =>
      fold_left
        (fun st ev =>
           if HlsEvent_eqb ev (event_of e) then state_of (handler_of e st)
           else st)
        (listeners h) s
  end.

(** *** Video element listeners *)

(** [_scheduleUnmute()] *)
Definition _scheduleUnmute (s : State) : State :=
  if unmutePending s then s
  else
    let s := set_unmutePending true s in
    call (CSetTimeout 100)
      (with_timers
         (fun t => (t ++ [{| delay := 100; callback := UnmuteCallback |}])%list) s).

(** The callback that [_scheduleUnmute] hands to [setTimeout]. *)
Definition unmute_callback (s : State) : State :=
  let v := video s in
  let s := if negb (paused v) && gt (currentTime v) lit_0_1
           then with_video (set_muted false) s
           else s in
  set_unmutePending false s.

Definition run_callback (c : TimerCallback) (s : State) : State :=
  match c with
  | UnmuteCallback => unmute_callback s
  end.

Fixpoint remove_nth {A : Type} (k : nat) (l : list A) {struct l} : list A :=
  match l, k with
  | [], _ => []
  | _ :: t, O => t
  | x :: t, S j => x :: remove_nth j t
  end.

(** The [k]-th pending timer expires. *)
Definition fire_timer (k : nat) (s : State) : State :=
  match nth_error (timers s) k with
  | None => s
  | Some t => run_callback (callback t) (with_timers (remove_nth k) s)
  end.

(** The [msgs] table of [_onVideoError]. *)
Definition msgs (c : Z) : option string :=
  match c with
  | 1 => Some "Playback aborted."
  | 2 => Some "Network error. Check the URL and your connection."
  | 3 => Some "Decoding error. Format may be unsupported."
  | 4 => Some "Source not supported or URL is invalid."
  | _ => None
  end.

(** The argument that [_onVideoError] passes to [showError]. *)
Definition video_error_message (err : option MediaError) : string :=
  match err with
  | Some e =>
      match msgs (code e) with
      | Some m => m
      | None => "Unknown error."
      end
  | None => "Could not load video."
  end.

(** [_onVideoError()] *)
Definition _onVideoError (s : State) : State :=
  let s := hideSpinner s in
  showError (video_error_message (error (video s))) s.

(** ToNumber *)
Definition to_number (v : value) : number :=
  match v with
  | Num x => x
  | Undefined => NaN
  end.

(** [_onProgress()]: the width given to the buffer bar. *)
Definition _onProgress (env : Platform) (s : State) : State :=
  let v := video s in
  if negb (truthy (duration v)) || (List.length (buffered v) =? 0)%nat then s
  else
    match nth_error (buffered v) (List.length (buffered v) - 1) with
    | None => s
    | Some (_, e) =>
        let pct := mul (div e (to_number (duration v))) (of_Z 100) in
        with_ui (set_bufferBarWidth (Number_toString env pct ++ "%")) s
    end.

(** The loop of [_getBufferAhead]. *)
Fixpoint bufferAhead_from (ct : number) (ranges : list (number * number))
  : option number :=
  match ranges with
  | [] => None
  | (st, en) :: rest =>
      if le st ct && le ct en then Some (sub en ct)
      else bufferAhead_from ct rest
  end.

(** [_getBufferAhead()]; [None] is [null]. *)
Definition _getBufferAhead (v : Video) : option number :=
  if (List.length (buffered v) =? 0)%nat then None
  else bufferAhead_from (currentTime v) (buffered v).

(** The events bound in [_bindVideoEvents] (the timeupdate, volumechange
    and fullscreen listeners only repaint widgets that are not modelled). *)
Inductive VideoEvent : Type :=
| Ev_waiting
| Ev_playing
| Ev_pause
| Ev_play
| Ev_ended
| Ev_error
| Ev_canplay
| Ev_loadeddata
| Ev_progress.

Definition video_listener (env : Platform) (ev : VideoEvent) (s : State) : State :=
  match ev with
  | Ev_waiting => showSpinner s
  | Ev_playing => _scheduleUnmute (_setPlayIcon false (hideError (hideSpinner s)))
  | Ev_pause => _setPlayIcon true s
  | Ev_play => _scheduleUnmute (_setPlayIcon false s)
  | Ev_ended => _setPlayIcon true s
  | Ev_error => _onVideoError s
  | Ev_canplay => hideSpinner s
  | Ev_loadeddata => hideSpinner s
  | Ev_progress => _onProgress env s
  end.

(** *** Player actions *)

Definition togglePlayPause (s : State) : State :=
  if paused (video s) then call CVideoPlay s else call CVideoPause s.

(** The value that [seek(secs)] assigns to [video.currentTime]. *)
Definition seek_target (v : Video) (secs : number) : number :=
  Math_max pos_zero
    (Math_min (or_zero (duration v)) (add (currentTime v) secs)).

(** [seek(secs)]; assigning a non-finite number to [currentTime] throws. *)
Definition seek (secs : number) (s : State) : outcome :=
  let t := seek_target (video s) secs in
  if is_finite t then Done (with_video (set_currentTime t) s)
  else Raised (TypeError "currentTime is non-finite") s.

(** *** The module as a reactive system *)

Inductive Input : Type :=
| ILoadVideo (url title : string)
| ISeek (secs : number)
| ITogglePlayPause
| IVideoEvent (ev : VideoEvent)
| IHlsEvent (i : nat) (e : HlsEmit)
(** the engine updates its own track list and selection *)
| IHlsTracks (i : nat) (tracks : option (list string)) (n : Z)
(** the element's properties change under playback or the user *)
| IVideoChange (v : Video)
| ITimeout (k : nat).

Definition step (env : Platform) (inp : Input) (s : State) : State :=
  match inp with
  | ILoadVideo url title => state_of (loadVideo env url title s)
  | ISeek secs => state_of (seek secs s)
  | ITogglePlayPause => togglePlayPause s
  | IVideoEvent ev => video_listener env ev s
  | IHlsEvent i e => hls_emit i e s
  | IHlsTracks i tracks n => with_engine i (hls_set_tracks tracks n) s
  | IVideoChange v => with_video (fun _ => v) s
  | ITimeout k => fire_timer k s
  end.

Definition run (env : Platform) (inputs : list Input) (s : State) : State :=
  fold_left (fun st inp => step env inp st) inputs s.

(** The state once [initPlayer] has run: no engine, no timer. *)
Definition init : State :=
  {| video := {| src := None; muted := false; volume := of_Z 1;
                 paused := true; currentTime := pos_zero;
                 duration := Num NaN; buffered := []; error := None |};
     ui := {| playerTitle := EmptyString; playerVisible := false;
              spinnerActive := false; errorActive := false; errorMsg := EmptyString;
              playIconPaused := true; bufferBarWidth := EmptyString;
              statsActive := false; statsBody := EmptyString |};
     hlsInstance := None; heap := []; unmutePending := false;
     timers := []; calls := [] |}.

(** *** Observations used by the statements *)

(** The engines that have not been destroyed. *)
Definition live_engines (s : State) : list Hls :=
  filter (fun h => negb (destroyed h)) (heap s).

(** The pending unmute timers. *)
Definition unmute_timers (s : State) : list Timer :=
  filter (fun t => match callback t with UnmuteCallback => true end) (timers s).

End Player.

Import JS Player.
Open Scope Z_scope.
Open Scope list_scope.

(* ------------------------------------------------------------------ *)
(** ** Vocabulary of the statements *)

(** [t] is [s] clamped into [0, D]: zero below the interval, [D] above it,
    and [s] itself inside (a negative zero comes out as zero). *)
Definition clamp_spec (s D t : number) : Prop :=
  (lt s pos_zero = true -> t = pos_zero) /\
  (le pos_zero s = true -> le s D = true ->
   t = s \/ (s = neg_zero /\ t = pos_zero)) /\
  (lt D s = true -> t = D).

(** A video element at position [p] with duration [d], nothing buffered. *)
Definition video_at (p : number) (d : value) : Video :=
  {| src := None; muted := true; volume := of_Z 1; paused := false;
     currentTime := p; duration := d; buffered := []; error := None |}.

Definition state_at (p : number) (d : value) : State :=
  with_video (fun _ => video_at p d) init.

Definition with_buffered (r : list (number * number)) (s : State) : State :=
  with_video
    (fun v => {| src := src v; muted := muted v; volume := volume v;
                 paused := paused v; currentTime := currentTime v;
                 duration := duration v; buffered := r; error := error v |})
    s.

(** The interval [(st, en)] contains the position [p]. *)
Definition contains (p : number) (r : number * number) : bool :=
  le (fst r) p && le p (snd r).

(** The interval contains [p] or lies after it. *)
Definition contains_or_follows (p : number) (r : number * number) : bool :=
  contains p r || lt p (fst r).

(** A normalized TimeRanges object: each range is non-empty or a point, and
    each one starts after the previous one ends. *)
Fixpoint normalized (r : list (number * number)) : bool :=
  match r with
  | [] => true
  | (st, en) :: rest =>
      le st en
      && match rest with
         | [] => true
         | (st', _) :: _ => lt en st'
         end
      && normalized rest
  end.

(** What the specification says of the buffer bar, in its words: on a
    progress event with a known duration and something buffered, the bar is
    drawn from the end of the furthest buffered interval that contains or
    follows the current position, over the duration. *)
Definition progress_from_range_ahead (env : Platform) (s : State) : Prop :=
  truthy (duration (video s)) = true ->
  buffered (video s) <> [] ->
  exists st en,
    In (st, en) (buffered (video s)) /\
    contains_or_follows (currentTime (video s)) (st, en) = true /\
    (forall st' en',
        In (st', en') (buffered (video s)) ->
        contains_or_follows (currentTime (video s)) (st', en') = true ->
        le en' en = true) /\
    bufferBarWidth (ui (_onProgress env s))
    = (Number_toString env
         (mul (div en (to_number (duration (video s)))) (of_Z 100)) ++ "%")%string.

(** *** A platform to run the model on *)

Fixpoint drop_until (c : ascii) (s : string) : option string :=
  match s with
  | EmptyString => None
  | String a s' => if Ascii.eqb a c then Some s else drop_until c s'
  end.

Fixpoint take_until (stop : ascii -> bool) (s : string) : string :=
  match s with
  | EmptyString => EmptyString
  | String a s' => if stop a then EmptyString else String a (take_until stop s')
  end.

Definition strip_prefix (p s : string) : option string :=
  if String.prefix p s
  then Some (String.substring (String.length p)
               (String.length s - String.length p) s)
  else None.

(** The pathname of an absolute http(s) URL without port or credentials;
    anything else is refused like a relative reference. *)
Definition sample_pathname (u : string) : option string :=
  let rest := match strip_prefix "https://" u with
              | Some r => Some r
              | None => strip_prefix "http://" u
              end in
  match rest with
  | None => None
  | Some r =>
      let r := take_until (fun a => Ascii.eqb a "?" || Ascii.eqb a "#")%char r in
      match drop_until "/" r with
      | Some p => Some p
      | None => Some "/"
      end
  end.

(** Prints the integers exactly and names the other values. *)
Definition sample_toString (x : number) : string :=
  match x with
  | S754_nan => "NaN"
  | S754_infinity false => "Infinity"
  | S754_infinity true => "-Infinity"
  | S754_zero _ => "0"
  | S754_finite sg m e =>
      let z := if (0 <=? e)%Z then Z.shiftl (Zpos m) e
               else Z.shiftr (Zpos m) (- e) in
      if (0 <=? e)%Z || (Z.shiftl z (- e) =? Zpos m)%Z
      then ((if sg then "-" else EmptyString) ++
            NilZero.string_of_uint (N.to_uint (Z.to_N z)))%string
      else "(fraction)"
  end.

Definition sample_platform : Platform :=
  {| URL_pathname := sample_pathname;
     Hls_defined := true;
     Hls_isSupported := true;
     canPlayType_mpegurl := false;
     window_HLS_CONFIG := None;
     Number_toString := sample_toString |}.

(** The character [c] occurs in [s]. *)
Fixpoint has_char (c : ascii) (s : string) : bool :=
  match s with
  | EmptyString => false
  | String a s' => Ascii.eqb a c || has_char c s'
  end.

(** The calls made between [s] and [s']. *)
Definition new_calls (s s' : State) : list Call :=
  skipn (List.length (calls s)) (calls s').



(** What the specification says of surface errors with an unknown code or
    no error object, in its words: the generic could-not-load message is
    shown. *)
Definition unknown_error_shows_could_not_load (s : State) : Prop :=
  match error (video s) with
  | Some e => msgs (code e) = None
  | None => True
  end ->
  errorMsg (ui (_onVideoError s)) = "Could not load video."%string.

Definition with_error (e : option MediaError) (s : State) : State :=
  with_video
    (fun v => {| src := src v; muted := muted v; volume := volume v;
                 paused := paused v; currentTime := currentTime v;
                 duration := duration v; buffered := buffered v; error := e |})
    s.

(** An HLS stream loaded on the sample platform, then the engine reporting
    its audio tracks and which one is selected. *)
Definition hls_session (tracks : list string) (selected : Z) : State :=
  run sample_platform
    [ILoadVideo "https://cdn.example.com/live/index.m3u8" "Live";
     IHlsTracks 0 (Some tracks) selected]
    init.

(** The subscriptions an engine carries once [loadVideo] has returned. *)
Definition full_listeners : list HlsEvent :=
  [MANIFEST_PARSED; ERROR; AUDIO_TRACK_LOADED].

(** A destroyed engine without subscriptions. *)
Definition disposed (h : Hls) : Prop :=
  destroyed h = true /\ listeners h = [].

(** [loadVideo] on [url] goes through HLS.js. *)
Definition engine_path (env : Platform) (url : string) : bool :=
  match classify env url with
  | Normal HLS => Hls_defined env && Hls_isSupported env
  | _ => false
  end.

(** The engine that [loadVideo] leaves behind on that path. *)
Definition fresh_engine (env : Platform) (url : string) : Hls :=
  {| config := match window_HLS_CONFIG env with
               | Some c => c
               | None => default_config
               end;
     destroyed := false; source := Some url; media_attached := true;
     listeners := full_listeners; audioTracks := Some []; audioTrack := -1 |}.

(** The engines are laid out as the lifecycle leaves them: every engine but
    the current one is disposed, and the current one, if any, is the
    youngest, live and fully subscribed. *)
Definition engines_ok (s : State) : Prop :=
  match hlsInstance s with
  | None => Forall disposed (heap s)
  | Some i =>
      exists old h,
        heap s = old ++ [h] /\ i = List.length old /\ Forall disposed old /\
        destroyed h = false /\ listeners h = full_listeners
  end.

(** The one timer that [_scheduleUnmute] creates. *)
Definition unmute_timer : Timer := {| delay := 100; callback := UnmuteCallback |}.

(** The pending timers are the unmute timer when the flag is up, none
    otherwise. *)
Definition timers_ok (s : State) : Prop :=
  timers s = if unmutePending s then [unmute_timer] else [].

(* ------------------------------------------------------------------ *)
(** ** HTML escaping (player.js and library.js) *)

Module Html.

(** The double quote character. *)
Definition quot : ascii := "034"%char.

(** [s.replace(/c/g, rep)] for a pattern of one literal character. *)
Fixpoint replace_all (c : ascii) (rep : string) (s : string) : string :=
  match s with
  | EmptyString => EmptyString
  | String a s' =>
      if Ascii.eqb a c then (rep ++ replace_all c rep s')%string
      else String a (replace_all c rep s')
  end.

(** [escHtml(s)] on a string: the four replacements, in the order of the
    source. *)
Definition escHtml (s : string) : string :=
  replace_all quot "&quot;"
    (replace_all ">" "&gt;"
       (replace_all "<" "&lt;"
          (replace_all "&" "&amp;" s))).

End Html.

(* ------------------------------------------------------------------ *)
(** ** localStorage *)

Module Store.

(** A library entry, as [addVideo] builds it. *)
Record Entry : Type := {
  id : Z;
  title : string;
  url : string;
  addedAt : Z
}.

(** What the library keeps under a key: a plain text, or the JSON text of
    an array of entries, kept as the array it denotes ([JSON.parse] of
    [JSON.stringify(videos)] is that array again: ids and dates are
    integers, titles and URLs strings). *)
Inductive Stored : Type :=
| SText (s : string)
| SVideos (l : list Entry).

Definition Storage := list (string * Stored).

(** [localStorage.getItem(k)]; [None] is [null]. *)
Fixpoint getItem {V : Type} (k : string) (st : list (string * V)) : option V :=
  match st with
  | [] => None
  | (k', v) :: rest => if String.eqb k' k then Some v else getItem k rest
  end.

(** [localStorage.setItem(k, v)] *)
Fixpoint setItem {V : Type} (k : string) (v : V) (st : list (string * V))
  : list (string * V) :=
  match st with
  | [] => [(k, v)]
  | (k', v') :: rest =>
      if String.eqb k' k then (k', v) :: rest
      else (k', v') :: setItem k v rest
  end.

End Store.

(* ------------------------------------------------------------------ *)
(** ** The theme module (theme.js) *)

Module Theme.
Import Store.

(** The [data-theme] attribute of the root element ([None]: not set) and
    the storage, whose values are for this module texts and no more. *)
Record Page : Type := {
  data_theme : option string;
  store : list (string * string)
}.

(** [v || d] for a string or null. *)
Definition or_default (v : option string) (d : string) : string :=
  match v with
  | Some s => if String.eqb s EmptyString then d else s
  | None => d
  end.

(** [_applyTheme(theme)] *)
Definition _applyTheme (theme : string) (p : Page) : Page :=
  {| data_theme := Some theme; store := store p |}.

(** [initTheme()]: the saved preference, dark by default, is applied. *)
Definition initTheme (p : Page) : Page :=
  let saved := or_default (getItem "xstream_theme" (store p)) "dark" in
  _applyTheme saved p.

(** The click listener that [initTheme] puts on the toggle. *)
Definition toggle_click (p : Page) : Page :=
  let current := or_default (data_theme p) "dark" in
  let next := if String.eqb current "dark" then "light" else "dark" in
  let p := _applyTheme next p in
  {| data_theme := data_theme p;
     store := setItem "xstream_theme" next (store p) |}.

(** [n] clicks in a row. *)
Fixpoint clicks (n : nat) (p : Page) : Page :=
  match n with
  | O => p
  | S k => toggle_click (clicks k p)
  end.

(** The page as a reload finds it: no attribute yet, the storage kept. *)
Definition reload (p : Page) : Page :=
  initTheme {| data_theme := None; store := store p |}.

End Theme.

(* ------------------------------------------------------------------ *)
(** ** Formatting helpers (player.js and library.js) *)

Module Fmt.
Import JS.

(** [Math.floor(x)] *)
Definition Math_floor (x : number) : number :=
  match x with
  | S754_finite sg m e =>
      if (0 <=? e)%Z then x
      else
        let q := Z.shiftr (Zpos m) (- e) in
        let whole := (Z.shiftl q (- e) =? Zpos m)%Z in
        if sg then
          if whole then binary_normalize prec emax (- q) 0 true
          else binary_normalize prec emax (- (q + 1)) 0 true
        else binary_normalize prec emax q 0 false
  | _ => x
  end.

(** [x % y]: the remainder of the truncating division, with the sign of
    [x]; it is always representable, so nothing is rounded. *)
Definition rem (x y : number) : number :=
  match x, y with
  | S754_nan, _ | _, S754_nan => NaN
  | S754_infinity _, _ => NaN
  | _, S754_zero _ => NaN
  | _, S754_infinity _ => x
  | S754_zero _, _ => x
  | S754_finite sx mx ex, S754_finite _ my ey =>
      let e := Z.min ex ey in
      let X := Z.shiftl (Zpos mx) (ex - e) in
      let Y := Z.shiftl (Zpos my) (ey - e) in
      let r := Z.modulo X Y in
      binary_normalize prec emax (if sx then - r else r) e sx
  end.

(** [s.length]: UTF-16 code units of a UTF-8 byte string. *)
Fixpoint utf16_length (s : string) : nat :=
  match s with
  | EmptyString => O
  | String c s' =>
      let n := N_of_ascii c in
      ((if (n <? 128)%N then 1
        else if (n <? 192)%N then 0
        else if (n <? 240)%N then 1
        else 2) + utf16_length s')%nat
  end.

(** [s.padStart(2, '0')] *)
Definition padStart2 (s : string) : string :=
  match utf16_length s with
  | O => "00"
  | S O => ("0" ++ s)%string
  | _ => s
  end.

(** [_fmt(sec)] of player.js, which is [_fmtDur(sec)] of library.js word
    for word; [str] is the number-to-string conversion. *)
Definition _fmt (str : number -> string) (sec : number) : string :=
  if negb (is_finite sec) then "–"
  else
    let h := Math_floor (div sec (of_Z 3600)) in
    let m := Math_floor (div (rem sec (of_Z 3600)) (of_Z 60)) in
    let s := Math_floor (rem sec (of_Z 60)) in
    if gt h pos_zero
    then (str h ++ ":" ++ padStart2 (str m) ++ ":" ++ padStart2 (str s))%string
    else (str m ++ ":" ++ padStart2 (str s))%string.

(** [_kbps(bps)]; [fixed x n] is [x.toFixed(n)]. *)
Definition _kbps (str : number -> string) (fixed : number -> nat -> string)
           (bps : number) : string :=
  if le (of_Z 1000000) bps
  then (fixed (div bps (of_Z 1000000)) 2%nat ++ " Mbps")%string
  else if le (of_Z 1000) bps
  then (fixed (div bps (of_Z 1000)) 0%nat ++ " kbps")%string
  else (str bps ++ " bps")%string.

(** [_fmtSize(bytes)] *)
Definition _fmtSize (str : number -> string) (fixed : number -> nat -> string)
           (bytes : number) : string :=
  if le (of_Z 1000000000) bytes
  then (fixed (div bytes (of_Z 1000000000)) 2%nat ++ " GB")%string
  else if le (of_Z 1000000) bytes
  then (fixed (div bytes (of_Z 1000000)) 1%nat ++ " MB")%string
  else if le (of_Z 1000) bytes
  then (fixed (div bytes (of_Z 1000)) 0%nat ++ " KB")%string
  else (str bytes ++ " B")%string.

End Fmt.

(* ------------------------------------------------------------------ *)
(** ** The library module (library.js) *)

Module Library.
Import JS Player Store.

(** What library.js takes from its surroundings.  [extractTitle] is the
    function of that name in library.js: it is pure and catches whatever it
    throws, so it yields a string or null; its regular expressions are not
    modelled, and every statement below holds whichever title it finds. *)
Record Host : Type := {
  platform : Platform;
  (** [x.toFixed(n)] *)
  Number_toFixed : number -> nat -> string;
  (** [s.trim()] *)
  String_trim : string -> string;
  (** [parseInt(s, 10)] *)
  parseInt10 : string -> number;
  (** [JSON.parse] of a text that this module did not write; [None] when it
      throws or gives something that is not an array of entries. *)
  JSON_parse_videos : string -> option (list Entry);
  extractTitle : string -> option string;
  (** [s.toUpperCase()] *)
  String_toUpperCase : string -> string;
  (** [String(Object)] and [String(Object.prototype)] *)
  Object_toString : string;
  Object_prototype_toString : string
}.

Definition str (h : Host) : number -> string := Number_toString (platform h).

(** One object of [metaCache]; an absent property is [None] or [false]. *)
Record Meta : Type := {
  m_duration : option number;
  m_size : option number;
  m_hasLoaded : bool
}.

Definition no_meta : Meta :=
  {| m_duration := None; m_size := None; m_hasLoaded := false |}.

(** One card of the list, as the parts of its markup that vary. *)
Record Card : Type := {
  card_id : Z;
  card_active : bool;
  card_delay : number;
  card_title : string;
  card_format : string;
  card_duration : string;
  card_size : option string
}.

(** [videoList.innerHTML] *)
Inductive ListView : Type :=
| Unrendered
| EmptyState
| Cards (cs : list Card).

(** A hidden video element made to read a duration. *)
Record Probe : Type := {
  p_entry : Z;
  p_src : string;
  p_attached : bool
}.

Inductive LibTimer : Type :=
| ToastHide
| ProbeCleanup (k : nat).

(** Requests that leave the page. *)
Inductive Request : Type :=
| HeadRequest (entry : Z) (u : string).

(** The state of the module and of the elements it writes.  [player] is
    the state of player.js, which [playVideo] drives. *)
Record Lib : Type := {
  videos : list Entry;
  unknownCount : number;
  activeId : option Z;
  metaCache : list (Z * Meta);
  storage : Storage;
  urlInput : string;
  toastText : string;
  toastClass : string;
  toastTimer : option nat;
  pending : list (nat * (Z * LibTimer));
  nextHandle : nat;
  countBadge : string;
  clearAllShown : bool;
  listView : ListView;
  xLibExposed : bool;
  requests : list Request;
  probes : list Probe;
  player : State
}.

(** Completion of a library function: it returns, or an exception of the
    code it calls passes through it. *)
Inductive result : Type :=
| Returned (s : Lib)
| Threw (e : exn) (s : Lib).

Definition lib_of (r : result) : Lib :=
  match r with Returned s | Threw _ s => s end.

(** *** Field updates *)

Definition set_videos (v : list Entry) (s : Lib) : Lib :=
  {| videos := v; unknownCount := unknownCount s; activeId := activeId s;
     metaCache := metaCache s; storage := storage s; urlInput := urlInput s;
     toastText := toastText s; toastClass := toastClass s;
     toastTimer := toastTimer s; pending := pending s;
     nextHandle := nextHandle s; countBadge := countBadge s;
     clearAllShown := clearAllShown s; listView := listView s;
     xLibExposed := xLibExposed s; requests := requests s;
     probes := probes s; player := player s |}.

Definition set_unknownCount (n : number) (s : Lib) : Lib :=
  {| videos := videos s; unknownCount := n; activeId := activeId s;
     metaCache := metaCache s; storage := storage s; urlInput := urlInput s;
     toastText := toastText s; toastClass := toastClass s;
     toastTimer := toastTimer s; pending := pending s;
     nextHandle := nextHandle s; countBadge := countBadge s;
     clearAllShown := clearAllShown s; listView := listView s;
     xLibExposed := xLibExposed s; requests := requests s;
     probes := probes s; player := player s |}.

Definition set_activeId (a : option Z) (s : Lib) : Lib :=
  {| videos := videos s; unknownCount := unknownCount s; activeId := a;
     metaCache := metaCache s; storage := storage s; urlInput := urlInput s;
     toastText := toastText s; toastClass := toastClass s;
     toastTimer := toastTimer s; pending := pending s;
     nextHandle := nextHandle s; countBadge := countBadge s;
     clearAllShown := clearAllShown s; listView := listView s;
     xLibExposed := xLibExposed s; requests := requests s;
     probes := probes s; player := player s |}.

Definition set_metaCache (m : list (Z * Meta)) (s : Lib) : Lib :=
  {| videos := videos s; unknownCount := unknownCount s; activeId := activeId s;
     metaCache := m; storage := storage s; urlInput := urlInput s;
     toastText := toastText s; toastClass := toastClass s;
     toastTimer := toastTimer s; pending := pending s;
     nextHandle := nextHandle s; countBadge := countBadge s;
     clearAllShown := clearAllShown s; listView := listView s;
     xLibExposed := xLibExposed s; requests := requests s;
     probes := probes s; player := player s |}.

Definition set_storage (st : Storage) (s : Lib) : Lib :=
  {| videos := videos s; unknownCount := unknownCount s; activeId := activeId s;
     metaCache := metaCache s; storage := st; urlInput := urlInput s;
     toastText := toastText s; toastClass := toastClass s;
     toastTimer := toastTimer s; pending := pending s;
     nextHandle := nextHandle s; countBadge := countBadge s;
     clearAllShown := clearAllShown s; listView := listView s;
     xLibExposed := xLibExposed s; requests := requests s;
     probes := probes s; player := player s |}.

Definition set_urlInput (u : string) (s : Lib) : Lib :=
  {| videos := videos s; unknownCount := unknownCount s; activeId := activeId s;
     metaCache := metaCache s; storage := storage s; urlInput := u;
     toastText := toastText s; toastClass := toastClass s;
     toastTimer := toastTimer s; pending := pending s;
     nextHandle := nextHandle s; countBadge := countBadge s;
     clearAllShown := clearAllShown s; listView := listView s;
     xLibExposed := xLibExposed s; requests := requests s;
     probes := probes s; player := player s |}.

Definition set_toast (text cls : string) (timer : option nat)
           (p : list (nat * (Z * LibTimer))) (next : nat) (s : Lib) : Lib :=
  {| videos := videos s; unknownCount := unknownCount s; activeId := activeId s;
     metaCache := metaCache s; storage := storage s; urlInput := urlInput s;
     toastText := text; toastClass := cls;
     toastTimer := timer; pending := p;
     nextHandle := next; countBadge := countBadge s;
     clearAllShown := clearAllShown s; listView := listView s;
     xLibExposed := xLibExposed s; requests := requests s;
     probes := probes s; player := player s |}.

Definition set_view (badge : string) (shown : bool) (v : ListView)
           (exposed : bool) (s : Lib) : Lib :=
  {| videos := videos s; unknownCount := unknownCount s; activeId := activeId s;
     metaCache := metaCache s; storage := storage s; urlInput := urlInput s;
     toastText := toastText s; toastClass := toastClass s;
     toastTimer := toastTimer s; pending := pending s;
     nextHandle := nextHandle s; countBadge := badge;
     clearAllShown := shown; listView := v;
     xLibExposed := exposed; requests := requests s;
     probes := probes s; player := player s |}.

Definition set_probing (r : list Request) (pr : list Probe)
           (p : list (nat * (Z * LibTimer))) (next : nat) (s : Lib) : Lib :=
  {| videos := videos s; unknownCount := unknownCount s; activeId := activeId s;
     metaCache := metaCache s; storage := storage s; urlInput := urlInput s;
     toastText := toastText s; toastClass := toastClass s;
     toastTimer := toastTimer s; pending := p;
     nextHandle := next; countBadge := countBadge s;
     clearAllShown := clearAllShown s; listView := listView s;
     xLibExposed := xLibExposed s; requests := r;
     probes := pr; player := player s |}.

Definition set_player (p : State) (s : Lib) : Lib :=
  {| videos := videos s; unknownCount := unknownCount s; activeId := activeId s;
     metaCache := metaCache s; storage := storage s; urlInput := urlInput s;
     toastText := toastText s; toastClass := toastClass s;
     toastTimer := toastTimer s; pending := pending s;
     nextHandle := nextHandle s; countBadge := countBadge s;
     clearAllShown := clearAllShown s; listView := listView s;
     xLibExposed := xLibExposed s; requests := requests s;
     probes := probes s; player := p |}.

(** *** The metadata cache *)

(** [metaCache[id]] *)
Fixpoint meta_get (i : Z) (m : list (Z * Meta)) : option Meta :=
  match m with
  | [] => None
  | (k, v) :: rest => if (k =? i)%Z then Some v else meta_get i rest
  end.

(** [metaCache[id] = v] *)
Fixpoint meta_set (i : Z) (v : Meta) (m : list (Z * Meta)) : list (Z * Meta) :=
  match m with
  | [] => [(i, v)]
  | (k, w) :: rest =>
      if (k =? i)%Z then (k, v) :: rest else (k, w) :: meta_set i v rest
  end.

(** [delete metaCache[id]] *)
Fixpoint meta_delete (i : Z) (m : list (Z * Meta)) : list (Z * Meta) :=
  match m with
  | [] => []
  | (k, w) :: rest =>
      if (k =? i)%Z then meta_delete i rest else (k, w) :: meta_delete i rest
  end.

(** *** Timers and the toast *)

(** [clearTimeout(h)]; nothing happens for a handle that is not pending. *)
Definition clear_handle (h : option nat) (p : list (nat * (Z * LibTimer)))
  : list (nat * (Z * LibTimer)) :=
  match h with
  | None => p
  | Some n => filter (fun e => negb (Nat.eqb (fst e) n)) p
  end.

(** [showToast(msg, type)] *)
Definition showToast (msg type : string) (s : Lib) : Lib :=
  let cls := ("toast show" ++
              (if String.eqb type EmptyString then EmptyString
               else " " ++ type))%string in
  let p := clear_handle (toastTimer s) (pending s) in
  let h := nextHandle s in
  set_toast msg cls (Some h) (p ++ [(h, (3500, ToastHide))]) (S h) s.

(** The callback of the toast timer. *)
Definition toast_hide (s : Lib) : Lib :=
  set_toast (toastText s) "toast" (toastTimer s) (pending s) (nextHandle s) s.

(** *** Formats *)

(** The value of [_guessFormat(url)]: a string, or one of the two members
    that the lookup [map[ext]] finds on the prototype of [map]. *)
Inductive Format : Type :=
| Label (s : string)
| TheObjectConstructor
| TheObjectPrototype.

(** The [map] of [_guessFormat], own properties first. *)
Definition format_map (ext : string) : option Format :=
  if String.eqb ext "m3u8" then Some (Label "HLS")
  else if String.eqb ext "mpd" then Some (Label "DASH")
  else if String.eqb ext "mp4" then Some (Label "MP4")
  else if String.eqb ext "mkv" then Some (Label "MKV")
  else if String.eqb ext "webm" then Some (Label "WebM")
  else if String.eqb ext "avi" then Some (Label "AVI")
  else if String.eqb ext "mov" then Some (Label "MOV")
  else if String.eqb ext "ts" then Some (Label "TS")
  else if String.eqb ext "flv" then Some (Label "FLV")
  else if String.eqb ext "m4v" then Some (Label "M4V")
  else if String.eqb ext "constructor" then Some TheObjectConstructor
  else if String.eqb ext "__proto__" then Some TheObjectPrototype
  else None.

(** [_guessFormat(url)] *)
Definition _guessFormat (h : Host) (u : string) : completion Format :=
  match _getExt (platform h) u with
  | Throw e => Throw e
  | Normal None => Throw (TypeError "undefined.toUpperCase")
  | Normal (Some ext) =>
      match format_map ext with
      | Some f => Normal f
      | None =>
          let up := String_toUpperCase h ext in
          Normal (Label (if String.eqb up EmptyString then "VIDEO" else up))
      end
  end.

(** [String(format)] *)
Definition format_text (h : Host) (f : Format) : string :=
  match f with
  | Label s => s
  | TheObjectConstructor => Object_toString h
  | TheObjectPrototype => Object_prototype_toString h
  end.

(** *** Persistence *)

(** [_save()] *)
Definition _save (h : Host) (s : Lib) : Lib :=
  let st := setItem "xstream_videos" (SVideos (videos s)) (storage s) in
  let st := setItem "xstream_unk" (SText (str h (unknownCount s))) st in
  set_storage st s.

(** The two module-level reads of the storage, when library.js is
    evaluated; [None] when [JSON.parse] throws or gives something that is
    not an array of entries, so that the module has no list to start
    with. *)
Definition load_videos (h : Host) (st : Storage) : option (list Entry) :=
  match getItem "xstream_videos" st with
  | None => Some []
  | Some (SVideos l) => Some l
  | Some (SText t) =>
      if String.eqb t EmptyString then Some [] else JSON_parse_videos h t
  end.

Definition load_unknownCount (h : Host) (st : Storage) : number :=
  match getItem "xstream_unk" st with
  | Some (SText t) =>
      parseInt10 h (if String.eqb t EmptyString then "0" else t)
  | Some (SVideos l) => NaN  (* the text of an array starts with a bracket *)
  | None => parseInt10 h "0"
  end.

(** *** Metadata *)

Definition truthy_num (x : option number) : option number :=
  match x with
  | Some v => if num_truthy v then Some v else None
  | None => None
  end.

Definition _fmtDur (h : Host) : number -> string := Fmt._fmt (str h).
Definition _fmtSize (h : Host) : number -> string :=
  Fmt._fmtSize (str h) (Number_toFixed h).

Definition update_card (h : Host) (m : Meta) (c : Card) : Card :=
  {| card_id := card_id c; card_active := card_active c;
     card_delay := card_delay c; card_title := card_title c;
     card_format := card_format c;
     card_duration := match truthy_num (m_duration m) with
                      | Some d => _fmtDur h d
                      | None => card_duration c
                      end;
     card_size := match truthy_num (m_size m), card_size c with
                  | Some z, None => Some (_fmtSize h z)
                  | _, old => old
                  end |}.

(** Apply [f] to the first card whose [data-id] is [i]. *)
Fixpoint on_first_card (i : Z) (f : Card -> Card) (cs : list Card) : list Card :=
  match cs with
  | [] => []
  | c :: rest =>
      if (card_id c =? i)%Z then f c :: rest
      else c :: on_first_card i f rest
  end.

(** [_updateCard(id)] *)
Definition _updateCard (h : Host) (i : Z) (s : Lib) : Lib :=
  match listView s with
  | Cards cs =>
      let m := match meta_get i (metaCache s) with
               | Some m => m
               | None => no_meta
               end in
      set_view (countBadge s) (clearAllShown s)
        (Cards (on_first_card i (update_card h m) cs)) (xLibExposed s) s
  | _ => s
  end.

(** [['m3u8','mpd'].includes(ext)] *)
Definition is_stream_ext (ext : option string) : bool :=
  ext_is ext "m3u8" || ext_is ext "mpd".

(** [_loadMeta(id, url)], up to the requests it starts. *)
Definition _loadMeta (h : Host) (i : Z) (u : string) (s : Lib) : result :=
  let m := match meta_get i (metaCache s) with
           | Some m => m
           | None => no_meta
           end in
  let s := set_metaCache (meta_set i m (metaCache s)) s in
  if m_hasLoaded m then Returned s
  else
    let m := {| m_duration := m_duration m; m_size := m_size m;
                m_hasLoaded := true |} in
    let s := set_metaCache (meta_set i m (metaCache s)) s in
    match _getExt (platform h) u with
    | Throw e => Threw e s
    | Normal ext =>
        if is_stream_ext ext then Returned s
        else
          let k := List.length (probes s) in
          let t := nextHandle s in
          Returned
            (set_probing
               (requests s ++ [HeadRequest i u])
               (probes s ++ [{| p_entry := i; p_src := u; p_attached := true |}])
               (pending s ++ [(t, (15000, ProbeCleanup k))])
               (S t) s)
    end.

(** The HEAD request for entry [i] answers with the content-length header
    [cl]; what the [then] callback throws, the [catch] swallows. *)
Definition head_response (h : Host) (i : Z) (cl : option string) (s : Lib) : Lib :=
  match cl with
  | None => s
  | Some c =>
      if String.eqb c EmptyString then s
      else if gt (parseInt10 h c) pos_zero then
        match meta_get i (metaCache s) with
        | None => s
        | Some m =>
            let m := {| m_duration := m_duration m;
                        m_size := Some (parseInt10 h c);
                        m_hasLoaded := m_hasLoaded m |} in
            _updateCard h i (set_metaCache (meta_set i m (metaCache s)) s)
        end
      else s
  end.

(** [probe.src = ''; probe.remove()] *)
Definition release_probe (k : nat) (s : Lib) : Lib :=
  set_probing (requests s)
    (update_nth k (fun p => {| p_entry := p_entry p; p_src := EmptyString;
                               p_attached := false |}) (probes s))
    (pending s) (nextHandle s) s.

(** The loadedmetadata listener of probe [k], the probe reporting the
    duration [d]. *)
Definition probe_loadedmetadata (h : Host) (k : nat) (d : number) (s : Lib) : result :=
  match nth_error (probes s) k with
  | None => Returned s
  | Some p =>
      let i := p_entry p in
      if num_truthy d && is_finite d then
        match meta_get i (metaCache s) with
        | None => Threw (TypeError "metaCache[id] is undefined") s
        | Some m =>
            let m := {| m_duration := Some d; m_size := m_size m;
                        m_hasLoaded := m_hasLoaded m |} in
            Returned
              (release_probe k
                 (_updateCard h i (set_metaCache (meta_set i m (metaCache s)) s)))
        end
      else Returned (release_probe k s)
  end.

(** The error listener of probe [k], and its 15 s clean-up. *)
Definition probe_error (k : nat) (s : Lib) : Lib := release_probe k s.

(** *** Rendering *)

Definition lit_0_04 : number := div (of_Z 4) (of_Z 100).
Definition lit_0_3 : number := div (of_Z 3) (of_Z 10).

Definition card_of (h : Host) (s : Lib) (idx : nat) (v : Entry) : completion Card :=
  let m := match meta_get (id v) (metaCache s) with
           | Some m => m
           | None => no_meta
           end in
  let dur := match truthy_num (m_duration m) with
             | Some d => _fmtDur h d
             | None => "–"
             end in
  let size := match truthy_num (m_size m) with
              | Some z => _fmtSize h z
              | None => EmptyString
              end in
  match _guessFormat h (url v) with
  | Throw e => Throw e
  | Normal f =>
      Normal
        {| card_id := id v;
           card_active := match activeId s with
                          | Some a => (id v =? a)%Z
                          | None => false
                          end;
           card_delay := Math_min (mul (of_Z (Z.of_nat idx)) lit_0_04) lit_0_3;
           card_title := Html.escHtml (title v);
           card_format := Html.escHtml (format_text h f);
           card_duration := dur;
           card_size := if String.eqb size EmptyString then None else Some size |}
  end.

(** [videos.map((v, idx) => ...)], from index [idx] on. *)
Fixpoint cards_from (h : Host) (s : Lib) (idx : nat) (vs : list Entry)
  : completion (list Card) :=
  match vs with
  | [] => Normal []
  | v :: rest =>
      match card_of h s idx v with
      | Throw e => Throw e
      | Normal c =>
          match cards_from h s (S idx) rest with
          | Throw e => Throw e
          | Normal cs => Normal (c :: cs)
          end
      end
  end.

(** The [forEach] that ends [render]. *)
Fixpoint load_missing_meta (h : Host) (vs : list Entry) (s : Lib) : result :=
  match vs with
  | [] => Returned s
  | v :: rest =>
      match meta_get (id v) (metaCache s) with
      | Some _ => load_missing_meta h rest s
      | None =>
          match _loadMeta h (id v) (url v) s with
          | Returned s' => load_missing_meta h rest s'
          | Threw e s' => Threw e s'
          end
      end
  end.

(** [render()] *)
Definition render (h : Host) (s : Lib) : result :=
  let n := List.length (videos s) in
  let badge := (str h (of_Z (Z.of_nat n)) ++ " video" ++
                (if Nat.eqb n 1 then EmptyString else "s"))%string in
  let shown := negb (Nat.eqb n 0) in
  if Nat.eqb n 0
  then Returned (set_view badge shown EmptyState (xLibExposed s) s)
  else
    match cards_from h s 0 (videos s) with
    | Throw e => Threw e (set_view badge shown (listView s) (xLibExposed s) s)
    | Normal cs =>
        load_missing_meta h (videos s) (set_view badge shown (Cards cs) true s)
    end.

(** *** Actions *)

Definition then_ (r : result) (k : Lib -> result) : result :=
  match r with
  | Returned s => k s
  | Threw e s => Threw e s
  end.

(** [title] is null, empty or shorter than two code units. *)
Definition no_title (t : option string) : bool :=
  match t with
  | None => true
  | Some x => (Fmt.utf16_length x <? 2)%nat
  end.

(** [addVideo()]; the two arguments are what [Date.now()] returns for [id]
    and for [addedAt]. *)
Definition addVideo (h : Host) (now_id now_added : Z) (s : Lib) : result :=
  let u := String_trim h (urlInput s) in
  if String.eqb u EmptyString
  then Returned (showToast "Please enter a video URL." "error" s)
  else if existsb (fun v => String.eqb (url v) u) (videos s)
  then Returned (showToast "This URL is already in your library." "error" s)
  else
    let t0 := extractTitle h u in
    let s := if no_title t0
             then set_unknownCount (add (unknownCount s) (of_Z 1)) s
             else s in
    let t := match t0 with
             | Some x => if no_title t0
                         then ("Untitled Stream " ++ str h (unknownCount s))%string
                         else x
             | None => ("Untitled Stream " ++ str h (unknownCount s))%string
             end in
    let entry := {| id := now_id; title := t; url := u; addedAt := now_added |} in
    let s := set_videos (entry :: videos s) s in
    let s := _save h s in
    let s := set_urlInput EmptyString s in
    then_ (render h s) (fun s =>
      let s := showToast ("Added: " ++ t) "success" s in
      _loadMeta h now_id u s).

Definition set_playerVisible (b : bool) (u : UI) : UI :=
  {| playerTitle := playerTitle u; playerVisible := b;
     spinnerActive := spinnerActive u; errorActive := errorActive u;
     errorMsg := errorMsg u; playIconPaused := playIconPaused u;
     bufferBarWidth := bufferBarWidth u; statsActive := statsActive u;
     statsBody := statsBody u |}.

(** [deleteVideo(id)] *)
Definition deleteVideo (h : Host) (i : Z) (s : Lib) : result :=
  let s :=
    match activeId s with
    | Some a =>
        if (a =? i)%Z then
          let p := with_video (set_src (Some EmptyString)) (player s) in
          let p := with_ui (set_playerVisible false) p in
          set_activeId None (set_player p s)
        else s
    | None => s
    end in
  let s := set_videos (filter (fun v => negb (id v =? i)%Z) (videos s)) s in
  let s := set_metaCache (meta_delete i (metaCache s)) s in
  let s := _save h s in
  then_ (render h s) (fun s => Returned (showToast "Video removed." EmptyString s)).

(** [playVideo(id)]: an exception of [loadVideo] passes through, and
    [render] is then not reached. *)
Definition playVideo (h : Host) (i : Z) (s : Lib) : result :=
  match find (fun v => (id v =? i)%Z) (videos s) with
  | None => Returned s
  | Some v =>
      let s := set_activeId (Some i) s in
      match loadVideo (platform h) (url v) (title v) (player s) with
      | Done p => render h (set_player p s)
      | Raised e p => Threw e (set_player p s)
      end
  end.

(** [clearAll()]; [answer] is what [confirm] returns if it is asked. *)
Definition clearAll (h : Host) (answer : bool) (s : Lib) : result :=
  if Nat.eqb (List.length (videos s)) 0 then Returned s
  else if negb answer then Returned s
  else
    let s := set_videos [] s in
    let s := set_unknownCount pos_zero s in
    let s := set_activeId None s in
    let p := with_ui (set_playerVisible false) (player s) in
    let p := with_video (set_src (Some EmptyString)) p in
    let s := set_player p s in
    let s := _save h s in
    then_ (render h s) (fun s => Returned (showToast "Library cleared." EmptyString s)).

(** The module once evaluated, on a storage [st] and beside a player [p]:
    [None] when it has no list to start with. *)
Definition boot (h : Host) (st : Storage) (p : State) : option Lib :=
  match load_videos h st with
  | None => None
  | Some vs =>
      Some {| videos := vs; unknownCount := load_unknownCount h st;
              activeId := None; metaCache := []; storage := st;
              urlInput := EmptyString; toastText := EmptyString;
              toastClass := "toast"; toastTimer := None; pending := [];
              nextHandle := O; countBadge := EmptyString;
              clearAllShown := false; listView := Unrendered;
              xLibExposed := false; requests := []; probes := [];
              player := p |}
  end.

(** [initLibrary()]: the listeners are bound and the list is rendered. *)
Definition initLibrary (h : Host) (s : Lib) : result := render h s.

(** *** The library as a reactive system *)

Inductive Action : Type :=
| Type_url (text : string)
| Click_add (now_id now_added : Z)
| Click_delete (i : Z)
| Click_play (i : Z)
| Click_clearAll (answer : bool)
| Head_response (i : Z) (cl : option string)
| Probe_loadedmetadata (k : nat) (d : number)
| Probe_error (k : nat)
| Timer_fires (handle : nat).

(** The timer with this handle expires. *)
Definition fire (hd : nat) (s : Lib) : Lib :=
  match find (fun e => Nat.eqb (fst e) hd) (pending s) with
  | None => s
  | Some (_, (_, job)) =>
      let s := set_toast (toastText s) (toastClass s) (toastTimer s)
                 (clear_handle (Some hd) (pending s)) (nextHandle s) s in
      match job with
      | ToastHide => toast_hide s
      | ProbeCleanup k => release_probe k s
      end
  end.

Definition act (h : Host) (a : Action) (s : Lib) : Lib :=
  match a with
  | Type_url text => set_urlInput text s
  | Click_add n1 n2 => lib_of (addVideo h n1 n2 s)
  | Click_delete i => lib_of (deleteVideo h i s)
  | Click_play i => lib_of (playVideo h i s)
  | Click_clearAll answer => lib_of (clearAll h answer s)
  | Head_response i cl => head_response h i cl s
  | Probe_loadedmetadata k d => lib_of (probe_loadedmetadata h k d s)
  | Probe_error k => probe_error k s
  | Timer_fires hd => fire hd s
  end.

Definition acts (h : Host) (l : list Action) (s : Lib) : Lib :=
  fold_left (fun st a => act h a st) l s.

End Library.
(* ------------------------------------------------------------------ *)
(** ** The stats panel (player.js) *)

Module Stats.
Import JS Player.

(** [video.getVideoPlaybackQuality()] *)
Record Quality : Type := {
  totalVideoFrames : number;
  droppedVideoFrames : number
}.

(** [hlsInstance.levels?.[hlsInstance.currentLevel]], when it is an
    object; a missing codec is [None]. *)
Record Level : Type := {
  bitrate : value;
  width : value;
  height : value;
  audioCodec : option string;
  videoCodec : option string
}.

(** [hlsInstance.mainForwardBufferInfo]: the getter throws, or gives null,
    or an object whose [len] is a number or missing. *)
Inductive BufferInfo : Type :=
| InfoThrows
| InfoNull
| InfoObject (len : option number).

(** What the engine in [hlsInstance] reports. *)
Record Engine : Type := {
  level : option Level;
  bandwidthEstimate : value;
  mainForwardBufferInfo : BufferInfo
}.

(** [navigator.connection || navigator.mozConnection ||
    navigator.webkitConnection] *)
Record Connection : Type := {
  downlink : option number;
  effectiveType : option string
}.

(** What [updateStats] reads besides the module state. *)
Record Env : Type := {
  videoWidth : number;
  videoHeight : number;
  innerWidth : number;
  innerHeight : number;
  (** [None] when [video.playbackRate] is null or undefined *)
  playbackRate : option number;
  (** [None] when [video.getVideoPlaybackQuality] is not a function *)
  getVideoPlaybackQuality : option Quality;
  engine : Engine;
  connection : option Connection;
  (** [x.toFixed(n)] *)
  toFixed : number -> nat -> string;
  (** number-to-string conversion *)
  str : number -> string
}.

(** One element of [rows]; the value is kept as [String(r.v)]. *)
Inductive Row : Type :=
| Divider
| KV (k v : string).

Definition str_value (e : Env) (v : value) : string :=
  match v with
  | Num x => str e x
  | Undefined => "undefined"
  end.

Definition nonempty (s : option string) : option string :=
  match s with
  | Some x => if String.eqb x EmptyString then None else Some x
  | None => None
  end.

Definition resolution_rows (e : Env) : list Row :=
  if num_truthy (videoWidth e) && num_truthy (videoHeight e)
  then [KV "Resolution" (str e (videoWidth e) ++ " × " ++ str e (videoHeight e))]
  else [].

Definition viewport_rows (e : Env) : list Row :=
  [KV "Viewport" (str e (innerWidth e) ++ " × " ++ str e (innerHeight e))].

Definition rate_rows (e : Env) : list Row :=
  match playbackRate e with
  | Some r => [KV "Playback Rate" (str e r ++ "×")]
  | None => []
  end.

Definition time_rows (e : Env) (v : Video) : list Row :=
  match duration v with
  | Num d =>
      if num_truthy d
      then [KV "Time" (Fmt._fmt (str e) (currentTime v) ++ " / " ++
                       Fmt._fmt (str e) d)]
      else []
  | Undefined => []
  end.

Definition buffer_rows (e : Env) (v : Video) : list Row :=
  match _getBufferAhead v with
  | Some b => [KV "Buffer Health" (toFixed e b 1%nat ++ " s")]
  | None => []
  end.

Definition frame_rows (e : Env) : list Row :=
  match getVideoPlaybackQuality e with
  | Some q =>
      if gt (totalVideoFrames q) pos_zero
      then [Divider;
            KV "Total Frames" (str e (totalVideoFrames q));
            KV "Dropped Frames" (str e (droppedVideoFrames q));
            KV "Drop Rate"
               (toFixed e (mul (div (droppedVideoFrames q) (totalVideoFrames q))
                             (of_Z 100)) 2%nat ++ "%")]
      else []
  | None => []
  end.

Definition level_rows (e : Env) (l : Level) : list Row :=
  (if truthy (bitrate l)
   then [KV "Bitrate" (Fmt._kbps (str e) (toFixed e) (or_zero (bitrate l)))]
   else []) ++
  (if truthy (width l) && truthy (height l)
   then [KV "HLS Level" (str_value e (width l) ++ "×" ++ str_value e (height l))]
   else []) ++
  (match nonempty (audioCodec l) with
   | Some c => [KV "Audio Codec" c]
   | None => []
   end) ++
  (match nonempty (videoCodec l) with
   | Some c => [KV "Video Codec" c]
   | None => []
   end).

Definition engine_rows (e : Env) (g : Engine) : list Row :=
  Divider ::
  (match level g with
   | Some l => level_rows e l
   | None => []
   end) ++
  (match bandwidthEstimate g with
   | Num bw =>
       if num_truthy bw && is_finite bw
       then [KV "Est. Bandwidth" (Fmt._kbps (str e) (toFixed e) bw)]
       else []
   | Undefined => []
   end) ++
  (match mainForwardBufferInfo g with
   | InfoObject (Some len) => [KV "Frag Buffer" (toFixed e len 1%nat ++ " s")]
   | _ => []
   end).

Definition connection_rows (e : Env) : list Row :=
  match connection e with
  | Some c =>
      (match downlink c with
       | Some d => [Divider; KV "Network Downlink" (str e d ++ " Mbps")]
       | None => []
       end) ++
      (match nonempty (effectiveType c) with
       | Some t => [KV "Connection Type" t]
       | None => []
       end)
  | None => []
  end.

(** The [rows] array that [updateStats] builds. *)
Definition rows (e : Env) (s : State) : list Row :=
  [KV "Provider" "X Stream & Play"; Divider] ++
  resolution_rows e ++ viewport_rows e ++ rate_rows e ++
  time_rows e (video s) ++ buffer_rows e (video s) ++ frame_rows e ++
  (match hlsInstance s with
   | Some _ => engine_rows e (engine e)
   | None => []
   end) ++
  connection_rows e.

Definition nl : string := String "010"%char EmptyString.
Definition q : string := String Html.quot EmptyString.

(** The markup of one row. *)
Definition row_html (r : Row) : string :=
  match r with
  | Divider => "<div class=" ++ q ++ "stat-divider" ++ q ++ "></div>"
  | KV k v =>
      nl ++ "      <div class=" ++ q ++ "stat-row" ++ q ++ ">" ++
      nl ++ "        <span class=" ++ q ++ "stat-key" ++ q ++ ">" ++
      Html.escHtml k ++ "</span>" ++
      nl ++ "        <span class=" ++ q ++ "stat-val" ++ q ++ ">" ++
      Html.escHtml v ++ "</span>" ++
      nl ++ "      </div>"
  end.

(** [rows.map(...).join('')] *)
Definition markup (rs : list Row) : string :=
  String.concat EmptyString (map row_html rs).

(** [updateStats()] *)
Definition updateStats (e : Env) (s : State) : State :=
  with_ui (fun u => set_stats (statsActive u) (markup (rows e s)) u) s.

End Stats.

(* ------------------------------------------------------------------ *)
(** ** Scrubber, auto-hide and the stats timer (player.js) *)

Module Controls.
Import JS Player.

(** What a scrub handler reads: [clientX] of the event (of its first
    touch, for a touch event) and the rectangle of the progress bar. *)
Record Pointer : Type := {
  clientX : number;
  rect_left : number;
  rect_width : number
}.

Inductive WindowEvent : Type :=
| Mousemove
| Mouseup
| Touchmove
| Touchend.

Inductive ScrubHandler : Type :=
| The_scrubMove
| The_scrubEnd.

Definition WindowEvent_eqb (a b : WindowEvent) : bool :=
  match a, b with
  | Mousemove, Mousemove | Mouseup, Mouseup
  | Touchmove, Touchmove | Touchend, Touchend => true
  | _, _ => false
  end.

Definition ScrubHandler_eqb (a b : ScrubHandler) : bool :=
  match a, b with
  | The_scrubMove, The_scrubMove | The_scrubEnd, The_scrubEnd => true
  | _, _ => false
  end.

Definition listener_eqb (a b : WindowEvent * ScrubHandler) : bool :=
  WindowEvent_eqb (fst a) (fst b) && ScrubHandler_eqb (snd a) (snd b).

(** What a timer runs. *)
Inductive Job : Type :=
| HideControls
| UpdateStats.

(** A [setTimeout] or, with [repeats], a [setInterval]. *)
Record Scheduled : Type := {
  repeats : bool;
  ms : Z;
  job : Job
}.

(** The module state that player.js keeps for its controls, around the
    state of the playback core.  [scheduled] holds the timers of this part
    of the module under their identifiers, which the browser never gives
    out twice. *)
Record Panel : Type := {
  player : State;
  isDragging : bool;
  window_listeners : list (WindowEvent * ScrubHandler);
  playedBarWidth : string;
  thumbLeft : string;
  timeDisplay : string;
  controlsHidden : bool;
  hideCursor : bool;
  hideTimer : option nat;
  statsInterval : option nat;
  scheduled : list (nat * Scheduled);
  nextId : nat
}.

Inductive result : Type :=
| Returned (c : Panel)
| Threw (e : exn) (c : Panel).

Definition panel_of (r : result) : Panel :=
  match r with Returned c | Threw _ c => c end.

(** *** Field updates *)

Definition set_player (p : State) (c : Panel) : Panel :=
  {| player := p; isDragging := isDragging c;
     window_listeners := window_listeners c;
     playedBarWidth := playedBarWidth c; thumbLeft := thumbLeft c;
     timeDisplay := timeDisplay c; controlsHidden := controlsHidden c;
     hideCursor := hideCursor c; hideTimer := hideTimer c;
     statsInterval := statsInterval c; scheduled := scheduled c;
     nextId := nextId c |}.

Definition set_drag (b : bool) (l : list (WindowEvent * ScrubHandler))
           (c : Panel) : Panel :=
  {| player := player c; isDragging := b; window_listeners := l;
     playedBarWidth := playedBarWidth c; thumbLeft := thumbLeft c;
     timeDisplay := timeDisplay c; controlsHidden := controlsHidden c;
     hideCursor := hideCursor c; hideTimer := hideTimer c;
     statsInterval := statsInterval c; scheduled := scheduled c;
     nextId := nextId c |}.

Definition set_bar (w l t : string) (c : Panel) : Panel :=
  {| player := player c; isDragging := isDragging c;
     window_listeners := window_listeners c;
     playedBarWidth := w; thumbLeft := l; timeDisplay := t;
     controlsHidden := controlsHidden c; hideCursor := hideCursor c;
     hideTimer := hideTimer c; statsInterval := statsInterval c;
     scheduled := scheduled c; nextId := nextId c |}.

Definition set_hidden (hidden cursor : bool) (c : Panel) : Panel :=
  {| player := player c; isDragging := isDragging c;
     window_listeners := window_listeners c;
     playedBarWidth := playedBarWidth c; thumbLeft := thumbLeft c;
     timeDisplay := timeDisplay c; controlsHidden := hidden;
     hideCursor := cursor; hideTimer := hideTimer c;
     statsInterval := statsInterval c; scheduled := scheduled c;
     nextId := nextId c |}.

Definition set_timers (ht si : option nat) (l : list (nat * Scheduled))
           (n : nat) (c : Panel) : Panel :=
  {| player := player c; isDragging := isDragging c;
     window_listeners := window_listeners c;
     playedBarWidth := playedBarWidth c; thumbLeft := thumbLeft c;
     timeDisplay := timeDisplay c; controlsHidden := controlsHidden c;
     hideCursor := hideCursor c; hideTimer := ht; statsInterval := si;
     scheduled := l; nextId := n |}.

(** *** Timers *)

(** [clearTimeout(id)] and [clearInterval(id)]; nothing happens for
    [null] or for an identifier that is not scheduled. *)
Definition clear (id : option nat) (l : list (nat * Scheduled))
  : list (nat * Scheduled) :=
  match id with
  | None => l
  | Some n => filter (fun e => negb (Nat.eqb (fst e) n)) l
  end.

(** *** Scrubber *)

(** [window.addEventListener(ev, f)]: a listener already there is not
    added again. *)
Definition add_listener (x : WindowEvent * ScrubHandler)
           (l : list (WindowEvent * ScrubHandler))
  : list (WindowEvent * ScrubHandler) :=
  if existsb (listener_eqb x) l then l else l ++ [x].

(** [window.removeEventListener(ev, f)] *)
Definition remove_listener (x : WindowEvent * ScrubHandler)
           (l : list (WindowEvent * ScrubHandler))
  : list (WindowEvent * ScrubHandler) :=
  filter (fun y => negb (listener_eqb x y)) l.

(** [Math.max(0, Math.min(1, (clientX - rect.left) / rect.width))] *)
Definition ratio (e : Pointer) : number :=
  Math_max pos_zero
    (Math_min (of_Z 1) (div (sub (clientX e) (rect_left e)) (rect_width e))).

(** [_scrubMove(e)].  [playedBarWidth] and [thumbLeft] hold the text that
    the code assigns to [style.width] and [style.left]; that the style
    object ignores an assignment that is not a length (['NaN%'], from a bar
    of width 0) is not modelled. *)
Definition _scrubMove (env : Platform) (e : Pointer) (c : Panel) : Panel :=
  if negb (isDragging c) then c
  else
    let r := ratio e in
    let pct := (Number_toString env (mul r (of_Z 100)) ++ "%")%string in
    let v := video (player c) in
    let t := match duration v with
             | Num d =>
                 if num_truthy d
                 then (Fmt._fmt (Number_toString env) (mul r d) ++ " / " ++
                       Fmt._fmt (Number_toString env) d)%string
                 else timeDisplay c
             | Undefined => timeDisplay c
             end in
    set_bar pct pct t c.

(** [_scrubStart(e)] *)
Definition _scrubStart (env : Platform) (e : Pointer) (c : Panel) : Panel :=
  let c := set_drag true (window_listeners c) c in
  let c := _scrubMove env e c in
  let l := window_listeners c in
  let l := add_listener (Mousemove, The_scrubMove) l in
  let l := add_listener (Mouseup, The_scrubEnd) l in
  let l := add_listener (Touchmove, The_scrubMove) l in
  let l := add_listener (Touchend, The_scrubEnd) l in
  set_drag (isDragging c) l c.

(** [_scrubEnd(e)]; assigning a non-finite number to [currentTime]
    throws. *)
Definition _scrubEnd (e : Pointer) (c : Panel) : result :=
  if negb (isDragging c) then Returned c
  else
    let l := window_listeners c in
    let l := remove_listener (Mousemove, The_scrubMove) l in
    let l := remove_listener (Mouseup, The_scrubEnd) l in
    let l := remove_listener (Touchmove, The_scrubMove) l in
    let l := remove_listener (Touchend, The_scrubEnd) l in
    let c := set_drag false l c in
    let r := ratio e in
    match duration (video (player c)) with
    | Num d =>
        if num_truthy d then
          let t := mul r d in
          if is_finite t
          then Returned (set_player (with_video (set_currentTime t) (player c)) c)
          else Threw (TypeError "currentTime is non-finite") c
        else Returned c
    | Undefined => Returned c
    end.

(** [_onTimeUpdate()] *)
Definition _onTimeUpdate (env : Platform) (c : Panel) : Panel :=
  let v := video (player c) in
  match duration v with
  | Num d =>
      if isDragging c || negb (num_truthy d) then c
      else
        let pct := (Number_toString env
                      (mul (div (currentTime v) d) (of_Z 100)) ++ "%")%string in
        set_bar pct pct
          (Fmt._fmt (Number_toString env) (currentTime v) ++ " / " ++
           Fmt._fmt (Number_toString env) d)%string c
  | Undefined => c
  end.

(** A window event reaches the handlers that are registered for it, in the
    order of their registration. *)
Definition run_handler (env : Platform) (hd : ScrubHandler) (e : Pointer)
           (r : result) : result :=
  match r with
  | Threw x c => Threw x c
  | Returned c =>
      match hd with
      | The_scrubMove => Returned (_scrubMove env e c)
      | The_scrubEnd => _scrubEnd e c
      end
  end.

Definition window_event (env : Platform) (ev : WindowEvent) (e : Pointer)
           (c : Panel) : Panel :=
  fold_left
    (fun c x =>
       if WindowEvent_eqb (fst x) ev
       then panel_of (run_handler env (snd x) e (Returned c))
       else c)
    (window_listeners c) c.

(** *** Auto-hide *)

(** [revealControls()] *)
Definition revealControls (c : Panel) : Panel :=
  let c := set_hidden false false c in
  let l := clear (hideTimer c) (scheduled c) in
  if negb (paused (video (player c)))
  then
    let n := nextId c in
    set_timers (Some n) (statsInterval c)
      (l ++ [(n, {| repeats := false; ms := 3000; job := HideControls |})])
      (S n) c
  else set_timers (hideTimer c) (statsInterval c) l (nextId c) c.

(** The listener of 'mouseleave' on the container. *)
Definition container_mouseleave (c : Panel) : Panel :=
  if negb (paused (video (player c)))
  then set_hidden true (hideCursor c) c
  else c.

(** The listener of 'mouseenter' on the controls. *)
Definition controls_mouseenter (c : Panel) : Panel :=
  set_timers (hideTimer c) (statsInterval c)
    (clear (hideTimer c) (scheduled c)) (nextId c) c.

(** The callback of the hide timer. *)
Definition hide_callback (c : Panel) : Panel := set_hidden true true c.

(** *** Stats panel *)

Definition updateStats (se : Stats.Env) (c : Panel) : Panel :=
  set_player (Stats.updateStats se (player c)) c.

(** [closeStats()] *)
Definition closeStats (c : Panel) : Panel :=
  let c := set_player (Player.closeStats (player c)) c in
  set_timers (hideTimer c) None (clear (statsInterval c) (scheduled c))
    (nextId c) c.

(** [openStats()] *)
Definition openStats (se : Stats.Env) (c : Panel) : Panel :=
  let c := set_player
             (with_ui (fun u => set_stats true (statsBody u) u) (player c)) c in
  let c := updateStats se c in
  let n := nextId c in
  set_timers (hideTimer c) (Some n)
    (scheduled c ++ [(n, {| repeats := true; ms := 1000; job := UpdateStats |})])
    (S n) c.

(** [toggleStats()] *)
Definition toggleStats (se : Stats.Env) (c : Panel) : Panel :=
  if statsActive (ui (player c)) then closeStats c else openStats se c.

(** [clearStats()] *)
Definition clearStats (c : Panel) : Panel :=
  let c := closeStats c in
  set_player (with_ui (set_stats (statsActive (ui (player c))) EmptyString)
                (player c)) c.

(** [loadVideo(url, title)] with the timer that its [clearStats] stops. *)
Definition loadVideo (env : Platform) (url title : string) (c : Panel) : result :=
  let c := clearStats c in
  match Player.loadVideo env url title (player c) with
  | Done p => Returned (set_player p c)
  | Raised e p => Threw e (set_player p c)
  end.

(** *** The controls as a reactive system *)

Inductive Input : Type :=
(** 'mousedown' or 'touchstart' on the progress bar *)
| Bar_down (e : Pointer)
| Window_event (ev : WindowEvent) (e : Pointer)
| Time_update
(** 'mousemove' or 'touchstart' on the container *)
| Container_move
| Container_leave
| Controls_enter
| Controls_leave
| Stats_toggle
| Stats_close
(** the timer with this identifier is due *)
| Due (id : nat)
(** anything of the playback core: an event of the element or of the
    engine, a seek, a change of the element's properties *)
| Core (i : Player.Input).

(** A timeout runs once, an interval stays. *)
Definition due (se : Stats.Env) (id : nat) (c : Panel) : Panel :=
  match find (fun e => Nat.eqb (fst e) id) (scheduled c) with
  | None => c
  | Some (_, t) =>
      let c := if repeats t then c
               else set_timers (hideTimer c) (statsInterval c)
                      (clear (Some id) (scheduled c)) (nextId c) c in
      match job t with
      | HideControls => hide_callback c
      | UpdateStats => updateStats se c
      end
  end.

Definition step (env : Platform) (se : Stats.Env) (i : Input) (c : Panel) : Panel :=
  match i with
  | Bar_down e => _scrubStart env e c
  | Window_event ev e => window_event env ev e c
  | Time_update => _onTimeUpdate env c
  | Container_move => revealControls c
  | Container_leave => container_mouseleave c
  | Controls_enter => controls_mouseenter c
  | Controls_leave => revealControls c
  | Stats_toggle => toggleStats se c
  | Stats_close => closeStats c
  | Due id => due se id c
  | Core (ILoadVideo url title) => panel_of (loadVideo env url title c)
  | Core i => set_player (Player.step env i (player c)) c
  end.

Definition run (env : Platform) (se : Stats.Env) (l : list Input) (c : Panel)
  : Panel :=
  fold_left (fun c i => step env se i c) l c.

(** The state once [initPlayer] has run. *)
Definition init : Panel :=
  {| player := Player.init; isDragging := false; window_listeners := [];
     playedBarWidth := EmptyString; thumbLeft := EmptyString;
     timeDisplay := EmptyString; controlsHidden := false;
     hideCursor := false; hideTimer := None; statsInterval := None;
     scheduled := []; nextId := O |}.

End Controls.

(** *** HTML escaping *)

(** The characters that [escHtml] rewrites. *)
Definition is_special (c : ascii) : bool :=
  Ascii.eqb c "&" || Ascii.eqb c "<" || Ascii.eqb c ">" || Ascii.eqb c Html.quot.

(** What one character becomes. *)
Definition esc_char (c : ascii) : string :=
  if Ascii.eqb c "&" then "&amp;"
  else if Ascii.eqb c "<" then "&lt;"
  else if Ascii.eqb c ">" then "&gt;"
  else if Ascii.eqb c Html.quot then "&quot;"
  else String c EmptyString.

Definition entities : list string := ["&amp;"; "&lt;"; "&gt;"; "&quot;"]%string.

(** Escaped text: plain characters and entities, nothing else. *)
Inductive escaped : string -> Prop :=
| esc_nil : escaped EmptyString
| esc_plain (c : ascii) (s : string) :
    is_special c = false -> escaped s -> escaped (String c s)
| esc_entity (e s : string) :
    In e entities -> escaped s -> escaped (e ++ s)%string.

(** *** Theme *)

(** The theme is one of the two that the toggle writes, and the storage
    holds it. *)
Definition theme_settled (q : Theme.Page) (t : string) : Prop :=
  (t = "dark"%string \/ t = "light"%string) /\
  Theme.data_theme q = Some t /\
  Store.getItem "xstream_theme" (Theme.store q) = Some t.

(** *** Library *)

(** [s'] has the list, the counter, the selection, the storage, the input
    field and the player of [s]. *)
Definition same_core (s s' : Library.Lib) : Prop :=
  Library.videos s' = Library.videos s /\
  Library.unknownCount s' = Library.unknownCount s /\
  Library.activeId s' = Library.activeId s /\
  Library.storage s' = Library.storage s /\
  Library.urlInput s' = Library.urlInput s /\
  Library.player s' = Library.player s.

(** The list on screen shows the entries of the library, in order, each
    title and format escaped. *)
Definition view_shows (s : Library.Lib) : Prop :=
  match Library.videos s with
  | [] => Library.listView s = Library.EmptyState
  | vs =>
      exists cs,
        Library.listView s = Library.Cards cs /\
        map Library.card_id cs = map Store.id vs /\
        map Library.card_title cs
        = map (fun v => Html.escHtml (Store.title v)) vs
  end.

(** The storage holds the list as it is now. *)
Definition saved (h : Library.Host) (s : Library.Lib) : Prop :=
  Library.load_videos h (Library.storage s) = Some (Library.videos s).

(** A host to run the library on. *)
Definition sample_trim (s : string) : string :=
  let fix drop (x : string) : string :=
    match x with
    | String " " x' => drop x'
    | _ => x
    end in
  let fix rev (x acc : string) : string :=
    match x with
    | EmptyString => acc
    | String c x' => rev x' (String c acc)
    end in
  rev (drop (rev (drop s) EmptyString)) EmptyString.

(** The last segment of the path without its extension, for URLs that
    have one. *)
Definition sample_title (u : string) : option string :=
  match sample_pathname u with
  | None => None
  | Some p =>
      match JS.pop (JS.split "/" p) with
      | Some seg =>
          match JS.split "." seg with
          | name :: _ :: _ => Some name
          | _ => None
          end
      | None => None
      end
  end.

(** Upper case for the ASCII letters. *)
Fixpoint sample_upper (s : string) : string :=
  match s with
  | EmptyString => EmptyString
  | String c s' =>
      let n := nat_of_ascii c in
      String (if ((97 <=? n) && (n <=? 122))%nat
              then ascii_of_nat (n - 32) else c)
             (sample_upper s')
  end.

Definition sample_host : Library.Host :=
  {| Library.platform := sample_platform;
     Library.Number_toFixed := fun x _ => sample_toString x;
     Library.String_trim := sample_trim;
     Library.parseInt10 := fun _ => JS.pos_zero;
     Library.JSON_parse_videos := fun _ => None;
     Library.extractTitle := sample_title;
     Library.String_toUpperCase := sample_upper;
     Library.Object_toString := "function Object() { [native code] }";
     Library.Object_prototype_toString := "[object Object]" |}.

(** The module evaluated on an empty storage, beside a player that has
    just been set up. *)
Definition empty_library : Library.Lib :=
  {| Library.videos := []; Library.unknownCount := JS.pos_zero;
     Library.activeId := None; Library.metaCache := [];
     Library.storage := []; Library.urlInput := EmptyString;
     Library.toastText := EmptyString; Library.toastClass := "toast";
     Library.toastTimer := None; Library.pending := [];
     Library.nextHandle := O; Library.countBadge := EmptyString;
     Library.clearAllShown := false; Library.listView := Library.Unrendered;
     Library.xLibExposed := false; Library.requests := [];
     Library.probes := []; Library.player := init |}.

Definition fresh_library : Library.Lib :=
  Library.lib_of (Library.initLibrary sample_host empty_library).

(** Three entries: a file, a stream, and a URL without a usable name. *)
Definition three_videos : Library.Lib :=
  Library.acts sample_host
    [Library.Type_url " https://example.com/media/intro.mp4 ";
     Library.Click_add 1000 1000;
     Library.Type_url "https://example.com/live/index.m3u8";
     Library.Click_add 2000 2001;
     Library.Type_url "https://example.com/x";
     Library.Click_add 3000 3000]
    fresh_library.

(** The title that [addVideo] gives to the URL [u]: the extracted one if
    it has two code units or more, else the next 'Untitled Stream'. *)
Definition untitled (h : Library.Host) (s : Library.Lib) : string :=
  ("Untitled Stream " ++
   Library.str h (JS.add (Library.unknownCount s) (JS.of_Z 1)))%string.

Definition new_title (h : Library.Host) (s : Library.Lib) (u : string) : string :=
  match Library.extractTitle h u with
  | Some x => if (Fmt.utf16_length x <? 2)%nat then untitled h s else x
  | None => untitled h s
  end.

(** [addVideo] takes the trimmed input: it is not empty and no entry has
    it. *)
Definition accepts (h : Library.Host) (s : Library.Lib) : bool :=
  let u := Library.String_trim h (Library.urlInput s) in
  negb (String.eqb u EmptyString) &&
  negb (existsb (fun v => String.eqb (Store.url v) u) (Library.videos s)).

(** [s'] shows what [s] shows: list, badge, clear button and toast. *)
Definition same_view (s s' : Library.Lib) : Prop :=
  Library.listView s' = Library.listView s /\
  Library.countBadge s' = Library.countBadge s /\
  Library.clearAllShown s' = Library.clearAllShown s /\
  Library.toastText s' = Library.toastText s /\
  Library.toastClass s' = Library.toastClass s /\
  Library.toastTimer s' = Library.toastTimer s.

(** The entry [i] is the one being played. *)
Definition is_active (i : Z) (s : Library.Lib) : bool :=
  match Library.activeId s with
  | Some a => (a =? i)%Z
  | None => false
  end.

(** The player as [deleteVideo] and [clearAll] leave it: out of sight,
    its source the empty string. *)
Definition put_away (p : State) : State :=
  with_ui (Library.set_playerVisible false)
    (with_video (set_src (Some EmptyString)) p).

(** No entry has the identifier [i]. *)
Definition unknown_id (i : Z) (s : Library.Lib) : Prop :=
  forall v, In v (Library.videos s) -> Store.id v <> i.

(** The cards on screen that are marked active. *)
Definition highlighted (s : Library.Lib) : list Z :=
  match Library.listView s with
  | Library.Cards cs =>
      map Library.card_id (filter Library.card_active cs)
  | _ => []
  end.

(** The pending timers that hide the toast. *)
Definition is_hide (e : nat * (Z * Library.LibTimer)) : bool :=
  match snd (snd e) with
  | Library.ToastHide => true
  | _ => false
  end.

Definition hide_timers (s : Library.Lib) : list (nat * (Z * Library.LibTimer)) :=
  filter is_hide (Library.pending s).

(** Handles are given out once, and a pending toast timer is the one the
    toast element remembers. *)
Definition handles_ok (s : Library.Lib) : Prop :=
  NoDup (map fst (Library.pending s)) /\
  (forall e, In e (Library.pending s) -> (fst e < Library.nextHandle s)%nat) /\
  (forall e, In e (hide_timers s) -> Library.toastTimer s = Some (fst e)).

(** [s'] has the timers of [s]. *)
Definition same_timers (s s' : Library.Lib) : Prop :=
  Library.pending s' = Library.pending s /\
  Library.nextHandle s' = Library.nextHandle s /\
  Library.toastTimer s' = Library.toastTimer s.

(** [s'] has the toast and the toast timers of [s], and its handles are
    in order if those of [s] are. *)
Definition keeps (s s' : Library.Lib) : Prop :=
  Library.toastTimer s' = Library.toastTimer s /\
  hide_timers s' = hide_timers s /\
  Library.toastText s' = Library.toastText s /\
  Library.toastClass s' = Library.toastClass s /\
  (handles_ok s -> handles_ok s').

(** The requests and probes that [s'] has and [s] had not. *)
Definition new_requests (s s' : Library.Lib) : list Library.Request :=
  skipn (List.length (Library.requests s)) (Library.requests s').

Definition new_probes (s s' : Library.Lib) : list Library.Probe :=
  skipn (List.length (Library.probes s)) (Library.probes s').

(** The probe [k] is still in the document. *)
Definition attached (k : nat) (s : Library.Lib) : Prop :=
  exists p, nth_error (Library.probes s) k = Some p /\
            Library.p_attached p = true.

(** The probe [k] has been taken out: no source, not in the document. *)
Definition released (k : nat) (s : Library.Lib) : Prop :=
  exists p, nth_error (Library.probes s) k = Some p /\
            Library.p_attached p = false /\ Library.p_src p = EmptyString.

(** Handles are in order, the handle that the toast remembers was never
    given to another kind of timer, and every probe in the document has
    its clean-up timer pending. *)
Definition tidy (s : Library.Lib) : Prop :=
  handles_ok s /\
  (forall t, Library.toastTimer s = Some t ->
             (t < Library.nextHandle s)%nat /\
             forall e, In e (Library.pending s) -> fst e = t ->
                       is_hide e = true) /\
  (forall k, attached k s ->
             exists hd, In (hd, (15000, Library.ProbeCleanup k))
                          (Library.pending s)).

(** [s'] has the timers and the probes of [s]. *)
Definition same_async (s s' : Library.Lib) : Prop :=
  same_timers s s' /\ Library.probes s' = Library.probes s.

(** *** Controls *)

(** The listeners that a drag keeps on the window. *)
Definition drag_listeners : list (Controls.WindowEvent * Controls.ScrubHandler) :=
  [(Controls.Mousemove, Controls.The_scrubMove);
   (Controls.Mouseup, Controls.The_scrubEnd);
   (Controls.Touchmove, Controls.The_scrubMove);
   (Controls.Touchend, Controls.The_scrubEnd)].

(** The window carries the scrub listeners during a drag and at no other
    time. *)
Definition drag_ok (c : Controls.Panel) : Prop :=
  Controls.window_listeners c
  = if Controls.isDragging c then drag_listeners else [].

(** [c'] is in the drag that [c] is in, with its listeners. *)
Definition same_drag (c c' : Controls.Panel) : Prop :=
  Controls.isDragging c' = Controls.isDragging c /\
  Controls.window_listeners c' = Controls.window_listeners c.

(** What the scrubber shows. *)
Definition bar_of (c : Controls.Panel) : string * string * string :=
  (Controls.playedBarWidth c, Controls.thumbLeft c, Controls.timeDisplay c).

(** [r] is a ratio: NaN, or a number from 0 to 1. *)
Definition is_ratio (r : JS.number) : Prop :=
  r = JS.NaN \/
  (JS.is_finite r = true /\ JS.le JS.pos_zero r = true /\
   JS.le r (JS.of_Z 1) = true).

Definition hide_timeout : Controls.Scheduled :=
  {| Controls.repeats := false; Controls.ms := 3000;
     Controls.job := Controls.HideControls |}.

Definition stats_interval : Controls.Scheduled :=
  {| Controls.repeats := true; Controls.ms := 1000;
     Controls.job := Controls.UpdateStats |}.

Definition is_hide_job (e : nat * Controls.Scheduled) : bool :=
  match Controls.job (snd e) with
  | Controls.HideControls => true
  | Controls.UpdateStats => false
  end.

(** The scheduled timers that hide the controls, and those that refresh
    the stats. *)
Definition hide_jobs (c : Controls.Panel) : list (nat * Controls.Scheduled) :=
  filter is_hide_job (Controls.scheduled c).

Definition stats_jobs (c : Controls.Panel) : list (nat * Controls.Scheduled) :=
  filter (fun e => negb (is_hide_job e)) (Controls.scheduled c).

Definition stats_open (c : Controls.Panel) : bool :=
  statsActive (ui (Controls.player c)).

(** Identifiers are given out once; a scheduled hide timer is the 3 s
    timeout that [hideTimer] names, and [hideTimer] never names another
    kind of timer; the stats refresh is scheduled, every second and under
    the identifier in [statsInterval], exactly while the panel is open. *)
Definition timers_in_order (c : Controls.Panel) : Prop :=
  NoDup (map fst (Controls.scheduled c)) /\
  (forall e, In e (Controls.scheduled c) -> (fst e < Controls.nextId c)%nat) /\
  (forall e, In e (hide_jobs c) ->
             Controls.hideTimer c = Some (fst e) /\ snd e = hide_timeout) /\
  (forall t, Controls.hideTimer c = Some t ->
             (t < Controls.nextId c)%nat /\
             forall e, In e (Controls.scheduled c) -> fst e = t ->
                       is_hide_job e = true) /\
  (if stats_open c
   then exists n, Controls.statsInterval c = Some n /\
                  stats_jobs c = [(n, stats_interval)]
   else Controls.statsInterval c = None /\ stats_jobs c = []).

(** [c'] has the timers of [c], and its stats panel is open if that of
    [c] is. *)
Definition same_sched (c c' : Controls.Panel) : Prop :=
  Controls.scheduled c' = Controls.scheduled c /\
  Controls.nextId c' = Controls.nextId c /\
  Controls.hideTimer c' = Controls.hideTimer c /\
  Controls.statsInterval c' = Controls.statsInterval c /\
  stats_open c' = stats_open c.

(** Readings for the stats panel: a 1280 by 720 picture at normal speed,
    an engine at its level 0, no connection information. *)
Definition sample_stats : Stats.Env :=
  {| Stats.videoWidth := JS.of_Z 1280; Stats.videoHeight := JS.of_Z 720;
     Stats.innerWidth := JS.of_Z 1440; Stats.innerHeight := JS.of_Z 900;
     Stats.playbackRate := Some (JS.of_Z 1);
     Stats.getVideoPlaybackQuality :=
       Some {| Stats.totalVideoFrames := JS.of_Z 3000;
               Stats.droppedVideoFrames := JS.of_Z 3 |};
     Stats.engine :=
       {| Stats.level :=
            Some {| Stats.bitrate := JS.Num (JS.of_Z 2500000);
                    Stats.width := JS.Num (JS.of_Z 1280);
                    Stats.height := JS.Num (JS.of_Z 720);
                    Stats.audioCodec := Some "mp4a.40.2";
                    Stats.videoCodec := Some "avc1.64001f" |};
          Stats.bandwidthEstimate := JS.Num (JS.of_Z 5000000);
          Stats.mainForwardBufferInfo := Stats.InfoObject (Some (JS.of_Z 12)) |};
     Stats.connection := None;
     Stats.toFixed := fun x _ => sample_toString x;
     Stats.str := sample_toString |}.

(** The pointer a quarter of the way along a bar 200 wide. *)
Definition sample_pointer : Controls.Pointer :=
  {| Controls.clientX := JS.of_Z 150; Controls.rect_left := JS.of_Z 100;
     Controls.rect_width := JS.of_Z 200 |}.

(** A panel in the middle of a drag, the video two minutes long. *)
Definition dragging_panel : Controls.Panel :=
  Controls.run sample_platform sample_stats
    [Controls.Core (IVideoChange (video_at JS.pos_zero (JS.Num (JS.of_Z 120))));
     Controls.Bar_down sample_pointer]
    Controls.init.

(** The keys of the rows that come from the engine, and the key of the
    row on time. *)
Definition engine_keys : list string :=
  ["Bitrate"; "HLS Level"; "Audio Codec"; "Video Codec"; "Est. Bandwidth";
   "Frag Buffer"]%string.

Definition has_key (k : string) (rs : list Stats.Row) : bool :=
  existsb (fun r => match r with
                    | Stats.KV k' _ => String.eqb k' k
                    | Stats.Divider => false
                    end) rs.

(** *** Formatting *)

(** How often the character [c] occurs in [s]. *)
Fixpoint count_char (c : ascii) (s : string) : nat :=
  match s with
  | EmptyString => O
  | String a s' => ((if Ascii.eqb a c then 1 else 0) + count_char c s')%nat
  end.

(** The tags of the stats markup: two for a divider, six for a row. *)
Fixpoint tags (rs : list Stats.Row) : nat :=
  match rs with
  | [] => O
  | Stats.Divider :: rest => (2 + tags rest)%nat
  | Stats.KV _ _ :: rest => (6 + tags rest)%nat
  end.

(** The same number, bit for bit. *)
Definition same_float (x y : JS.number) : bool :=
  match x, y with
  | S754_zero a, S754_zero b => Bool.eqb a b
  | S754_infinity a, S754_infinity b => Bool.eqb a b
  | S754_nan, S754_nan => true
  | S754_finite a m e, S754_finite b n f =>
      Bool.eqb a b && Pos.eqb m n && Z.eqb e f
  | _, _ => false
  end.

(** For [n] whole seconds, the hours, minutes and seconds that [_fmt]
    computes in floating point are those of integer division. *)
Definition clock_parts_ok (n : Z) : bool :=
  let x := JS.of_Z n in
  JS.is_finite x &&
  same_float (Fmt.Math_floor (JS.div x (JS.of_Z 3600))) (JS.of_Z (n / 3600)) &&
  same_float (Fmt.Math_floor (JS.div (Fmt.rem x (JS.of_Z 3600)) (JS.of_Z 60)))
             (JS.of_Z (n mod 3600 / 60)) &&
  same_float (Fmt.Math_floor (Fmt.rem x (JS.of_Z 60))) (JS.of_Z (n mod 60)) &&
  Bool.eqb (JS.gt (JS.of_Z (n / 3600)) JS.pos_zero) (3600 <=? n).

Fixpoint all_below (f : Z -> bool) (k : nat) : bool :=
  match k with
  | O => true
  | S j => f (Z.of_nat j) && all_below f j
  end.

(** [n] seconds on the clock: m:ss below an hour, h:mm:ss from there. *)
Definition clock (str : JS.number -> string) (n : Z) : string :=
  let two x := Fmt.padStart2 (str (JS.of_Z x)) in
  if 3600 <=? n
  then (str (JS.of_Z (n / 3600)) ++ ":" ++ two (n mod 3600 / 60) ++ ":" ++
        two (n mod 60))%string
  else (str (JS.of_Z (n mod 3600 / 60)) ++ ":" ++ two (n mod 60))%string.

(** Two hours, in seconds. *)
Definition two_hours : nat := Z.to_nat 7200.

(* ------------------------------------------------------------------ *)
(** ** Facts about numbers *)

Section Rounding.

(** Rounding a non-negative mantissa never yields NaN. *)

Lemma shr_1_nonneg mrs : 0 <= shr_m mrs -> 0 <= shr_m (shr_1 mrs).
Proof.
  destruct mrs as [m r s]; simpl.
  destruct m as [|p|p]; simpl; try lia; destruct p; simpl; lia.
Qed.

Lemma iter_shr_1_nonneg p : forall mrs,
    0 <= shr_m mrs -> 0 <= shr_m (iter_pos shr_1 p mrs).
Proof.
  induction p; intros mrs H; simpl; auto using shr_1_nonneg.
Qed.

Lemma shr_nonneg mrs e n : 0 <= shr_m mrs -> 0 <= shr_m (fst (shr mrs e n)).
Proof.
  intros H. destruct n; simpl; auto using iter_shr_1_nonneg.
Qed.

Lemma shr_fexp_nonneg m e l :
  0 <= m -> 0 <= shr_m (fst (shr_fexp prec emax m e l)).
Proof.
  intros H. unfold shr_fexp. apply shr_nonneg.
  destruct l as [|[]]; simpl; assumption.
Qed.

Lemma round_nearest_even_nonneg m l : 0 <= m -> 0 <= round_nearest_even m l.
Proof.
  intros H. destruct l as [|[]]; simpl; try lia.
  destruct (Z.even m); lia.
Qed.

Lemma binary_round_aux_not_nan sx mx ex lx :
  0 <= mx -> binary_round_aux prec emax sx mx ex lx <> S754_nan.
Proof.
  intros H. unfold binary_round_aux.
  pose proof (shr_fexp_nonneg mx ex lx H) as H1.
  destruct (shr_fexp prec emax mx ex lx) as [mrs' e'] eqn:E1. simpl in H1.
  pose proof (shr_fexp_nonneg
                (round_nearest_even (shr_m mrs') (loc_of_shr_record mrs'))
                e' loc_Exact (round_nearest_even_nonneg _ _ H1)) as H2.
  destruct (shr_fexp prec emax _ e' loc_Exact) as [mrs'' e''] eqn:E2.
  simpl in H2.
  destruct (shr_m mrs''); try lia; try discriminate.
  destruct (e'' <=? emax - prec); discriminate.
Qed.

Lemma binary_normalize_not_nan m e sz :
  binary_normalize prec emax m e sz <> S754_nan.
Proof.
  destruct m; simpl; try discriminate;
    unfold binary_round;
    destruct (shl_align _ _ _) as [mz ez];
    apply binary_round_aux_not_nan; lia.
Qed.

(** A finite number plus anything but NaN is not NaN. *)
Lemma add_not_nan x y :
  is_finite x = true -> is_nan y = false -> is_nan (add x y) = false.
Proof.
  intros Hx Hy.
  destruct x as [sx|sx| |sx mx ex], y as [sy|sy| |sy my ey];
    try discriminate; simpl; try reflexivity.
  - destruct sx, sy; reflexivity.
  - pose proof (binary_normalize_not_nan
        (cond_Zopp sx (Z.pos (fst (shl_align mx ex (Z.min ex ey)))) +
         cond_Zopp sy (Z.pos (fst (shl_align my ey (Z.min ex ey)))))
        (Z.min ex ey) false) as H.
    unfold add, SFadd.
    destruct (binary_normalize _ _ _ _ _); try reflexivity. congruence.
Qed.

End Rounding.

Section Order.

Lemma SFcompare_swap x y :
  SFcompare y x = option_map CompOpp (SFcompare x y).
Proof.
  destruct x as [sx|sx| |sx mx ex], y as [sy|sy| |sy my ey]; simpl;
    try reflexivity;
    try (destruct sx; reflexivity);
    try (destruct sy; reflexivity);
    try (destruct sx, sy; reflexivity).
  destruct sx, sy; simpl; try reflexivity;
    rewrite (Z.compare_antisym ey ex);
    destruct (ey ?= ex); simpl; try reflexivity;
    rewrite ?(Pos.compare_cont_antisym mx my Eq); simpl; reflexivity.
Qed.

Lemma SFcompare_refl x : is_nan x = false -> SFcompare x x = Some Eq.
Proof.
  destruct x as [s|s| |s m e]; simpl; intros H; try discriminate;
    try reflexivity; destruct s; try reflexivity;
    rewrite Z.compare_refl, Pos.compare_cont_refl; reflexivity.
Qed.

Lemma le_trans x y z : le x y = true -> le y z = true -> le x z = true.
Proof.
  unfold le, SFleb.
  destruct x as [sx|sx| |sx mx ex], y as [sy|sy| |sy my ey],
           z as [sz|sz| |sz mz ez]; simpl;
    try destruct sx; try destruct sy; try destruct sz; simpl;
    try (intros; reflexivity); try (intros; discriminate).
  all: change (Pos.compare_cont Eq) with Pos.compare.
  all: destruct (Z.compare_spec ex ey), (Z.compare_spec ey ez),
         (Z.compare_spec ex ez); subst; try lia;
       try (intros; reflexivity); try (intros; discriminate).
  all: destruct (Pos.compare_spec mx my), (Pos.compare_spec my mz),
         (Pos.compare_spec mx mz); subst; try lia;
       simpl; try (intros; reflexivity); try (intros; discriminate).
Qed.

Lemma lt_le x y : lt x y = true -> le x y = true.
Proof.
  unfold lt, le, SFltb, SFleb.
  destruct (SFcompare x y) as [[| |]|]; intros; try discriminate; reflexivity.
Qed.

(** [x <= y] splits into [x < y] and [y <= x] (numerically equal). *)
Lemma le_cases x y : le x y = true -> lt x y = true \/ le y x = true.
Proof.
  unfold lt, le, SFltb, SFleb. rewrite (SFcompare_swap x y).
  destruct (SFcompare x y) as [[| |]|]; simpl; intros; try discriminate; auto.
Qed.

(** Clamping through [Math.min] then [Math.max]. *)
Lemma clamp_cases (s D : number) :
  is_finite D = true -> lt pos_zero D = true -> is_nan s = false ->
  let t := Math_max pos_zero (Math_min D s) in
  clamp_spec s D t /\
  is_finite t = true /\ le pos_zero t = true /\ le t D = true /\
  lt s pos_zero || (le pos_zero s && le s D) || lt D s = true.
Proof.
  intros HD HposD Hs t.
  destruct D as [sD|sD| |sD mD eD]; try discriminate.
  destruct sD; try discriminate.
  assert (HDD : SFcompare (S754_finite false mD eD) (S754_finite false mD eD)
                = Some Eq)
    by (apply SFcompare_refl; reflexivity).
  destruct s as [ss|ss| |ss ms es]; try discriminate.
  - subst t; unfold clamp_spec, lt, le, SFltb, SFleb; simpl.
    destruct ss; simpl; repeat split; intros; try reflexivity; try discriminate;
      auto.
  - subst t; unfold clamp_spec, lt, le, SFltb, SFleb.
    destruct ss; cbn [Math_min Math_max SFcompare pos_zero is_finite];
      repeat split; intros; try reflexivity; try discriminate;
      rewrite Z.compare_refl, Pos.compare_cont_refl; reflexivity.
  - destruct ss.
    + subst t; unfold clamp_spec, lt, le, SFltb, SFleb; simpl.
      repeat split; intros; try reflexivity; try discriminate.
    + set (sv := S754_finite false ms es) in *.
      set (Dv := S754_finite false mD eD) in *.
      pose proof (SFcompare_swap Dv sv) as Hsw.
      assert (Hs0 : SFcompare sv pos_zero = Some Gt) by reflexivity.
      assert (H0s : SFcompare pos_zero sv = Some Lt) by reflexivity.
      assert (H0D : SFcompare pos_zero Dv = Some Lt) by reflexivity.
      assert (Hfs : is_finite sv = true) by reflexivity.
      assert (HfD : is_finite Dv = true) by reflexivity.
      assert (Hmin : Math_min Dv sv =
                     match SFcompare Dv sv with
                     | Some Lt => Dv | Some _ => sv | None => NaN end)
        by (unfold Math_min; destruct (SFcompare Dv sv) as [[]|]; reflexivity).
      assert (Hmaxs : Math_max pos_zero sv = sv) by reflexivity.
      assert (HmaxD : Math_max pos_zero Dv = Dv) by reflexivity.
      assert (Hcmp : SFcompare Dv sv <> None) by (simpl; discriminate).
      clearbody sv Dv.
      subst t; unfold clamp_spec, lt, le, SFltb, SFleb.
      rewrite Hmin.
      destruct (SFcompare Dv sv) as [[| |]|] eqn:E; simpl in Hsw;
        rewrite ?Hmaxs, ?HmaxD, ?H0s, ?H0D, ?Hsw, ?HDD, ?Hs0, ?E, ?Hfs, ?HfD;
        repeat split; intros; try reflexivity; try discriminate;
        auto; congruence.
Qed.

(** With no usable duration the clamp collapses to zero. *)
Lemma clamp_to_zero (s : number) :
  is_nan s = false -> Math_max pos_zero (Math_min pos_zero s) = pos_zero.
Proof.
  destruct s as [ss|ss| |ss ms es]; intros H; try discriminate;
    destruct ss; reflexivity.
Qed.

End Order.

(* ------------------------------------------------------------------ *)
(** ** Facts about strings *)

Section Strings.

Lemma prefix_app (s q : string) : String.prefix s (s ++ q)%string = true.
Proof.
  induction s as [|a s IH]; simpl; [destruct q; reflexivity|].
  destruct (ascii_dec a a); [exact IH | congruence].
Qed.

Lemma includes_unfold (sub s : string) :
  includes sub s =
  if String.prefix sub s then true
  else match s with
       | EmptyString => false
       | String _ s' => includes sub s'
       end.
Proof. destruct s; reflexivity. Qed.

Lemma includes_app (sub p q : string) :
  includes sub (p ++ sub ++ q)%string = true.
Proof.
  induction p as [|a p IH].
  - cbn [String.append]. rewrite includes_unfold, prefix_app. reflexivity.
  - rewrite includes_unfold. cbn [String.append].
    destruct (String.prefix sub (String a (p ++ sub ++ q))); [reflexivity|].
    exact IH.
Qed.

Lemma includes_suffix (sub p : string) : includes sub (p ++ sub)%string = true.
Proof.
  pose proof (includes_app sub p EmptyString) as H.
  replace (sub ++ EmptyString)%string with sub in H; [exact H|].
  clear. induction sub; simpl; congruence.
Qed.

Lemma split_not_nil (c : ascii) (s : string) : split c s <> [].
Proof.
  destruct s as [|a s]; simpl; [discriminate|].
  destruct (Ascii.eqb a c); [discriminate|].
  destruct (split c s); discriminate.
Qed.

Lemma pop_not_nil (l : list string) : l <> [] -> exists x, pop l = Some x.
Proof.
  induction l as [|a l IH]; [congruence|]. intros _.
  destruct l as [|b l]; [exists a; reflexivity|].
  destruct IH as [x Hx]; [discriminate|]. exists x. exact Hx.
Qed.

(** The chain of string operations in [_getExt] always yields a string. *)
Lemma last_dot_segment_total (x : string) :
  exists e, last_dot_segment x = Normal (Some e).
Proof.
  unfold last_dot_segment.
  destruct (pop_not_nil (split "." x) (split_not_nil _ _)) as [seg Hseg].
  rewrite Hseg.
  destruct (split "?" (toLowerCase seg)) as [|e rest] eqn:E.
  - exfalso. exact (split_not_nil _ _ E).
  - exists e. reflexivity.
Qed.

Lemma split_no_sep (c : ascii) (e : string) :
  has_char c e = false -> split c e = [e].
Proof.
  induction e as [|a e IH]; simpl; [reflexivity|].
  destruct (Ascii.eqb a c); [discriminate|]. intros H.
  rewrite (IH H). reflexivity.
Qed.

Lemma split_app (c : ascii) (a e : string) :
  split c (a ++ String c e)%string = split c a ++ split c e.
Proof.
  induction a as [|d a IH]; cbn [String.append split].
  - rewrite Ascii.eqb_refl. reflexivity.
  - destruct (Ascii.eqb d c); rewrite IH; [reflexivity|].
    destruct (split c a) as [|h t] eqn:E; [|reflexivity].
    exfalso. exact (split_not_nil _ _ E).
Qed.

Lemma pop_app (l l' : list string) : l' <> [] -> pop (l ++ l') = pop l'.
Proof.
  intros H. induction l as [|a l IH]; [reflexivity|].
  simpl. destruct (l ++ l') eqn:E; [|exact IH].
  destruct l; simpl in E; congruence.
Qed.

(** The segment after the last dot. *)
Lemma pop_split_after_dot (a e : string) :
  has_char "." e = false ->
  pop (split "." (a ++ String "." e)%string) = Some e.
Proof.
  intros He. rewrite split_app, pop_app by apply split_not_nil.
  rewrite (split_no_sep _ _ He). reflexivity.
Qed.

(** The part before the first question mark. *)
Lemma hd_split_query (e q : string) :
  has_char "?" e = false ->
  hd_error (split "?" e) = Some e /\
  hd_error (split "?" (e ++ String "?" q)%string) = Some e.
Proof.
  intros He. rewrite split_app, (split_no_sep _ _ He). split; reflexivity.
Qed.

Lemma toLowerCase_app (a b : string) :
  toLowerCase (a ++ b)%string = (toLowerCase a ++ toLowerCase b)%string.
Proof. induction a as [|c a IH]; simpl; [reflexivity | rewrite IH; reflexivity]. Qed.

Lemma lower_ascii_query (c : ascii) :
  Ascii.eqb (lower_ascii c) "?" = Ascii.eqb c "?".
Proof.
  destruct c as [[] [] [] [] [] [] [] []]; reflexivity.
Qed.

Lemma has_query_toLowerCase (s : string) :
  has_char "?" (toLowerCase s) = has_char "?" s.
Proof.
  induction s as [|c s IH]; simpl; [reflexivity|].
  rewrite lower_ascii_query, IH. reflexivity.
Qed.

(** What [_getExt] makes of a string that ends in a dot, an extension
    and possibly a query. *)
Lemma last_dot_segment_extension (a e : string) :
  has_char "." e = false -> has_char "?" e = false ->
  last_dot_segment (a ++ String "." e)%string = Normal (Some (toLowerCase e)).
Proof.
  intros Hd Hq. unfold last_dot_segment.
  rewrite (pop_split_after_dot a e Hd).
  destruct (hd_split_query (toLowerCase e) EmptyString) as [H _];
    [rewrite has_query_toLowerCase; exact Hq|].
  rewrite H. reflexivity.
Qed.

Lemma has_char_app (c : ascii) (a b : string) :
  has_char c (a ++ b)%string = has_char c a || has_char c b.
Proof.
  induction a as [|d a IH]; simpl; [reflexivity|].
  rewrite IH. apply orb_assoc.
Qed.

Lemma last_dot_segment_extension_query (a e q : string) :
  has_char "." e = false -> has_char "?" e = false ->
  has_char "." q = false ->
  last_dot_segment (a ++ String "." (e ++ String "?" q))%string
  = Normal (Some (toLowerCase e)).
Proof.
  intros Hd Hq Hdq. unfold last_dot_segment.
  rewrite pop_split_after_dot.
  - rewrite toLowerCase_app. cbn [toLowerCase].
    change (lower_ascii "?") with "?"%char.
    destruct (hd_split_query (toLowerCase e) (toLowerCase q)) as [_ H];
      [rewrite has_query_toLowerCase; exact Hq|].
    rewrite H. reflexivity.
  - rewrite has_char_app. simpl. rewrite Hd, Hdq. reflexivity.
Qed.

End Strings.

(* ------------------------------------------------------------------ *)
(** ** Format resolution *)

Lemma getExt_total (env : Platform) (url : string) :
  exists ext,
    _getExt env url = Normal (Some ext) /\
    match URL_pathname env url with
    | Some path => last_dot_segment path = Normal (Some ext)
    | None => last_dot_segment url = Normal (Some ext)
    end.
Proof.
  unfold _getExt. destruct (URL_pathname env url) as [path|].
  - destruct (last_dot_segment_total path) as [e He]. rewrite He.
    exists e. split; reflexivity.
  - destruct (last_dot_segment_total url) as [e He]. rewrite He.
    exists e. split; reflexivity.
Qed.

Lemma kind_of_cases (ext url : string) :
  let hls := ext = "m3u8"%string \/ includes ".m3u8" url = true in
  let dash := ext = "mpd"%string \/ includes ".mpd" url = true in
  (kind_of (Some ext) url = HLS <-> hls) /\
  (kind_of (Some ext) url = DASH <-> ~ hls /\ dash) /\
  (kind_of (Some ext) url = Progressive <-> ~ hls /\ ~ dash).
Proof.
  unfold kind_of, ext_is.
  destruct (String.eqb_spec ext "m3u8"), (includes ".m3u8" url),
    (String.eqb_spec ext "mpd"), (includes ".mpd" url); simpl;
    repeat split; intros; try discriminate; try tauto;
    try (intuition (discriminate || congruence)).
Qed.

Lemma classify_includes_m3u8 (env : Platform) (url : string) :
  includes ".m3u8" url = true -> classify env url = Normal HLS.
Proof.
  intros H. unfold classify.
  destruct (getExt_total env url) as (ext & He & _). rewrite He.
  f_equal. apply (proj1 (kind_of_cases ext url)). right. exact H.
Qed.

(** What the format resolver computes; it is total and never throws.  It
    answers HLS exactly when the text that [_getExt] returns is [m3u8] or
    the URL contains [.m3u8]; DASH exactly when it is not HLS and that text
    is [mpd] or the URL contains [.mpd]; Progressive in every other case.
    The text that [_getExt] returns is the lower-cased last dot segment of
    the URL's pathname, cut at a question mark, and of the raw string when
    the URL does not parse.  On a raw string this is the path extension
    only if no dot follows it: see [resolver_reads_dot_of_query].  Every URL
    that ends in [.m3u8], with or without a query string, is HLS, and one
    that ends in [.mpd] is DASH unless it qualifies as HLS. *)
Theorem classify_by_extension (env : Platform) (url : string) :
  (exists ext,
      _getExt env url = Normal (Some ext) /\
      match URL_pathname env url with
      | Some path => last_dot_segment path = Normal (Some ext)
      | None => last_dot_segment url = Normal (Some ext)
      end /\
      let hls := ext = "m3u8"%string \/ includes ".m3u8" url = true in
      let dash := ext = "mpd"%string \/ includes ".mpd" url = true in
      (classify env url = Normal HLS <-> hls) /\
      (classify env url = Normal DASH <-> ~ hls /\ dash) /\
      (classify env url = Normal Progressive <-> ~ hls /\ ~ dash) /\
      exists k, classify env url = Normal k) /\
  (forall a e q : string,
      has_char "." e = false -> has_char "?" e = false ->
      last_dot_segment (a ++ String "." e)%string
      = Normal (Some (toLowerCase e)) /\
      (has_char "." q = false ->
       last_dot_segment (a ++ String "." (e ++ String "?" q))%string
       = Normal (Some (toLowerCase e)))) /\
  (forall p q : string,
      classify env (p ++ ".m3u8")%string = Normal HLS /\
      classify env (p ++ ".m3u8?" ++ q)%string = Normal HLS /\
      (classify env (p ++ ".mpd")%string = Normal HLS \/
       classify env (p ++ ".mpd")%string = Normal DASH) /\
      (classify env (p ++ ".mpd?" ++ q)%string = Normal HLS \/
       classify env (p ++ ".mpd?" ++ q)%string = Normal DASH)).
Proof.
  split; [|split].
  - destruct (getExt_total env url) as (ext & He & Hpath).
    exists ext. split; [exact He|]. split; [exact Hpath|].
    pose proof (kind_of_cases ext url) as (Hh & Hd & Hp).
    assert (Hn : forall k : DeliveryKind,
               Normal (kind_of (Some ext) url) = Normal k
               <-> kind_of (Some ext) url = k).
    { intros k. split; [intros H; inversion H; reflexivity | intros ->; reflexivity]. }
    unfold classify. rewrite He. cbv zeta in *. rewrite !Hn.
    split; [exact Hh|]. split; [exact Hd|]. split; [exact Hp|].
    eexists. reflexivity.
  - intros a e q Hd Hq. split.
    + apply last_dot_segment_extension; assumption.
    + intros Hdq. apply last_dot_segment_extension_query; assumption.
  - intros p q.
    assert (Hdash : forall u, includes ".mpd" u = true ->
              classify env u = Normal HLS \/ classify env u = Normal DASH).
    { intros u Hu. unfold classify.
      destruct (getExt_total env u) as (ext & He & _). rewrite He.
      pose proof (kind_of_cases ext u) as (Hh & Hd & _). cbv zeta in *.
      destruct (kind_of (Some ext) u) eqn:K; auto.
      exfalso. assert (Hn : ~ (ext = "m3u8"%string \/ includes ".m3u8" u = true)).
      { intros Hc. apply Hh in Hc. discriminate. }
      assert (Progressive = DASH) by (apply Hd; split; [exact Hn | right; exact Hu]).
      discriminate. }
    repeat split.
    + apply classify_includes_m3u8, includes_suffix.
    + apply classify_includes_m3u8.
      change (p ++ ".m3u8?" ++ q)%string with (p ++ ".m3u8" ++ String "?" q)%string.
      apply includes_app.
    + apply Hdash, includes_suffix.
    + apply Hdash.
      change (p ++ ".mpd?" ++ q)%string with (p ++ ".mpd" ++ String "?" q)%string.
      apply includes_app.
Qed.

(** C1, where the code departs from it.  For a URL that does not parse,
    [_getExt] takes the text behind the last dot of the raw string and only
    then cuts it at the question mark.  A dot in the query string therefore
    hides the path extension: the resolver decides on the text behind the
    last dot of the query.  The same path and query behind an origin, read
    through the pathname, give the path extension.  So
    [clips/movie.MPD?v=1.2] is Progressive, with [2] for its extension,
    while [https://example.com/clips/movie.MPD?v=1.2] is DASH. *)
Theorem resolver_reads_dot_of_query (env : Platform) (a e q r : string) :
  let url := ((a ++ String "." (e ++ String "?" q)) ++ String "." r)%string in
  URL_pathname env url = None ->
  has_char "." r = false -> has_char "?" r = false ->
  _getExt env url = Normal (Some (toLowerCase r)) /\
  classify env url = Normal (kind_of (Some (toLowerCase r)) url) /\
  (forall origin p : string,
      URL_pathname env (origin ++ url) = Some (p ++ String "." e)%string ->
      has_char "." e = false -> has_char "?" e = false ->
      _getExt env (origin ++ url) = Normal (Some (toLowerCase e)) /\
      classify env (origin ++ url)
      = Normal (kind_of (Some (toLowerCase e)) (origin ++ url))).
Proof.
  intros url Hu Hd Hq.
  assert (He : _getExt env url = Normal (Some (toLowerCase r))).
  { unfold _getExt. rewrite Hu. unfold url.
    apply last_dot_segment_extension; assumption. }
  split; [exact He|]. split.
  - unfold classify. rewrite He. reflexivity.
  - intros origin p Hp Hde Hqe.
    assert (Ho : _getExt env (origin ++ url) = Normal (Some (toLowerCase e))).
    { unfold _getExt. rewrite Hp.
      rewrite (last_dot_segment_extension p e Hde Hqe). reflexivity. }
    split; [exact Ho|]. unfold classify. rewrite Ho. reflexivity.
Qed.

(** A string without a dot is its own last dot segment, so a bare word is
    taken for an extension although the string has none. *)
Lemma resolver_reads_bare_word (env : Platform) (w : string) :
  URL_pathname env w = None -> has_char "." w = false ->
  has_char "?" w = false ->
  _getExt env w = Normal (Some (toLowerCase w)).
Proof.
  intros Hu Hd Hq. unfold _getExt, last_dot_segment. rewrite Hu.
  rewrite (split_no_sep _ _ Hd). cbn [pop].
  rewrite split_no_sep by (rewrite has_query_toLowerCase; exact Hq).
  reflexivity.
Qed.

(* ------------------------------------------------------------------ *)
(** ** Seeking *)

(** C5. With a known finite duration [D], [seek(d)] from a position [p]
    assigns to [video.currentTime] the sum [p + d] clamped into [0, D]: zero
    when the sum is negative, [D] when it exceeds [D], the sum itself in
    between; the assignment does not throw and the new position lies in
    [0, D]. *)
Theorem seek_clamps_into_duration (s : State) (d D : number) :
  duration (video s) = Num D ->
  is_finite D = true ->
  lt pos_zero D = true ->
  is_finite (currentTime (video s)) = true ->
  is_finite d = true ->
  let sum := add (currentTime (video s)) d in
  exists t,
    seek d s = Done (with_video (set_currentTime t) s) /\
    currentTime (video (state_of (seek d s))) = t /\
    clamp_spec sum D t /\
    lt sum pos_zero || (le pos_zero sum && le sum D) || lt D sum = true /\
    le pos_zero t = true /\ le t D = true.
Proof.
  intros Hdur HD Hpos Hp Hd sum.
  assert (Hsum : is_nan sum = false).
  { apply add_not_nan; [assumption|]. destruct d; try discriminate; reflexivity. }
  destruct (clamp_cases sum D HD Hpos Hsum) as (Hc & Hf & H0 & H1 & Hex).
  assert (Hor : or_zero (duration (video s)) = D).
  { rewrite Hdur. destruct D as [sD|sD| |sD mD eD]; try discriminate; reflexivity. }
  exists (Math_max pos_zero (Math_min D sum)).
  assert (Ht : seek_target (video s) d = Math_max pos_zero (Math_min D sum)).
  { unfold seek_target. rewrite Hor. reflexivity. }
  unfold seek. rewrite Ht, Hf. simpl.
  split; [reflexivity|]. split; [reflexivity|]. auto.
Qed.

(** Seeking -10 from 3.0 and +10 from 115, both with duration 120. *)
Lemma seek_clamps_into_duration_witness :
  currentTime (video (state_of
    (seek (of_Z (-10)) (state_at (of_Z 3) (Num (of_Z 120)))))) = pos_zero /\
  currentTime (video (state_of
    (seek (of_Z 10) (state_at (of_Z 115) (Num (of_Z 120)))))) = of_Z 120.
Proof.
  split.
  - destruct (seek_clamps_into_duration
                (state_at (of_Z 3) (Num (of_Z 120))) (of_Z (-10)) (of_Z 120)
                eq_refl eq_refl eq_refl eq_refl eq_refl)
      as (t & _ & Ht & (Hlow & _ & _) & _).
    rewrite Ht. apply Hlow. reflexivity.
  - destruct (seek_clamps_into_duration
                (state_at (of_Z 115) (Num (of_Z 120))) (of_Z 10) (of_Z 120)
                eq_refl eq_refl eq_refl eq_refl eq_refl)
      as (t & _ & Ht & (_ & _ & Hhigh) & _).
    rewrite Ht. apply Hhigh. reflexivity.
Defined.

(** C10. When the duration is unavailable (undefined, NaN or zero),
    [seek(d)] assigns exactly 0 to [video.currentTime], whatever the position
    and the delta (any number but NaN). *)
Theorem seek_without_duration (s : State) (d : number) :
  (duration (video s) = Undefined \/
   duration (video s) = Num NaN \/
   exists sg, duration (video s) = Num (S754_zero sg)) ->
  is_finite (currentTime (video s)) = true ->
  is_nan d = false ->
  seek_target (video s) d = pos_zero /\
  seek d s = Done (with_video (set_currentTime pos_zero) s) /\
  currentTime (video (state_of (seek d s))) = pos_zero.
Proof.
  intros Hdur Hp Hd.
  assert (Hor : or_zero (duration (video s)) = pos_zero).
  { destruct Hdur as [H|[H|[sg H]]]; rewrite H; reflexivity. }
  assert (Ht : seek_target (video s) d = pos_zero).
  { unfold seek_target. rewrite Hor. apply clamp_to_zero.
    apply add_not_nan; assumption. }
  unfold seek. rewrite Ht. simpl. repeat split; reflexivity.
Qed.

Lemma seek_without_duration_witness :
  seek (of_Z 10) (state_at (of_Z 42) (Num NaN))
  = Done (with_video (set_currentTime pos_zero)
            (state_at (of_Z 42) (Num NaN))) /\
  seek (of_Z (-10)) (state_at (of_Z 42) Undefined)
  = Done (with_video (set_currentTime pos_zero)
            (state_at (of_Z 42) Undefined)) /\
  seek Infinity (state_at (of_Z 42) (Num neg_zero))
  = Done (with_video (set_currentTime pos_zero)
            (state_at (of_Z 42) (Num neg_zero))).
Proof.
  split; [|split].
  - apply (seek_without_duration (state_at (of_Z 42) (Num NaN)) (of_Z 10));
      [right; left; reflexivity | reflexivity | reflexivity].
  - apply (seek_without_duration (state_at (of_Z 42) Undefined) (of_Z (-10)));
      [left; reflexivity | reflexivity | reflexivity].
  - apply (seek_without_duration (state_at (of_Z 42) (Num neg_zero)) Infinity);
      [right; right; exists true; reflexivity | reflexivity | reflexivity].
Defined.

(* ------------------------------------------------------------------ *)
(** ** Buffer helpers *)

Lemma bufferAhead_from_spec (ct : number) (r : list (number * number)) :
  match bufferAhead_from ct r with
  | Some x =>
      exists before st en after,
        r = before ++ (st, en) :: after /\
        contains ct (st, en) = true /\
        (forall q, In q before -> contains ct q = false) /\
        x = sub en ct
  | None => forall q, In q r -> contains ct q = false
  end.
Proof.
  induction r as [|[st en] rest IH]; simpl.
  - intros q [].
  - destruct (le st ct && le ct en) eqn:E.
    + exists [], st, en, rest. repeat split; auto. intros q [].
    + destruct (bufferAhead_from ct rest) as [x|].
      * destruct IH as (before & st' & en' & after & Hr & Hc & Hb & Hx).
        exists ((st, en) :: before), st', en', after.
        repeat split; auto.
        -- rewrite Hr. reflexivity.
        -- intros q [Hq|Hq]; [subst q; exact E | auto].
      * intros q [Hq|Hq]; [subst q; exact E | auto].
Qed.

(** C6. The buffer-ahead value is [end - p] for the (first) buffered
    interval whose bounds enclose the current position [p], and null when no
    buffered interval encloses it; at position 12.0 inside the interval
    [5.0, 20.0] it is 8.0. *)
Theorem buffer_ahead_is_end_minus_position :
  (forall v : Video,
      match _getBufferAhead v with
      | Some x =>
          exists before st en after,
            buffered v = before ++ (st, en) :: after /\
            le st (currentTime v) = true /\
            le (currentTime v) en = true /\
            (forall q, In q before -> contains (currentTime v) q = false) /\
            x = sub en (currentTime v)
      | None =>
          forall q, In q (buffered v) -> contains (currentTime v) q = false
      end) /\
  _getBufferAhead
    (video (with_buffered [(of_Z 5, of_Z 20)]
              (state_at (of_Z 12) (Num (of_Z 120)))))
  = Some (of_Z 8).
Proof.
  split; [|reflexivity].
  intros v. unfold _getBufferAhead.
  destruct (buffered v) as [|r0 rest] eqn:Hb; simpl (_ =? _)%nat; cbv iota.
  - intros q [].
  - pose proof (bufferAhead_from_spec (currentTime v) (r0 :: rest)) as H.
    destruct (bufferAhead_from (currentTime v) (r0 :: rest)) as [x|]; [|exact H].
    destruct H as (before & st & en & after & Hr & Hc & Hbf & Hx).
    exists before, st, en, after.
    unfold contains in Hc. simpl in Hc. apply andb_true_iff in Hc.
    destruct Hc. repeat split; auto.
Qed.

Lemma last_of_nonempty {A : Type} (l : list A) :
  l <> [] ->
  exists front x,
    l = front ++ [x] /\ nth_error l (List.length l - 1) = Some x.
Proof.
  intros H. destruct (exists_last H) as (front & x & Hl).
  exists front, x. split; [exact Hl|].
  rewrite Hl, length_app. simpl.
  replace (List.length front + 1 - 1)%nat with (List.length front) by lia.
  rewrite nth_error_app2 by lia. rewrite Nat.sub_diag. reflexivity.
Qed.

(** In a normalized range list every range ends no later than the last
    one, and starts no later than the last one starts. *)
Lemma normalized_last (front : list (number * number)) : forall st en,
    normalized (front ++ [(st, en)]) = true ->
    le st en = true /\
    forall st' en', In (st', en') front ->
      le st' en' = true /\ lt en' st = true.
Proof.
  induction front as [|[a b] rest IH]; intros st en H.
  - simpl in H. rewrite !andb_true_r in H. split; [exact H|]. intros ? ? [].
  - simpl in H. apply andb_true_iff in H. destruct H as [H Hn].
    apply andb_true_iff in H. destruct H as [Hab Hnext].
    destruct (IH st en Hn) as [Hse Hrest].
    split; [exact Hse|].
    intros st' en' [Heq|Hin]; [|auto].
    inversion Heq; subst st' en'. split; [exact Hab|].
    destruct rest as [|[c e] rest'].
    + exact Hnext.
    + simpl in Hnext.
      destruct (Hrest c e (or_introl eq_refl)) as [Hce Hes].
      destruct (le_cases _ _ (le_trans _ _ _ (lt_le _ _ Hnext)
                               (le_trans _ _ _ Hce (lt_le _ _ Hes))))
        as [Hlt|Hge]; [exact Hlt|].
      (* st <= b < c <= e < st is impossible *)
      exfalso.
      pose proof (le_trans _ _ _ Hge (lt_le _ _ Hnext)) as H1.
      pose proof (le_trans _ _ _ H1 Hce) as H2.
      unfold lt, le, SFltb, SFleb in Hes, H2.
      rewrite (SFcompare_swap e st) in H2.
      destruct (SFcompare e st) as [[| |]|]; simpl in H2; discriminate.
Qed.

Lemma le_refl_right x y : le x y = true -> le y y = true.
Proof.
  unfold le, SFleb. intros H.
  rewrite SFcompare_refl; [reflexivity|].
  destruct x, y; simpl in *; try discriminate; reflexivity.
Qed.

(** C8 (as the code has it). On a progress event with a known duration and
    something buffered, the buffer bar is drawn from the end of the last
    buffered interval over the duration, as a percentage; the current
    position is not consulted.  In a normalized range list that interval is
    the furthest one, and it contains or follows the current position
    whenever some buffered interval does. *)
Theorem progress_draws_last_range (env : Platform) (s : State) (D : number) :
  duration (video s) = Num D ->
  num_truthy D = true ->
  buffered (video s) <> [] ->
  exists front st en,
    buffered (video s) = front ++ [(st, en)] /\
    _onProgress env s
    = with_ui (set_bufferBarWidth
                 (Number_toString env (mul (div en D) (of_Z 100)) ++ "%")%string) s /\
    (normalized (buffered (video s)) = true ->
     (forall st' en', In (st', en') (buffered (video s)) -> le en' en = true) /\
     ((exists r, In r (buffered (video s)) /\
                 contains_or_follows (currentTime (video s)) r = true) ->
      contains_or_follows (currentTime (video s)) (st, en) = true)).
Proof.
  intros Hdur HD Hne.
  destruct (last_of_nonempty (buffered (video s)) Hne) as (front & [st en] & Hl & Hnth).
  exists front, st, en. split; [exact Hl|]. split.
  - unfold _onProgress. rewrite Hdur. simpl truthy. rewrite HD.
    destruct (buffered (video s)) as [|r0 rest] eqn:Hb; [congruence|].
    simpl (List.length (r0 :: rest) =? 0)%nat. cbv iota. simpl negb. cbv iota.
    simpl orb. cbv iota.
    rewrite Hnth. reflexivity.
  - intros Hnorm. rewrite Hl in Hnorm |- *.
    destruct (normalized_last front st en Hnorm) as [Hse Hfront].
    set (p := currentTime (video s)).
    split.
    + intros st' en' Hin. apply in_app_or in Hin. destruct Hin as [Hin|[Heq|[]]].
      * destruct (Hfront st' en' Hin) as [_ Hlt].
        exact (le_trans _ _ _ (lt_le _ _ Hlt) Hse).
      * inversion Heq; subst. exact (le_refl_right _ _ Hse).
    + intros ([st' en'] & Hin & Hcf).
      apply in_app_or in Hin. destruct Hin as [Hin|[Heq|[]]].
      * destruct (Hfront st' en' Hin) as [Hse' Hlt].
        assert (Hp : le p en' = true).
        { unfold contains_or_follows, contains in Hcf. simpl in Hcf.
          apply orb_true_iff in Hcf. destruct Hcf as [Hc|Hf].
          - apply andb_true_iff in Hc. apply Hc.
          - exact (le_trans _ _ _ (lt_le _ _ Hf) Hse'). }
        pose proof (le_trans _ _ _ Hp (lt_le _ _ Hlt)) as Hpst.
        unfold contains_or_follows, contains. simpl.
        destruct (le_cases _ _ Hpst) as [Hlt'|Hge].
        -- rewrite Hlt'. apply orb_true_r.
        -- rewrite Hge, (le_trans _ _ _ Hpst Hse). reflexivity.
      * inversion Heq; subst. exact Hcf.
Qed.

Lemma progress_draws_last_range_witness :
  bufferBarWidth
    (ui (_onProgress sample_platform
           (with_buffered [(of_Z 0, of_Z 10); (of_Z 40, of_Z 60)]
              (state_at (of_Z 45) (Num (of_Z 120))))))
  = "50%"%string.
Proof.
  destruct (progress_draws_last_range sample_platform
              (with_buffered [(of_Z 0, of_Z 10); (of_Z 40, of_Z 60)]
                 (state_at (of_Z 45) (Num (of_Z 120))))
              (of_Z 120) eq_refl eq_refl)
    as (front & st & en & Hl & Hw & _).
  - discriminate.
  - rewrite Hw.
    assert (Hen : en = of_Z 60).
    { simpl in Hl.
      destruct front as [|a [|b [|c front]]]; simpl in Hl;
        inversion Hl; subst; reflexivity. }
    rewrite Hen. reflexivity.
Defined.

(** C8 as the specification words it fails: with only [0, 10] buffered and
    the position at 50 (after a seek ahead), no buffered interval contains or
    follows the position, yet the bar is drawn, from the interval behind. *)
Lemma progress_range_behind_position :
  let s := with_buffered [(of_Z 0, of_Z 10)]
             (state_at (of_Z 50) (Num (of_Z 100))) in
  bufferBarWidth (ui (_onProgress sample_platform s)) = "10%"%string /\
  ~ progress_from_range_ahead sample_platform s.
Proof.
  split; [reflexivity|].
  intros H.
  destruct H as (st & en & Hin & Hcf & _); [reflexivity | discriminate |].
  destruct Hin as [Heq|[]]. inversion Heq; subst.
  vm_compute in Hcf. discriminate.
Qed.

(* ------------------------------------------------------------------ *)
(** ** Surface errors *)

(** C7 (as the code has it). On a playback-surface error the spinner is
    hidden, the error overlay is shown, and the message is fixed by the
    error class: one text each for Aborted (1), NetworkError (2),
    DecodeError (3) and SourceUnsupported (4); any other code shows
    'Unknown error.'; an absent error object shows 'Could not load
    video.'. *)
Theorem surface_error_message (s : State) :
  let s' := _onVideoError s in
  spinnerActive (ui s') = false /\
  errorActive (ui s') = true /\
  (forall e, error (video s) = Some e ->
     (code e = 1 -> errorMsg (ui s') = "Playback aborted."%string) /\
     (code e = 2 ->
      errorMsg (ui s') = "Network error. Check the URL and your connection."%string) /\
     (code e = 3 ->
      errorMsg (ui s') = "Decoding error. Format may be unsupported."%string) /\
     (code e = 4 ->
      errorMsg (ui s') = "Source not supported or URL is invalid."%string) /\
     (code e < 1 \/ 4 < code e -> errorMsg (ui s') = "Unknown error."%string)) /\
  (error (video s) = None -> errorMsg (ui s') = "Could not load video."%string).
Proof.
  cbv zeta. unfold _onVideoError, showError, hideSpinner, with_ui, call. simpl.
  split; [reflexivity|]. split; [reflexivity|]. split.
  - intros [c] He. rewrite He. simpl.
    repeat split; intros H; try (rewrite H; reflexivity).
    unfold msgs. destruct c as [|p|p]; try reflexivity.
    destruct p as [[p|p|]|[p|p|]|]; try reflexivity; try lia;
      destruct p; try reflexivity; lia.
  - intros He. rewrite He. reflexivity.
Qed.

Lemma surface_error_message_witness :
  errorMsg (ui (_onVideoError (with_error (Some {| code := 3 |}) init)))
  = "Decoding error. Format may be unsupported."%string /\
  errorMsg (ui (_onVideoError (with_error None init)))
  = "Could not load video."%string.
Proof.
  split.
  - destruct (surface_error_message (with_error (Some {| code := 3 |}) init))
      as (_ & _ & H & _).
    destruct (H {| code := 3 |} eq_refl) as (_ & _ & H3 & _).
    apply H3. reflexivity.
  - destruct (surface_error_message (with_error None init)) as (_ & _ & _ & H).
    apply H. reflexivity.
Defined.

(** C7 as the specification words it fails: an error object with a code
    outside 1..4 shows 'Unknown error.', not the could-not-load message. *)
Lemma unknown_code_shows_unknown_error :
  let s := with_error (Some {| code := 5 |}) init in
  errorMsg (ui (_onVideoError s)) = "Unknown error."%string /\
  ~ unknown_error_shows_could_not_load s.
Proof.
  split; [reflexivity|].
  intros H. specialize (H eq_refl). discriminate H.
Qed.


(* ------------------------------------------------------------------ *)
(** ** Engine lifecycle *)

Section Lifecycle.

Variable env : Platform.

Lemma update_nth_snoc {A : Type} (f : A -> A) (l : list A) (x : A) :
  forall j,
    update_nth j f (l ++ [x])
    = update_nth j f l ++ [if Nat.eqb j (List.length l) then f x else x].
Proof.
  induction l as [|a l IH]; intros [|j]; simpl; try reflexivity.
  rewrite IH. reflexivity.
Qed.

Lemma update_nth_beyond {A : Type} (f : A -> A) (l : list A) :
  forall j, (List.length l <= j)%nat -> update_nth j f l = l.
Proof.
  induction l as [|a l IH]; intros [|j] H; simpl in *; try reflexivity; try lia.
  rewrite IH by lia. reflexivity.
Qed.

Lemma update_nth_last {A : Type} (f : A -> A) (l : list A) (x : A) :
  update_nth (List.length l) f (l ++ [x]) = l ++ [f x].
Proof.
  rewrite update_nth_snoc, Nat.eqb_refl, update_nth_beyond by lia. reflexivity.
Qed.

Lemma update_nth_length {A : Type} (f : A -> A) (l : list A) :
  forall j, List.length (update_nth j f l) = List.length l.
Proof.
  induction l as [|a l IH]; intros [|j]; simpl; auto.
Qed.

Lemma update_nth_Forall {A : Type} (P : A -> Prop) (f : A -> A) (l : list A) :
  (forall x, P x -> P (f x)) ->
  forall j, Forall P l -> Forall P (update_nth j f l).
Proof.
  intros Hf. induction l as [|a l IH]; intros [|j] H; simpl; auto;
    inversion H; subst; constructor; auto.
Qed.

(** An update that keeps the destroyed flag and the subscriptions keeps
    the layout. *)
Lemma with_engine_ok (j : nat) (f : Hls -> Hls) (s : State) :
  (forall h, destroyed (f h) = destroyed h /\ listeners (f h) = listeners h) ->
  engines_ok s -> engines_ok (with_engine j f s).
Proof.
  intros Hf. unfold engines_ok, with_engine, with_heap. simpl.
  assert (Hd : forall x, disposed x -> disposed (f x)).
  { intros x [H1 H2]. destruct (Hf x) as [H3 H4]. split; congruence. }
  destruct (hlsInstance s) as [i|].
  - intros (old & h & Hh & Hi & Hold & Hlive & Hl).
    exists (update_nth j f old), (if Nat.eqb j (List.length old) then f h else h).
    rewrite Hh, update_nth_snoc, update_nth_length.
    repeat split; auto using update_nth_Forall.
    + destruct (Nat.eqb j (List.length old)); [|exact Hlive].
      destruct (Hf h) as [H3 _]. congruence.
    + destruct (Nat.eqb j (List.length old)); [|exact Hl].
      destruct (Hf h) as [_ H4]. congruence.
  - intros H. apply update_nth_Forall; assumption.
Qed.

(** A step that touches neither the variable nor the heap. *)
Lemma engines_ok_frame (s s' : State) :
  hlsInstance s' = hlsInstance s -> heap s' = heap s ->
  engines_ok s -> engines_ok s'.
Proof. unfold engines_ok. intros -> ->. exact (fun H => H). Qed.

Lemma destroyHls_layout (s : State) :
  engines_ok s ->
  hlsInstance (_destroyHls s) = None /\
  Forall disposed (heap (_destroyHls s)) /\
  List.length (heap (_destroyHls s)) = List.length (heap s) /\
  calls (_destroyHls s)
  = calls s ++ match hlsInstance s with
               | Some i => [CDestroy i; CVideoLoad]
               | None => [CVideoLoad]
               end /\
  (forall j h, nth_error (heap s) j = Some h ->
     let h' := if destroyed h then h else hls_destroy h in
     nth_error (heap (_destroyHls s)) j = Some h' /\ disposed h').
Proof.
  unfold engines_ok, _destroyHls.
  destruct (hlsInstance s) as [i|] eqn:Hi.
  - intros (old & h & Hh & Hlen & Hold & Hlive & Hl).
    unfold with_engine, with_heap, set_hlsInstance, with_video, call. simpl.
    rewrite Hh, Hlen, update_nth_last.
    split; [reflexivity|]. split; [|split; [|split]].
    + apply Forall_app. split; [exact Hold|]. constructor; [|constructor].
      split; reflexivity.
    + rewrite !length_app. reflexivity.
    + rewrite <- app_assoc. reflexivity.
    + intros j x Hx.
      destruct (Nat.lt_ge_cases j (List.length old)) as [Hlt|Hge].
      * rewrite nth_error_app1 in Hx |- * by assumption.
        assert (Hd : disposed x).
        { rewrite Forall_forall in Hold. apply Hold.
          eapply nth_error_In; eassumption. }
        cbv zeta. rewrite (proj1 Hd). split; assumption.
      * rewrite nth_error_app2 in Hx |- * by assumption.
        destruct (j - List.length old)%nat as [|k]; simpl in *.
        -- inversion Hx; subst x. rewrite Hlive. split; [reflexivity|].
           split; reflexivity.
        -- destruct k; discriminate.
  - intros H. simpl.
    split; [exact Hi|]. split; [exact H|]. split; [reflexivity|].
    split; [reflexivity|].
    intros j x Hx.
    assert (Hd : disposed x).
    { rewrite Forall_forall in H. apply H. eapply nth_error_In; eassumption. }
    cbv zeta. rewrite (proj1 Hd). split; assumption.
Qed.

Lemma loadVideo_layout (url title : string) (s : State) :
  engines_ok s ->
  let s0 := _destroyHls s in
  let s' := state_of (loadVideo env url title s) in
  let j := List.length (heap s) in
  (if engine_path env url
   then hlsInstance s' = Some j /\
        heap s' = heap s0 ++ [fresh_engine env url] /\
        calls s' = calls s0 ++ [CNewHls j; CLoadSource j url; CAttachMedia j;
                                COn j MANIFEST_PARSED; COn j ERROR;
                                COn j AUDIO_TRACK_LOADED]
   else hlsInstance s' = None /\
        heap s' = heap s0 /\
        exists rest, calls s' = calls s0 ++ rest /\
                     forall k, ~ In (CNewHls k) rest) /\
  timers s' = timers s /\ unmutePending s' = unmutePending s.
Proof.
  intros Hok. cbv zeta.
  destruct (destroyHls_layout s Hok) as (Hnull & _ & Hlen & _ & _).
  assert (Ht : timers (_destroyHls s) = timers s /\
               unmutePending (_destroyHls s) = unmutePending s).
  { unfold _destroyHls. destruct (hlsInstance s); split; reflexivity. }
  destruct Ht as [Ht Hu]. rewrite <- Ht, <- Hu, <- Hlen.
  unfold loadVideo, engine_path, classify.
  destruct (getExt_total env url) as (ext & He & _). rewrite He.
  generalize dependent (_destroyHls s). intros s0 Hnull _ _ _.
  assert (Hrest : forall (c : list Call) (rest : list Call),
             (forall k, ~ In (CNewHls k) rest) ->
             exists rest', c ++ rest = c ++ rest' /\
                           forall k, ~ In (CNewHls k) rest').
  { intros c rest H. exists rest. split; [reflexivity | exact H]. }
  destruct (kind_of (Some ext) url).
  - unfold _loadHls.
    destruct (Hls_defined env), (Hls_isSupported env), (canPlayType_mpegurl env);
      simpl; unfold hlsInstance_on; simpl; rewrite ?Hnull; simpl;
      rewrite ?update_nth_last, <- ?app_assoc; simpl;
      repeat split; try reflexivity; try exact Hnull;
      apply Hrest; intros k [H|[]]; discriminate.
  - simpl. unfold hlsInstance_on. simpl. rewrite Hnull. simpl.
    rewrite <- ?app_assoc. simpl.
    repeat split; try reflexivity; try exact Hnull.
    apply Hrest. intros k [H|[H|[]]]; discriminate.
  - simpl. unfold hlsInstance_on. simpl. rewrite Hnull. simpl.
    rewrite <- ?app_assoc. simpl.
    repeat split; try reflexivity; try exact Hnull.
    apply Hrest. intros k [H|[H|[]]]; discriminate.
Qed.

Lemma loadVideo_ok (url title : string) (s : State) :
  engines_ok s -> engines_ok (state_of (loadVideo env url title s)).
Proof.
  intros Hok.
  destruct (destroyHls_layout s Hok) as (_ & Hdisp & Hlen & _ & _).
  destruct (loadVideo_layout url title s Hok) as [H _].
  unfold engines_ok at 1.
  destruct (engine_path env url).
  - destruct H as (Hi & Hh & _). rewrite Hi.
    exists (heap (_destroyHls s)), (fresh_engine env url).
    repeat split; auto.
  - destruct H as (Hi & Hh & _). rewrite Hi, Hh. exact Hdisp.
Qed.

Lemma hls_set_audioTrack_keeps (n : Z) (h : Hls) :
  destroyed (hls_set_audioTrack n h) = destroyed h /\
  listeners (hls_set_audioTrack n h) = listeners h.
Proof. split; reflexivity. Qed.

Lemma hls_set_tracks_keeps (t : option (list string)) (n : Z) (h : Hls) :
  destroyed (hls_set_tracks t n h) = destroyed h /\
  listeners (hls_set_tracks t n h) = listeners h.
Proof. split; reflexivity. Qed.

Lemma handler_ok (e : HlsEmit) (s : State) :
  engines_ok s -> engines_ok (state_of (handler_of e s)).
Proof.
  intros Hok. destruct e as [|data|]; simpl.
  - unfold on_MANIFEST_PARSED.
    destruct (hlsInstance s) as [i|] eqn:Hi; [|exact Hok].
    destruct (nth_error (heap s) i) as [h|]; [|exact Hok].
    destruct (audioTracks h) as [[|t ts]|]; simpl;
      try (eapply engines_ok_frame; [| |exact Hok]; reflexivity).
    eapply engines_ok_frame;
      [| |apply (with_engine_ok i (hls_set_audioTrack 0) s
                   (hls_set_audioTrack_keeps 0) Hok)]; reflexivity.
  - unfold on_ERROR.
    destruct (fatal data); [|exact Hok].
    destruct (type data); destruct (hlsInstance s) eqn:Hi; simpl;
      try exact Hok;
      (eapply engines_ok_frame; [| |exact Hok]; simpl; auto).
  - unfold on_AUDIO_TRACK_LOADED.
    destruct (hlsInstance s) as [i|] eqn:Hi; [|exact Hok].
    destruct (nth_error (heap s) i) as [h|]; [|exact Hok].
    destruct (audioTrack h <? 0); [|exact Hok].
    destruct (audioTracks h) as [[|t ts]|]; simpl; try exact Hok.
    eapply engines_ok_frame;
      [| |apply (with_engine_ok i (hls_set_audioTrack 0) s
                   (hls_set_audioTrack_keeps 0) Hok)]; reflexivity.
Qed.

Lemma handler_timers (e : HlsEmit) (s : State) :
  timers (state_of (handler_of e s)) = timers s /\
  unmutePending (state_of (handler_of e s)) = unmutePending s.
Proof.
  destruct e as [|data|]; simpl.
  - unfold on_MANIFEST_PARSED.
    destruct (hlsInstance s) as [i|]; [|split; reflexivity].
    destruct (nth_error (heap s) i) as [h|]; [|split; reflexivity].
    destruct (audioTracks h) as [[|t ts]|]; split; reflexivity.
  - unfold on_ERROR.
    destruct (fatal data); [|split; reflexivity].
    destruct (type data); destruct (hlsInstance s); split; reflexivity.
  - unfold on_AUDIO_TRACK_LOADED.
    destruct (hlsInstance s) as [i|]; [|split; reflexivity].
    destruct (nth_error (heap s) i) as [h|]; [|split; reflexivity].
    destruct (audioTrack h <? 0); [|split; reflexivity].
    destruct (audioTracks h) as [[|t ts]|]; split; reflexivity.
Qed.

Lemma hls_emit_ok (i : nat) (e : HlsEmit) (s : State) :
  engines_ok s /\ timers_ok s ->
  engines_ok (hls_emit i e s) /\ timers_ok (hls_emit i e s).
Proof.
  unfold hls_emit. destruct (nth_error (heap s) i) as [h|]; [|auto].
  generalize (listeners h). intros l. revert s.
  induction l as [|ev l IH]; intros s H; simpl; [exact H|].
  apply IH. destruct (HlsEvent_eqb ev (event_of e)); [|exact H].
  destruct H as [H1 H2]. split; [apply handler_ok; exact H1|].
  unfold timers_ok in *. destruct (handler_timers e s) as [Ht Hu].
  rewrite Ht, Hu. exact H2.
Qed.

Lemma video_listener_engines (ev : VideoEvent) (s : State) :
  hlsInstance (video_listener env ev s) = hlsInstance s /\
  heap (video_listener env ev s) = heap s.
Proof.
  destruct ev; simpl; try (split; reflexivity).
  - unfold _scheduleUnmute. simpl. destruct (unmutePending s); split; reflexivity.
  - unfold _scheduleUnmute. simpl. destruct (unmutePending s); split; reflexivity.
  - unfold _onProgress.
    destruct (negb (truthy (duration (video s))) ||
              (List.length (buffered (video s)) =? 0)%nat);
      [split; reflexivity|].
    destruct (nth_error _ _) as [[a b]|]; split; reflexivity.
Qed.

Lemma video_listener_timers (ev : VideoEvent) (s : State) :
  timers_ok s -> timers_ok (video_listener env ev s).
Proof.
  unfold timers_ok. intros H.
  destruct ev; simpl; try exact H.
  - unfold _scheduleUnmute. simpl.
    destruct (unmutePending s) eqn:U; simpl; [rewrite U; exact H|].
    rewrite H. reflexivity.
  - unfold _scheduleUnmute. simpl.
    destruct (unmutePending s) eqn:U; simpl; [rewrite U; exact H|].
    rewrite H. reflexivity.
  - unfold _onProgress.
    destruct (negb (truthy (duration (video s))) ||
              (List.length (buffered (video s)) =? 0)%nat); [exact H|].
    destruct (nth_error _ _) as [[a b]|]; exact H.
Qed.

Lemma fire_timer_timers (k : nat) (s : State) :
  timers_ok s -> timers_ok (fire_timer k s).
Proof.
  unfold timers_ok, fire_timer. intros H.
  destruct (unmutePending s) eqn:U; rewrite H.
  - destruct k as [|k]; simpl.
    + unfold unmute_callback. simpl.
      destruct (negb (paused (video s)) && gt (currentTime (video s)) lit_0_1);
        simpl; rewrite H; reflexivity.
    + destruct k; simpl; rewrite U; exact H.
  - destruct k; simpl; rewrite U; exact H.
Qed.

(** Every input keeps the engine layout and the timer list in shape. *)
Lemma step_ok (inp : Input) (s : State) :
  engines_ok s /\ timers_ok s ->
  engines_ok (step env inp s) /\ timers_ok (step env inp s).
Proof.
  intros [He Ht]. destruct inp as [url title|secs| |ev|i e|i tr n|v|k]; simpl.
  - split; [apply loadVideo_ok; exact He|].
    destruct (loadVideo_layout url title s He) as (_ & H1 & H2).
    unfold timers_ok in *. rewrite H1, H2. exact Ht.
  - unfold seek. destruct (is_finite _); simpl; split; assumption.
  - unfold togglePlayPause. destruct (paused (video s)); split; assumption.
  - destruct (video_listener_engines ev s) as [H1 H2]. split.
    + eapply engines_ok_frame; eassumption.
    + apply video_listener_timers. exact Ht.
  - apply hls_emit_ok. split; assumption.
  - split; [|exact Ht].
    apply with_engine_ok; [apply hls_set_tracks_keeps | exact He].
  - split; assumption.
  - split; [|apply fire_timer_timers; exact Ht].
    unfold fire_timer. destruct (nth_error (timers s) k) as [t|]; [|exact He].
    destruct t as [d []]. simpl. unfold unmute_callback. simpl.
    destruct (negb (paused (video s)) && gt (currentTime (video s)) lit_0_1);
      exact He.
Qed.

Lemma run_ok (inputs : list Input) : forall s,
    engines_ok s /\ timers_ok s ->
    engines_ok (run env inputs s) /\ timers_ok (run env inputs s).
Proof.
  induction inputs as [|inp inputs IH]; intros s H; simpl; [exact H|].
  apply IH, step_ok, H.
Qed.

Lemma reachable_ok (inputs : list Input) :
  engines_ok (run env inputs init) /\ timers_ok (run env inputs init).
Proof. apply run_ok. split; [constructor | reflexivity]. Qed.

End Lifecycle.

(* ------------------------------------------------------------------ *)
(** ** Engine events *)



(** In a reachable state an event of the current engine runs its handler
    once, and an event of any other engine runs nothing. *)
Lemma emit_runs_handler_once (s : State) (e : HlsEmit) :
  engines_ok s ->
  forall k,
    hls_emit k e s
    = if match hlsInstance s with
         | Some i => Nat.eqb k i
         | None => false
         end
      then state_of (handler_of e s) else s.
Proof.
  unfold engines_ok, hls_emit. intros Hok k.
  assert (Hdisp : forall l, Forall disposed l -> forall h,
                    nth_error l k = Some h -> listeners h = []).
  { intros l Hl h Hk. rewrite Forall_forall in Hl.
    apply (Hl h). eapply nth_error_In; eassumption. }
  destruct (hlsInstance s) as [i|].
  - destruct Hok as (old & h & Hh & Hi & Hold & _ & Hl). rewrite Hh.
    destruct (Nat.eqb_spec k i) as [->|Hne].
    + rewrite Hi, nth_error_app2, Nat.sub_diag by lia. simpl. rewrite Hl.
      destruct e; reflexivity.
    + destruct (Nat.lt_ge_cases k (List.length old)) as [Hlt|Hge].
      * rewrite nth_error_app1 by exact Hlt.
        destruct (nth_error old k) as [x|] eqn:E; [|reflexivity].
        rewrite (Hdisp old Hold x E). reflexivity.
      * rewrite nth_error_app2 by exact Hge.
        destruct (k - List.length old)%nat as [|[|n]] eqn:E; simpl;
          try reflexivity. lia.
  - destruct (nth_error (heap s) k) as [x|] eqn:E; [|reflexivity].
    rewrite (Hdisp _ Hok x E). reflexivity.
Qed.


Lemma live_engines_of_layout (s : State) :
  engines_ok s ->
  match hlsInstance s with
  | Some i => exists h, nth_error (heap s) i = Some h /\ live_engines s = [h]
  | None => live_engines s = []
  end.
Proof.
  assert (Hnone : forall l, Forall disposed l ->
                    filter (fun h => negb (destroyed h)) l = []).
  { induction l as [|a l IH]; intros H; [reflexivity|].
    inversion H as [|? ? [Ha _] Hl]; subst. simpl. rewrite Ha. simpl. auto. }
  unfold engines_ok, live_engines. destruct (hlsInstance s) as [i|].
  - intros (old & h & Hh & Hi & Hold & Hlive & _).
    exists h. rewrite Hh, Hi. split.
    + rewrite nth_error_app2, Nat.sub_diag by lia. reflexivity.
    + rewrite filter_app, (Hnone old Hold). simpl. rewrite Hlive. reflexivity.
  - apply Hnone.
Qed.

(** C3. In every state the module can reach there is at most one live
    engine, and no destroyed engine holds a subscription.  A load first
    calls [destroy] on the current engine, before anything else, after which
    no engine is live; it leaves every earlier engine destroyed and without
    subscriptions, and constructs a new one only afterwards, on the HLS.js
    path.  Two loads in a row that go through HLS.js leave exactly one live
    engine, that of the second load, and the first load's engine destroyed
    with no subscription left.  An event that an engine other than the
    current one still emits runs no handler. *)
Theorem one_live_engine (env : Platform) (inputs : list Input)
        (url title : string) :
  let s := run env inputs init in
  let s' := step env (ILoadVideo url title) s in
  let j := List.length (heap s) in
  (List.length (live_engines s) <= 1)%nat /\
  (forall h, In h (heap s) -> destroyed h = true -> listeners h = []) /\
  live_engines (_destroyHls s) = [] /\
  (forall k h, nth_error (heap s) k = Some h ->
     exists h', nth_error (heap s') k = Some h' /\ disposed h') /\
  (exists rest,
      calls s'
      = calls s ++ match hlsInstance s with
                   | Some i => [CDestroy i; CVideoLoad]
                   | None => [CVideoLoad]
                   end ++ rest /\
      if engine_path env url
      then rest = [CNewHls j; CLoadSource j url; CAttachMedia j;
                   COn j MANIFEST_PARSED; COn j ERROR;
                   COn j AUDIO_TRACK_LOADED]
      else forall k, ~ In (CNewHls k) rest) /\
  (forall url2 title2,
      engine_path env url = true -> engine_path env url2 = true ->
      let s'' := step env (ILoadVideo url2 title2) s' in
      nth_error (heap s'') j = Some (hls_destroy (fresh_engine env url)) /\
      disposed (hls_destroy (fresh_engine env url)) /\
      hlsInstance s'' = Some (S j) /\
      heap s'' = heap (_destroyHls s') ++ [fresh_engine env url2] /\
      live_engines s'' = [fresh_engine env url2]) /\
  (forall k e, hlsInstance s <> Some k -> hls_emit k e s = s).
Proof.
  cbv zeta.
  destruct (reachable_ok env inputs) as [Hok _].
  set (s := run env inputs init) in *.
  pose proof (live_engines_of_layout s Hok) as Hlive.
  destruct (destroyHls_layout s Hok) as (Hnull & Hdisp & Hlen & Hcalls & Hold).
  cbv zeta in Hold.
  destruct (loadVideo_layout env url title s Hok) as [Hlay _].
  pose proof (loadVideo_ok env url title s Hok) as Hok'.
  simpl step. set (s' := state_of (loadVideo env url title s)) in *.
  split; [|split; [|split; [|split; [|split; [|split]]]]].
  - destruct (hlsInstance s); [destruct Hlive as (h & _ & ->)|rewrite Hlive];
      simpl; lia.
  - intros h Hin Hd. unfold engines_ok in Hok.
    destruct (hlsInstance s).
    + destruct Hok as (old & h0 & Hh & _ & Hforall & Hl & _).
      rewrite Hh in Hin. apply in_app_or in Hin. destruct Hin as [Hin|[Heq|[]]].
      * rewrite Forall_forall in Hforall. apply (Hforall h Hin).
      * subst h0. congruence.
    + rewrite Forall_forall in Hok. apply (Hok h Hin).
  - assert (Hok0 : engines_ok (_destroyHls s))
      by (unfold engines_ok; rewrite Hnull; exact Hdisp).
    pose proof (live_engines_of_layout _ Hok0) as H0. rewrite Hnull in H0.
    exact H0.
  - intros k h Hk. destruct (Hold k h Hk) as [Hk0 Hd].
    eexists. split; [|exact Hd].
    assert (Hlt : (k < List.length (heap (_destroyHls s)))%nat)
      by (apply nth_error_Some; rewrite Hk0; discriminate).
    destruct (engine_path env url).
    + destruct Hlay as (_ & -> & _). rewrite nth_error_app1 by exact Hlt.
      exact Hk0.
    + destruct Hlay as (_ & -> & _). exact Hk0.
  - destruct (engine_path env url).
    + destruct Hlay as (_ & _ & Hc). eexists. split; [|reflexivity].
      rewrite Hc, Hcalls, <- app_assoc. reflexivity.
    + destruct Hlay as (_ & _ & rest & Hc & Hn). exists rest. split; [|exact Hn].
      rewrite Hc, Hcalls, <- app_assoc. reflexivity.
  - intros url2 title2 E1 E2. rewrite E1 in Hlay.
    destruct Hlay as (Hi' & Hh' & _).
    destruct (destroyHls_layout s' Hok') as (_ & _ & _ & _ & Hold').
    cbv zeta in Hold'.
    destruct (loadVideo_layout env url2 title2 s' Hok') as [Hlay2 _].
    pose proof (loadVideo_ok env url2 title2 s' Hok') as Hok''.
    rewrite E2 in Hlay2. destruct Hlay2 as (Hi'' & Hh'' & _).
    assert (Hj : nth_error (heap s') (List.length (heap s))
                 = Some (fresh_engine env url)).
    { rewrite Hh', <- Hlen, nth_error_app2, Nat.sub_diag by lia. reflexivity. }
    destruct (Hold' _ _ Hj) as [Hj0 Hd0].
    change (destroyed (fresh_engine env url)) with false in Hj0, Hd0.
    cbv iota in Hj0, Hd0.
    assert (Hlen' : List.length (heap s') = S (List.length (heap s))).
    { rewrite Hh', length_app, Hlen. simpl. lia. }
    split; [|split; [exact Hd0|split; [|split; [exact Hh''|]]]].
    + rewrite Hh''. rewrite nth_error_app1; [exact Hj0|].
      apply nth_error_Some. rewrite Hj0. discriminate.
    + rewrite Hi'', Hlen'. reflexivity.
    + pose proof (live_engines_of_layout _ Hok'') as Hl''.
      rewrite Hi'' in Hl''. destruct Hl'' as (h & Hnth & ->).
      rewrite Hh'' in Hnth.
      destruct (destroyHls_layout s' Hok') as (_ & _ & Hlen0 & _ & _).
      rewrite <- Hlen0, nth_error_app2, Nat.sub_diag in Hnth by lia.
      inversion Hnth. reflexivity.
  - intros k e Hk. rewrite (emit_runs_handler_once s e Hok).
    destruct (hlsInstance s) as [i|]; [|reflexivity].
    destruct (Nat.eqb_spec k i); [congruence | reflexivity].
Qed.

(* ------------------------------------------------------------------ *)
(** ** The unmute timer *)

Lemma remove_nth_beyond {A : Type} (l : list A) :
  forall k, nth_error l k = None -> remove_nth k l = l.
Proof.
  induction l as [|a l IH]; intros [|k] H; simpl in *; try reflexivity;
    try discriminate.
  rewrite IH by exact H. reflexivity.
Qed.

Lemma hls_emit_timers (i : nat) (e : HlsEmit) (s : State) :
  timers (hls_emit i e s) = timers s /\
  unmutePending (hls_emit i e s) = unmutePending s.
Proof.
  unfold hls_emit. destruct (nth_error (heap s) i) as [h|]; [|auto].
  generalize (listeners h). intros l. revert s.
  induction l as [|ev l IH]; intros s; simpl; [auto|].
  destruct (IH (if HlsEvent_eqb ev (event_of e)
                then state_of (handler_of e s) else s)) as [H1 H2].
  rewrite H1, H2.
  destruct (HlsEvent_eqb ev (event_of e)); [apply handler_timers | auto].
Qed.

(** How each input changes the list of pending timers. *)
Lemma step_timers (env : Platform) (inp : Input) (s : State) :
  timers (step env inp s) =
  match inp with
  | IVideoEvent Ev_playing | IVideoEvent Ev_play =>
      if unmutePending s then timers s else timers s ++ [unmute_timer]
  | ITimeout k => remove_nth k (timers s)
  | _ => timers s
  end.
Proof.
  destruct inp as [url title|secs| |ev|i e|i tr n|v|k]; simpl.
  - unfold loadVideo.
    assert (H0 : timers (_destroyHls s) = timers s)
      by (unfold _destroyHls; destruct (hlsInstance s); reflexivity).
    destruct (_getExt env url) as [ext|]; [|exact H0].
    destruct (kind_of ext url); unfold _loadHls, hlsInstance_on;
      repeat match goal with
             | |- context [if ?b then _ else _] => destruct b
             | |- context [match hlsInstance ?x with _ => _ end] =>
                 destruct (hlsInstance x)
             end; exact H0.
  - unfold seek. destruct (is_finite _); reflexivity.
  - unfold togglePlayPause. destruct (paused (video s)); reflexivity.
  - destruct ev; simpl; try reflexivity;
      try (unfold _scheduleUnmute; simpl; destruct (unmutePending s); reflexivity).
    unfold _onProgress.
    destruct (negb (truthy (duration (video s))) ||
              (List.length (buffered (video s)) =? 0)%nat); [reflexivity|].
    destruct (nth_error _ _) as [[a b]|]; reflexivity.
  - apply hls_emit_timers.
  - reflexivity.
  - reflexivity.
  - unfold fire_timer. destruct (nth_error (timers s) k) as [t|] eqn:E.
    + destruct t as [d []]. simpl. unfold unmute_callback. simpl.
      destruct (negb (paused (video s)) && gt (currentTime (video s)) lit_0_1);
        reflexivity.
    + symmetry. apply remove_nth_beyond. exact E.
Qed.

(** C9. In every reachable state at most one unmute timer is pending, and
    one is pending exactly when the flag [unmutePending] is up.  A 'playing'
    or 'play' event while one is pending changes neither the timers nor the
    flag; with none pending it schedules one, of 100 ms.  No other input
    adds a timer.  When the timer expires the flag drops, and a muted
    element is unmuted exactly when it is not paused and its position
    exceeds 0.1 s at that moment. *)
Theorem one_unmute_timer (env : Platform) (inputs : list Input) (inp : Input) :
  let s := run env inputs init in
  let s' := step env inp s in
  (List.length (unmute_timers s) <= 1)%nat /\
  unmute_timers s = timers s /\
  (unmutePending s = true <-> timers s = [unmute_timer]) /\
  (unmutePending s = false <-> timers s = []) /\
  delay unmute_timer = 100 /\
  (inp = IVideoEvent Ev_playing \/ inp = IVideoEvent Ev_play ->
   (unmutePending s = true ->
    timers s' = timers s /\ unmutePending s' = true /\ calls s' = calls s) /\
   (unmutePending s = false ->
    timers s' = [unmute_timer] /\ unmutePending s' = true /\
    calls s' = calls s ++ [CSetTimeout 100])) /\
  ((List.length (timers s) < List.length (timers s'))%nat ->
   inp = IVideoEvent Ev_playing \/ inp = IVideoEvent Ev_play) /\
  (forall k, inp = ITimeout k -> (k < List.length (timers s))%nat ->
     timers s' = [] /\ unmutePending s' = false /\
     (muted (video s) = true ->
      (muted (video s') = false <->
       paused (video s) = false /\
       gt (currentTime (video s)) lit_0_1 = true))).
Proof.
  cbv zeta.
  destruct (reachable_ok env inputs) as [_ Ht].
  set (s := run env inputs init) in *.
  unfold timers_ok in Ht.
  assert (Hall : unmute_timers s = timers s).
  { unfold unmute_timers. rewrite Ht. destruct (unmutePending s); reflexivity. }
  split; [|split; [exact Hall|split; [|split; [|split; [reflexivity|split; [|split]]]]]].
  - rewrite Hall, Ht. destruct (unmutePending s); simpl; lia.
  - rewrite Ht. destruct (unmutePending s); split; intros; try discriminate; reflexivity.
  - rewrite Ht. destruct (unmutePending s); split; intros; try discriminate; reflexivity.
  - intros Hinp. split; intros U.
    + destruct Hinp as [-> | ->]; simpl; unfold _scheduleUnmute; simpl;
        rewrite U; auto.
    + destruct Hinp as [-> | ->]; simpl; unfold _scheduleUnmute; simpl;
        rewrite U; simpl; rewrite Ht, U; auto.
  - rewrite (step_timers env inp s).
    destruct inp as [url title|secs| |ev|i e|i tr n|v|k]; try lia.
    + destruct ev; try lia; auto.
    + rewrite Ht. destruct (unmutePending s); destruct k as [|[|k]]; simpl; lia.
  - intros k -> Hk. rewrite Ht in Hk.
    destruct (unmutePending s) eqn:U; simpl in Hk; [|lia].
    assert (k = 0)%nat by lia. subst k.
    simpl. unfold fire_timer. rewrite Ht. simpl. unfold unmute_callback. simpl.
    destruct (paused (video s)), (gt (currentTime (video s)) lit_0_1); simpl;
      rewrite ?Ht; (split; [reflexivity|]; split; [reflexivity|]);
      intros M; rewrite ?M; split; intros H; try discriminate;
      try reflexivity; try (destruct H; discriminate); auto.
Qed.
(** *** Engine errors *)

(** C2. With an engine in place, the ERROR handler makes exactly one call
    per fatal error: [startLoad] on the engine for a network error,
    [recoverMediaError] for a media error, and for every other type
    [showError] with 'HLS fatal error: ' followed by the detail string, or
    by 'unknown' when there is none; that message is then on display.  A
    non-fatal error leaves the whole state as it was.  In a reachable state
    an ERROR event of the current engine runs the handler exactly once. *)
Theorem fatal_error_one_action (s : State) (i : nat) (data : ErrorData) :
  hlsInstance s = Some i ->
  let s' := state_of (on_ERROR data s) in
  (fatal data = true -> type data = NETWORK_ERROR ->
   on_ERROR data s = Done s' /\ s' = call (CStartLoad i) s /\
   new_calls s s' = [CStartLoad i]) /\
  (fatal data = true -> type data = MEDIA_ERROR ->
   on_ERROR data s = Done s' /\ s' = call (CRecoverMediaError i) s /\
   new_calls s s' = [CRecoverMediaError i]) /\
  (fatal data = true ->
   type data <> NETWORK_ERROR -> type data <> MEDIA_ERROR ->
   exists msg,
     on_ERROR data s = Done s' /\
     new_calls s s' = [CShowError msg] /\
     errorActive (ui s') = true /\ errorMsg (ui s') = msg /\
     heap s' = heap s /\
     (forall d, details data = Some d -> d <> EmptyString ->
        msg = ("HLS fatal error: " ++ d)%string /\ includes d msg = true) /\
     (details data = None \/ details data = Some EmptyString ->
        msg = "HLS fatal error: unknown"%string)) /\
  (fatal data = false -> on_ERROR data s = Done s /\ new_calls s s' = []) /\
  (forall env inputs,
      run env inputs init = s -> hls_emit i (EmitError data) s = s').
Proof.
  intros Hi. cbv zeta. unfold on_ERROR. rewrite Hi.
  assert (Hnew : forall c, new_calls s (call c s) = [c]).
  { intros c. unfold new_calls, call. simpl.
    rewrite skipn_app, skipn_all, Nat.sub_diag. reflexivity. }
  assert (Hnone : new_calls s s = []).
  { unfold new_calls. apply skipn_all. }
  split; [|split; [|split; [|split]]].
  - intros F T. rewrite F, T. simpl. auto.
  - intros F T. rewrite F, T. simpl. auto.
  - intros F T1 T2. rewrite F.
    exists ("HLS fatal error: " ++ details_or_unknown (details data))%string.
    assert (Hshow : forall m, new_calls s (showError m s) = [CShowError m]).
    { intros m. unfold new_calls, showError, hideSpinner, with_ui, call. simpl.
      rewrite skipn_app, skipn_all, Nat.sub_diag. reflexivity. }
    destruct (type data); try congruence;
      (split; [reflexivity|]; split; [apply Hshow|];
       split; [reflexivity|]; split; [reflexivity|]; split; [reflexivity|];
       split;
       [ intros d Hd Hne; rewrite Hd; unfold details_or_unknown;
         destruct (String.eqb_spec d EmptyString); [congruence|];
         split; [reflexivity | apply includes_suffix]
       | intros [Hd|Hd]; rewrite Hd; reflexivity ]).
  - intros F. rewrite F. simpl. auto.
  - intros env inputs Hrun.
    destruct (reachable_ok env inputs) as [Hok _]. rewrite Hrun in Hok.
    rewrite (emit_runs_handler_once s _ Hok), Hi, Nat.eqb_refl.
    unfold handler_of, on_ERROR. rewrite Hi. reflexivity.
Qed.


(* ------------------------------------------------------------------ *)
(** ** The statements at work *)

(** The relative URL [clips/movie.MPD?v=1.2] is played as a progressive
    file, the absolute one with the same path and query as DASH. *)
Lemma resolver_reads_dot_of_query_witness :
  _getExt sample_platform "clips/movie.MPD?v=1.2" = Normal (Some "2"%string) /\
  classify sample_platform "clips/movie.MPD?v=1.2" = Normal Progressive /\
  _getExt sample_platform "https://example.com/clips/movie.MPD?v=1.2"
  = Normal (Some "mpd"%string) /\
  classify sample_platform "https://example.com/clips/movie.MPD?v=1.2"
  = Normal DASH.
Proof.
  destruct (resolver_reads_dot_of_query sample_platform
              "clips/movie" "MPD" "v=1" "2"
              eq_refl eq_refl eq_refl) as (He & Hk & Habs).
  destruct (Habs "https://example.com/"%string "/clips/movie"%string
              eq_refl eq_refl eq_refl) as (Hea & Hka).
  split; [exact He|]. split; [exact Hk|]. split; [exact Hea | exact Hka].
Defined.

(** An upper-case extension is found through the pathname although the
    URL does not contain [.m3u8]. *)
Lemma classify_by_extension_witness :
  classify sample_platform "https://cdn.example.com/live/INDEX.M3U8?token=abc"
  = Normal HLS.
Proof.
  destruct (classify_by_extension sample_platform
              "https://cdn.example.com/live/INDEX.M3U8?token=abc")
    as [(ext & _ & Hpath & Hhls & _) _].
  apply Hhls. left.
  change (Normal (Some "m3u8"%string) = Normal (Some ext)) in Hpath.
  inversion Hpath. reflexivity.
Defined.

(** A fatal network error on a running HLS session: one [startLoad]. *)
Lemma fatal_error_one_action_witness :
  new_calls (hls_session [] (-1))
    (step sample_platform
       (IHlsEvent 0 (EmitError {| fatal := true; type := NETWORK_ERROR;
                                  details := Some "manifestLoadError"%string |}))
       (hls_session [] (-1)))
  = [CStartLoad 0%nat].
Proof.
  destruct (fatal_error_one_action (hls_session [] (-1)) 0
              {| fatal := true; type := NETWORK_ERROR;
                 details := Some "manifestLoadError"%string |} eq_refl)
    as (Hnet & _ & _ & _ & Hemit).
  destruct (Hnet eq_refl eq_refl) as (_ & _ & Hcalls).
  simpl step.
  rewrite (Hemit sample_platform
             [ILoadVideo "https://cdn.example.com/live/index.m3u8" "Live";
              IHlsTracks 0 (Some []) (-1)] eq_refl).
  exact Hcalls.
Defined.

(** Two HLS loads in a row. *)
Lemma one_live_engine_witness :
  let s := run sample_platform
             [ILoadVideo "https://cdn.example.com/a/index.m3u8" "One";
              ILoadVideo "https://cdn.example.com/b/index.m3u8" "Two"] init in
  live_engines s
  = [fresh_engine sample_platform "https://cdn.example.com/b/index.m3u8"] /\
  nth_error (heap s) 0
  = Some (hls_destroy
            (fresh_engine sample_platform "https://cdn.example.com/a/index.m3u8")).
Proof.
  destruct (one_live_engine sample_platform []
              "https://cdn.example.com/a/index.m3u8" "One")
    as (_ & _ & _ & _ & _ & Htwo & _).
  destruct (Htwo "https://cdn.example.com/b/index.m3u8" "Two"%string
              eq_refl eq_refl) as (Hfirst & _ & _ & _ & Hlive).
  split; [exact Hlive | exact Hfirst].
Defined.



(** 'playing' then 'play': one timer. *)
Lemma one_unmute_timer_witness :
  timers (run sample_platform
            [IVideoEvent Ev_playing; IVideoEvent Ev_play] init)
  = [unmute_timer].
Proof.
  destruct (one_unmute_timer sample_platform [IVideoEvent Ev_playing]
              (IVideoEvent Ev_play))
    as (_ & _ & _ & _ & _ & Hplay & _).
  destruct (Hplay (or_intror eq_refl)) as [Hpending _].
  destruct (Hpending eq_refl) as (Ht & _).
  exact Ht.
Defined.

(** *** Checks of the model on concrete inputs *)

Example classify_mp4 :
  classify sample_platform "https://example.com/media/video.mp4"
  = Normal Progressive.
Proof. reflexivity. Qed.

Example classify_bare_words :
  classify sample_platform "mpd" = Normal DASH /\
  classify sample_platform "M3U8" = Normal HLS.
Proof. split; reflexivity. Qed.

Example classify_relative_mpd :
  classify sample_platform "clips/movie.MPD?session=7" = Normal DASH.
Proof. reflexivity. Qed.

Example classify_signed_path :
  classify sample_platform "https://cdn.example.com/play?src=.m3u8&sig=k.9"
  = Normal HLS.
Proof. reflexivity. Qed.

Example classify_no_extension :
  classify sample_platform "not a url" = Normal Progressive.
Proof. reflexivity. Qed.

Example literal_one_tenth : div (of_Z 1) (of_Z 10) = lit_0_1.
Proof. reflexivity. Qed.

Example seek_inside :
  seek_target (video_at (of_Z 50) (Num (of_Z 120))) (of_Z 10) = of_Z 60.
Proof. reflexivity. Qed.

Example buffer_ahead_outside :
  _getBufferAhead
    (video (with_buffered [(of_Z 5, of_Z 20)]
              (state_at (of_Z 30) (Num (of_Z 120)))))
  = None.
Proof. reflexivity. Qed.

(** The timer expires too early in playback: the element stays muted. *)
Example unmute_needs_progress :
  let s := run sample_platform
             [IVideoChange (video_at lit_0_1 (Num (of_Z 120)));
              IVideoEvent Ev_playing; ITimeout 0] init in
  muted (video s) = true /\ unmutePending s = false /\ timers s = [].
Proof. repeat split. Qed.

Example unmute_after_progress :
  muted (video (run sample_platform
                  [IVideoChange (video_at (of_Z 1) (Num (of_Z 120)));
                   IVideoEvent Ev_playing; ITimeout 0] init))
  = false.
Proof. reflexivity. Qed.

(** A progressive load plays unmuted and builds no engine. *)
Example progressive_load :
  let s := run sample_platform
             [ILoadVideo "https://example.com/media/video.mp4" EmptyString] init in
  muted (video s) = false /\ heap s = [] /\
  src (video s) = Some "https://example.com/media/video.mp4"%string /\
  playerTitle (ui s) = "Untitled"%string /\
  spinnerActive (ui s) = true.
Proof. repeat split. Qed.

(* ------------------------------------------------------------------ *)
(** ** HTML escaping *)

Section Escaping.

Import Html.

(** The four replacements amount to one pass over the characters: the
    ampersands that the later replacements write are never escaped again. *)
Lemma escHtml_cons (c : ascii) (s : string) :
  escHtml (String c s) = (esc_char c ++ escHtml s)%string.
Proof.
  unfold escHtml, esc_char. cbn [replace_all].
  destruct (Ascii.eqb_spec c "&") as [->|Hamp]; [reflexivity|].
  cbn [replace_all].
  destruct (Ascii.eqb_spec c "<") as [->|Hlt]; [reflexivity|].
  cbn [replace_all].
  destruct (Ascii.eqb_spec c ">") as [->|Hgt]; [reflexivity|].
  cbn [replace_all].
  destruct (Ascii.eqb_spec c quot) as [->|Hq]; reflexivity.
Qed.

Lemma esc_char_plain (c : ascii) :
  is_special c = false -> esc_char c = String c EmptyString.
Proof.
  unfold is_special, esc_char.
  destruct (Ascii.eqb c "&"), (Ascii.eqb c "<"), (Ascii.eqb c ">"),
    (Ascii.eqb c quot); simpl; intros H; try discriminate; reflexivity.
Qed.

Lemma esc_char_special (c : ascii) :
  is_special c = true ->
  exists body : string,
    esc_char c = String "&" body /\ In (String "&" body) entities.
Proof.
  unfold is_special, esc_char, entities.
  destruct (Ascii.eqb c "&"); [intros _; eexists; split; [reflexivity|]; simpl; auto|].
  destruct (Ascii.eqb c "<"); [intros _; eexists; split; [reflexivity|]; simpl; auto|].
  destruct (Ascii.eqb c ">"); [intros _; eexists; split; [reflexivity|]; simpl; auto|].
  destruct (Ascii.eqb c quot); [intros _; eexists; split; [reflexivity|]; simpl; auto 6|].
  discriminate.
Qed.

End Escaping.

(** X1. Whatever the input, the text that [escHtml] returns is a sequence
    of characters other than ampersand, less-than, greater-than and double
    quote, and of the four entities: it contains no less-than, greater-than
    or double quote at all. *)
Theorem escHtml_output_is_escaped (s : string) :
  escaped (Html.escHtml s) /\
  has_char "<" (Html.escHtml s) = false /\
  has_char ">" (Html.escHtml s) = false /\
  has_char Html.quot (Html.escHtml s) = false.
Proof.
  induction s as [|c s (IHe & IHl & IHg & IHq)].
  - repeat split; constructor.
  - rewrite escHtml_cons.
    destruct (is_special c) eqn:E.
    + destruct (esc_char_special c E) as (body & Hc & Hin).
      rewrite Hc. split; [rewrite <- Hc; apply esc_entity; [rewrite Hc; exact Hin | exact IHe]|].
      unfold entities in Hin. simpl in Hin.
      destruct Hin as [H|[H|[H|[H|[]]]]]; inversion H; subst body;
        simpl; rewrite ?IHl, ?IHg, ?IHq; repeat split; reflexivity.
    + rewrite (esc_char_plain c E). split; [apply esc_plain; assumption|].
      unfold is_special in E. simpl.
      destruct (Ascii.eqb c "&"), (Ascii.eqb c "<") eqn:E1, (Ascii.eqb c ">") eqn:E2,
        (Ascii.eqb c Html.quot) eqn:E3; try discriminate.
      rewrite IHl, IHg, IHq. repeat split; reflexivity.
Qed.

Lemma escHtml_head (x y : ascii) (a b : string) :
  Html.escHtml (String x a) = Html.escHtml (String y b) ->
  x = y /\ Html.escHtml a = Html.escHtml b.
Proof.
  rewrite !escHtml_cons. unfold esc_char.
  destruct (Ascii.eqb_spec x "&") as [->|Hx1];
    [|destruct (Ascii.eqb_spec x "<") as [->|Hx2];
      [|destruct (Ascii.eqb_spec x ">") as [->|Hx3];
        [|destruct (Ascii.eqb_spec x Html.quot) as [->|Hx4]]]];
  (destruct (Ascii.eqb_spec y "&") as [->|Hy1];
    [|destruct (Ascii.eqb_spec y "<") as [->|Hy2];
      [|destruct (Ascii.eqb_spec y ">") as [->|Hy3];
        [|destruct (Ascii.eqb_spec y Html.quot) as [->|Hy4]]]]);
  simpl; intros H; inversion H; subst; try (split; [reflexivity | assumption]);
    try (split; reflexivity); try congruence; try (exfalso; auto; fail).
Qed.

(** X2. [escHtml] loses nothing: two different texts never have the same
    escaped form, and a text without ampersand, less-than, greater-than or
    double quote comes out unchanged. *)
Theorem escHtml_injective (a b : string) :
  (Html.escHtml a = Html.escHtml b -> a = b) /\
  (has_char "&" a = false -> has_char "<" a = false ->
   has_char ">" a = false -> has_char Html.quot a = false ->
   Html.escHtml a = a).
Proof.
  split.
  - revert b. induction a as [|x a IH]; intros [|y b] H.
    + reflexivity.
    + exfalso. rewrite escHtml_cons in H. unfold esc_char in H.
      destruct (Ascii.eqb y "&"), (Ascii.eqb y "<"), (Ascii.eqb y ">"),
        (Ascii.eqb y Html.quot); discriminate.
    + exfalso. rewrite escHtml_cons in H. unfold esc_char in H.
      destruct (Ascii.eqb x "&"), (Ascii.eqb x "<"), (Ascii.eqb x ">"),
        (Ascii.eqb x Html.quot); discriminate.
    + destruct (escHtml_head x y a b H) as [-> Hrest].
      f_equal. apply IH. exact Hrest.
  - induction a as [|x a IH]; intros H1 H2 H3 H4; [reflexivity|].
    simpl in H1, H2, H3, H4.
    apply orb_false_iff in H1, H2, H3, H4.
    destruct H1 as [E1 H1], H2 as [E2 H2], H3 as [E3 H3], H4 as [E4 H4].
    rewrite escHtml_cons, esc_char_plain, IH by
      (try assumption; unfold is_special; rewrite E1, E2, E3, E4; reflexivity).
    reflexivity.
Qed.

Lemma escHtml_injective_witness :
  Html.escHtml "Tom & Jerry <HD>" = "Tom &amp; Jerry &lt;HD&gt;"%string /\
  Html.escHtml "intro.mp4" = "intro.mp4"%string.
Proof.
  split; [reflexivity|].
  apply (proj2 (escHtml_injective "intro.mp4" EmptyString)); reflexivity.
Defined.

(* ------------------------------------------------------------------ *)
(** ** localStorage and the theme *)

Section Storage.

Import Store.

Context {V : Type}.

Lemma getItem_setItem_same (k : string) (v : V) (st : list (string * V)) :
  getItem k (setItem k v st) = Some v.
Proof.
  induction st as [|[k' v'] st IH]; simpl.
  - rewrite String.eqb_refl. reflexivity.
  - destruct (String.eqb k' k) eqn:E; simpl; rewrite E; [reflexivity | exact IH].
Qed.

Lemma getItem_setItem_other (k k' : string) (v : V) (st : list (string * V)) :
  k' <> k -> getItem k' (setItem k v st) = getItem k' st.
Proof.
  intros Hne. induction st as [|[k0 v0] st IH]; simpl.
  - destruct (String.eqb_spec k k'); [congruence | reflexivity].
  - destruct (String.eqb_spec k0 k) as [->|Hk]; simpl.
    + destruct (String.eqb_spec k k'); [congruence | reflexivity].
    + destruct (String.eqb k0 k'); [reflexivity | exact IH].
Qed.

Lemma setItem_setItem (k : string) (v w : V) (st : list (string * V)) :
  setItem k w (setItem k v st) = setItem k w st.
Proof.
  induction st as [|[k0 v0] st IH]; simpl.
  - rewrite String.eqb_refl. reflexivity.
  - destruct (String.eqb k0 k) eqn:E; simpl; rewrite E; [reflexivity|].
    rewrite IH. reflexivity.
Qed.

Lemma setItem_same (k : string) (v : V) (st : list (string * V)) :
  getItem k st = Some v -> setItem k v st = st.
Proof.
  induction st as [|[k0 v0] st IH]; simpl; [discriminate|].
  destruct (String.eqb k0 k) eqn:E.
  - intros H. inversion H. reflexivity.
  - intros H. rewrite (IH H). reflexivity.
Qed.

End Storage.

Lemma toggle_click_settles (p : Theme.Page) :
  exists t, theme_settled (Theme.toggle_click p) t.
Proof.
  unfold theme_settled, Theme.toggle_click. simpl.
  destruct (String.eqb (Theme.or_default (Theme.data_theme p) "dark") "dark").
  - exists "light"%string. rewrite getItem_setItem_same. auto.
  - exists "dark"%string. rewrite getItem_setItem_same. auto.
Qed.

Lemma clicks_settle (n : nat) (p : Theme.Page) :
  exists t, theme_settled (Theme.clicks (S n) p) t.
Proof. simpl. apply toggle_click_settles. Qed.

Lemma clicks_keep_other_keys (n : nat) (p : Theme.Page) (k : string) :
  k <> "xstream_theme"%string ->
  Store.getItem k (Theme.store (Theme.clicks n p)) = Store.getItem k (Theme.store p).
Proof.
  intros Hk. induction n as [|n IH]; [reflexivity|].
  simpl. rewrite getItem_setItem_other by exact Hk. exact IH.
Qed.

(** X3. Once the toggle has been clicked, however often, the theme on the
    page is 'dark' or 'light', the storage holds that same theme under
    'xstream_theme', and a reload of the page applies it again; no other key
    of the storage is touched. *)
Theorem theme_survives_reload (p : Theme.Page) (n : nat) :
  let q := Theme.clicks (S n) (Theme.initTheme p) in
  exists t,
    (t = "dark"%string \/ t = "light"%string) /\
    Theme.data_theme q = Some t /\
    Store.getItem "xstream_theme" (Theme.store q) = Some t /\
    Theme.data_theme (Theme.reload q) = Some t /\
    forall k, k <> "xstream_theme"%string ->
              Store.getItem k (Theme.store q) = Store.getItem k (Theme.store p).
Proof.
  cbv zeta.
  destruct (clicks_settle n (Theme.initTheme p)) as (t & Ht & Hd & Hs).
  pose proof (fun k Hk => clicks_keep_other_keys (S n) (Theme.initTheme p) k Hk)
    as Hkeys.
  set (q := Theme.clicks (S n) (Theme.initTheme p)) in *.
  clearbody q.
  exists t. split; [exact Ht|]. split; [exact Hd|].
  assert (Hg : Store.getItem "xstream_theme" (Theme.store q) = Some t)
    by exact Hs.
  split; [exact Hg|]. split.
  - unfold Theme.reload, Theme.initTheme, Theme._applyTheme.
    cbn [Theme.store Theme.data_theme]. rewrite Hg.
    destruct Ht as [-> | ->]; reflexivity.
  - intros k Hk. rewrite Hkeys by exact Hk. reflexivity.
Qed.

(** X4. The toggle alternates between the two themes: from a page that has
    been clicked at least once, one more click changes the theme and two
    more clicks restore the page exactly, theme and storage.  The first
    click after loading gives 'light' when the applied theme was 'dark' and
    'dark' for anything else, whatever the storage held. *)
Theorem theme_toggle_alternates (p : Theme.Page) (n : nat) :
  let q := Theme.clicks (S n) (Theme.initTheme p) in
  Theme.toggle_click (Theme.toggle_click q) = q /\
  Theme.data_theme (Theme.toggle_click q) <> Theme.data_theme q /\
  Theme.data_theme (Theme.toggle_click (Theme.initTheme p))
  = Some (if String.eqb
               (Theme.or_default
                  (Store.getItem "xstream_theme" (Theme.store p)) "dark")
               "dark"
          then "light"%string else "dark"%string).
Proof.
  cbv zeta.
  destruct (clicks_settle n (Theme.initTheme p)) as (t & Ht & Hd & Hs).
  set (q := Theme.clicks (S n) (Theme.initTheme p)) in *.
  clearbody q.
  split; [|split].
  - destruct q as [d st]. simpl in Hd, Hs. subst d.
    unfold Theme.toggle_click. simpl.
    destruct Ht as [-> | ->]; simpl; rewrite setItem_setItem, (setItem_same _ _ _ Hs);
      reflexivity.
  - unfold Theme.toggle_click. simpl. rewrite Hd.
    destruct Ht as [-> | ->]; simpl; discriminate.
  - unfold Theme.toggle_click, Theme.initTheme, Theme._applyTheme.
    cbn [Theme.store Theme.data_theme].
    assert (Hor : forall s, s <> EmptyString -> Theme.or_default (Some s) "dark" = s).
    { intros s Hs'. unfold Theme.or_default.
      destruct (String.eqb_spec s EmptyString); [congruence | reflexivity]. }
    assert (Hne : Theme.or_default
                    (Store.getItem "xstream_theme" (Theme.store p)) "dark"
                  <> EmptyString).
    { unfold Theme.or_default.
      destruct (Store.getItem "xstream_theme" (Theme.store p)) as [s|];
        [|discriminate].
      destruct (String.eqb_spec s EmptyString); [discriminate | assumption]. }
    rewrite (Hor _ Hne). reflexivity.
Qed.

(* ------------------------------------------------------------------ *)
(** ** The library *)

Section Catalogue.

Import Store Library.

Variable h : Host.

Lemma same_core_refl (s : Lib) : same_core s s.
Proof. repeat split. Qed.

Lemma same_core_trans (a b c : Lib) :
  same_core a b -> same_core b c -> same_core a c.
Proof.
  unfold same_core. intros (A1 & A2 & A3 & A4 & A5 & A6) (B1 & B2 & B3 & B4 & B5 & B6).
  repeat split; congruence.
Qed.

Lemma showToast_core (msg type : string) (s : Lib) :
  same_core s (showToast msg type s).
Proof. repeat split. Qed.

Lemma updateCard_core (i : Z) (s : Lib) : same_core s (_updateCard h i s).
Proof. unfold _updateCard. destruct (listView s); repeat split. Qed.

Lemma loadMeta_core (i : Z) (u : string) (s : Lib) :
  same_core s (lib_of (_loadMeta h i u s)).
Proof.
  unfold _loadMeta.
  destruct (m_hasLoaded _); [repeat split|].
  destruct (_getExt (platform h) u) as [ext|]; [|repeat split].
  destruct (is_stream_ext ext); repeat split.
Qed.

Lemma load_missing_meta_core (vs : list Entry) : forall s,
    same_core s (lib_of (load_missing_meta h vs s)).
Proof.
  induction vs as [|v vs IH]; intros s; simpl; [apply same_core_refl|].
  destruct (meta_get (id v) (metaCache s)); [apply IH|].
  pose proof (loadMeta_core (id v) (url v) s) as H1.
  destruct (_loadMeta h (id v) (url v) s) as [s'|e s']; simpl in H1.
  - eapply same_core_trans; [exact H1 | apply IH].
  - exact H1.
Qed.

Lemma render_core (s : Lib) : same_core s (lib_of (render h s)).
Proof.
  unfold render.
  destruct (Nat.eqb (List.length (videos s)) 0); [repeat split|].
  destruct (cards_from h s 0 (videos s)) as [cs|e]; [|repeat split].
  eapply same_core_trans; [|apply load_missing_meta_core]. repeat split.
Qed.

Lemma head_response_core (i : Z) (cl : option string) (s : Lib) :
  same_core s (head_response h i cl s).
Proof.
  unfold head_response. destruct cl as [c|]; [|apply same_core_refl].
  destruct (String.eqb c EmptyString); [apply same_core_refl|].
  destruct (gt _ _); [|apply same_core_refl].
  destruct (meta_get i (metaCache s)); [|apply same_core_refl].
  eapply same_core_trans; [|apply updateCard_core]. repeat split.
Qed.

Lemma probe_loadedmetadata_core (k : nat) (d : number) (s : Lib) :
  same_core s (lib_of (probe_loadedmetadata h k d s)).
Proof.
  unfold probe_loadedmetadata.
  destruct (nth_error (probes s) k) as [p|]; [|apply same_core_refl].
  destruct (num_truthy d && is_finite d); [|repeat split].
  destruct (meta_get (p_entry p) (metaCache s)); [|apply same_core_refl].
  simpl. unfold release_probe.
  pose proof (updateCard_core (p_entry p)
                (set_metaCache
                   (meta_set (p_entry p)
                      {| m_duration := Some d; m_size := m_size m;
                         m_hasLoaded := m_hasLoaded m |} (metaCache s)) s)) as H.
  destruct H as (H1 & H2 & H3 & H4 & H5 & H6). repeat split; assumption.
Qed.

Lemma fire_core (hd : nat) (s : Lib) : same_core s (fire hd s).
Proof.
  unfold fire. destruct (find _ (pending s)) as [[n [d job]]|]; [|apply same_core_refl].
  destruct job; repeat split.
Qed.

End Catalogue.

Section Actions.

Import Store Library.

Variable h : Host.

Lemma guessFormat_total (u : string) : exists f, _guessFormat h u = Normal f.
Proof.
  unfold _guessFormat.
  destruct (getExt_total (platform h) u) as (ext & He & _). rewrite He.
  destruct (format_map ext); eexists; reflexivity.
Qed.

Lemma cards_from_total (s : Lib) (vs : list Entry) : forall idx,
    exists cs,
      cards_from h s idx vs = Normal cs /\
      map card_id cs = map id vs /\
      map card_title cs = map (fun v => Html.escHtml (title v)) vs /\
      Forall (fun c => exists f, card_format c = Html.escHtml (format_text h f)) cs.
Proof.
  induction vs as [|v vs IH]; intros idx; simpl.
  - exists []. repeat split. constructor.
  - unfold card_of. destruct (guessFormat_total (url v)) as [f Hf]. rewrite Hf.
    destruct (IH (S idx)) as (cs & -> & Hid & Ht & Hfm).
    eexists. split; [reflexivity|]. simpl. rewrite Hid, Ht.
    repeat split. constructor; [exists f; reflexivity | exact Hfm].
Qed.

Lemma same_view_trans (a b c : Lib) :
  same_view a b -> same_view b c -> same_view a c.
Proof.
  unfold same_view.
  intros (A1 & A2 & A3 & A4 & A5 & A6) (B1 & B2 & B3 & B4 & B5 & B6).
  repeat split; congruence.
Qed.

Lemma loadMeta_returns (i : Z) (u : string) (s : Lib) :
  exists s', _loadMeta h i u s = Returned s' /\ same_view s s'.
Proof.
  unfold _loadMeta.
  destruct (m_hasLoaded _); [eexists; repeat split|].
  destruct (getExt_total (platform h) u) as (ext & He & _). rewrite He.
  destruct (is_stream_ext (Some ext)); eexists; repeat split.
Qed.

Lemma load_missing_meta_returns (vs : list Entry) : forall s,
    exists s', load_missing_meta h vs s = Returned s' /\ same_view s s'.
Proof.
  induction vs as [|v vs IH]; intros s; simpl.
  - exists s. repeat split.
  - destruct (meta_get (id v) (metaCache s)); [apply IH|].
    destruct (loadMeta_returns (id v) (url v) s) as (s1 & -> & H1).
    destruct (IH s1) as (s2 & -> & H2).
    exists s2. split; [reflexivity|]. eapply same_view_trans; eassumption.
Qed.

(** [render] returns; the list it leaves shows the library, the badge
    counts it and the clear button is there when there is something to
    clear.  The toast is not touched. *)
Lemma render_returns (s : Lib) :
  exists s', render h s = Returned s' /\ view_shows s' /\
             toastText s' = toastText s /\ toastClass s' = toastClass s /\
             toastTimer s' = toastTimer s /\
             clearAllShown s' = negb (Nat.eqb (List.length (videos s)) 0) /\
             countBadge s'
             = (str h (of_Z (Z.of_nat (List.length (videos s)))) ++ " video" ++
                (if Nat.eqb (List.length (videos s)) 1
                 then EmptyString else "s"))%string.
Proof.
  pose proof (render_core h s) as Hcore.
  unfold render in *.
  destruct (videos s) as [|v vs] eqn:Hv.
  - simpl. eexists. split; [reflexivity|]. unfold view_shows. simpl. rewrite Hv.
    repeat split.
  - cbn [List.length Nat.eqb] in *.
    destruct (cards_from_total s (v :: vs) 0) as (cs & Hc & Hid & Ht & _).
    rewrite Hc in *.
    match goal with
    | |- context [load_missing_meta h ?l ?st] =>
        destruct (load_missing_meta_returns l st)
          as (s2 & Hr & G1 & G2 & G3 & G4 & G5 & G6);
        rewrite Hr in *
    end.
    exists s2. split; [reflexivity|]. simpl in Hcore.
    destruct Hcore as (Hvid & _).
    split.
    + unfold view_shows. rewrite Hvid, Hv. exists cs. rewrite G1. simpl.
      repeat split; assumption.
    + rewrite G2, G3, G4, G5, G6. repeat split.
Qed.

Lemma save_saved (s : Lib) : saved h (_save h s).
Proof.
  unfold saved, _save, load_videos. simpl.
  rewrite getItem_setItem_other by discriminate.
  rewrite getItem_setItem_same. reflexivity.
Qed.

Lemma saved_frame (s s' : Lib) : same_core s s' -> saved h s -> saved h s'.
Proof.
  unfold saved. intros (Hv & _ & _ & Hs & _) H. rewrite Hv, Hs. exact H.
Qed.

Lemma view_frame (s s' : Lib) :
  videos s' = videos s -> listView s' = listView s ->
  view_shows s -> view_shows s'.
Proof. unfold view_shows. intros -> ->. exact (fun H => H). Qed.

(** What [addVideo] does, refused or accepted. *)
Lemma addVideo_effect (n1 n2 : Z) (s : Lib) :
  let u := String_trim h (urlInput s) in
  exists s',
    addVideo h n1 n2 s = Returned s' /\
    if accepts h s then
      videos s' = {| id := n1; title := new_title h s u; url := u;
                     addedAt := n2 |} :: videos s /\
      unknownCount s' = (if no_title (extractTitle h u)
                         then add (unknownCount s) (of_Z 1)
                         else unknownCount s) /\
      activeId s' = activeId s /\ player s' = player s /\
      urlInput s' = EmptyString /\ saved h s' /\ view_shows s' /\
      toastText s' = ("Added: " ++ new_title h s u)%string /\
      toastClass s' = "toast show success"%string
    else
      s' = showToast
             (if String.eqb u EmptyString
              then "Please enter a video URL."
              else "This URL is already in your library.") "error" s.
Proof.
  cbv zeta. unfold accepts, addVideo.
  destruct (String.eqb (String_trim h (urlInput s)) EmptyString) eqn:E1;
    [eexists; split; reflexivity|].
  destruct (existsb _ (videos s)) eqn:E2; [eexists; split; reflexivity|].
  cbn [negb andb].
  set (u := String_trim h (urlInput s)) in *.
  assert (Ht : match extractTitle h u with
               | Some x =>
                   if no_title (extractTitle h u)
                   then ("Untitled Stream " ++
                         str h (unknownCount
                                  (if no_title (extractTitle h u)
                                   then set_unknownCount
                                          (add (unknownCount s) (of_Z 1)) s
                                   else s)))%string
                   else x
               | None =>
                   ("Untitled Stream " ++
                    str h (unknownCount
                             (if no_title (extractTitle h u)
                              then set_unknownCount
                                     (add (unknownCount s) (of_Z 1)) s
                              else s)))%string
               end = new_title h s u).
  { unfold new_title, untitled. destruct (extractTitle h u) as [x|]; simpl;
      [destruct (Fmt.utf16_length x <? 2)%nat|]; reflexivity. }
  rewrite Ht. clear Ht.
  set (t := new_title h s u).
  set (s0 := if no_title (extractTitle h u)
             then set_unknownCount (add (unknownCount s) (of_Z 1)) s else s).
  set (entry := {| id := n1; title := t; url := u; addedAt := n2 |}).
  set (s1 := set_urlInput EmptyString (_save h (set_videos (entry :: videos s0) s0))).
  destruct (render_returns s1) as (s2 & Hr & Hview & Ht1 & Ht2 & Ht3 & _).
  pose proof (render_core h s1) as Hc1. rewrite Hr in *. simpl in Hc1.
  cbn [then_].
  destruct (loadMeta_returns n1 u (showToast ("Added: " ++ t) "success" s2))
    as (s3 & Hl & Hv3).
  pose proof (loadMeta_core h n1 u (showToast ("Added: " ++ t) "success" s2)) as Hc3.
  rewrite Hl in *. simpl in Hc3.
  exists s3. split; [reflexivity|].
  destruct Hc1 as (A1 & A2 & A3 & A4 & A5 & A6).
  destruct Hc3 as (B1 & B2 & B3 & B4 & B5 & B6).
  destruct Hv3 as (V1 & V2 & V3 & V4 & V5 & V6).
  assert (Hs0 : videos s0 = videos s /\ activeId s0 = activeId s /\
                player s0 = player s)
    by (unfold s0; destruct (no_title (extractTitle h u)); repeat split).
  destruct Hs0 as (S1 & S2 & S3).
  split; [rewrite B1; simpl; rewrite A1; unfold s1; simpl; rewrite S1; reflexivity|].
  split; [rewrite B2; simpl; rewrite A2; unfold s1, s0; simpl;
          destruct (no_title (extractTitle h u)); reflexivity|].
  split; [rewrite B3; simpl; rewrite A3; unfold s1; simpl; exact S2|].
  split; [rewrite B6; simpl; rewrite A6; unfold s1; simpl; exact S3|].
  split; [rewrite B5; simpl; rewrite A5; reflexivity|].
  split.
  { unfold saved. rewrite B1, B4. simpl. rewrite A1, A4.
    unfold s1, load_videos. simpl.
    rewrite getItem_setItem_other by discriminate.
    rewrite getItem_setItem_same. reflexivity. }
  split.
  { apply (view_frame s2); [rewrite B1; reflexivity | rewrite V1; reflexivity |
                            exact Hview]. }
  split; [rewrite V4; reflexivity | rewrite V5; reflexivity].
Qed.

End Actions.

Section Effects.

Import Store Library.

Variable h : Host.

Lemma meta_get_set_same (i : Z) (m : Meta) (c : list (Z * Meta)) :
  meta_get i (meta_set i m c) = Some m.
Proof.
  induction c as [|[k w] c IH]; simpl.
  - rewrite Z.eqb_refl. reflexivity.
  - destruct (k =? i)%Z eqn:E; simpl; rewrite E; [reflexivity | exact IH].
Qed.

Lemma meta_get_set_other (i j : Z) (m : Meta) (c : list (Z * Meta)) :
  j <> i -> meta_get i (meta_set j m c) = meta_get i c.
Proof.
  intros Hne. induction c as [|[k w] c IH]; simpl.
  - destruct (j =? i)%Z eqn:E; [apply Z.eqb_eq in E; contradiction | reflexivity].
  - destruct (k =? j)%Z eqn:E; simpl.
    + apply Z.eqb_eq in E. subst k.
      destruct (j =? i)%Z eqn:E2; [apply Z.eqb_eq in E2; contradiction|].
      reflexivity.
    + rewrite IH. reflexivity.
Qed.

Lemma meta_get_delete (i : Z) (c : list (Z * Meta)) :
  meta_get i (meta_delete i c) = None.
Proof.
  induction c as [|[k w] c IH]; simpl; [reflexivity|].
  destruct (k =? i)%Z eqn:E; simpl; [exact IH | rewrite E; exact IH].
Qed.

Lemma updateCard_meta (i : Z) (s : Lib) : metaCache (_updateCard h i s) = metaCache s.
Proof. unfold _updateCard. destruct (listView s); reflexivity. Qed.

Lemma loadMeta_meta_other (i j : Z) (u : string) (s : Lib) :
  j <> i ->
  meta_get i (metaCache (lib_of (_loadMeta h j u s))) = meta_get i (metaCache s).
Proof.
  intros Hne. unfold _loadMeta.
  destruct (m_hasLoaded _); simpl; [apply meta_get_set_other; exact Hne|].
  destruct (_getExt (platform h) u) as [ext|]; simpl.
  - destruct (is_stream_ext ext); simpl;
      rewrite !meta_get_set_other by exact Hne; reflexivity.
  - rewrite !meta_get_set_other by exact Hne; reflexivity.
Qed.

Lemma load_missing_meta_other (i : Z) (vs : list Entry) : forall s,
    (forall v, In v vs -> id v <> i) ->
    meta_get i (metaCache (lib_of (load_missing_meta h vs s)))
    = meta_get i (metaCache s).
Proof.
  induction vs as [|v vs IH]; intros s Hall; simpl; [reflexivity|].
  assert (Hv : id v <> i) by (apply Hall; left; reflexivity).
  assert (Hrest : forall w, In w vs -> id w <> i)
    by (intros w Hw; apply Hall; right; exact Hw).
  destruct (meta_get (id v) (metaCache s)); [apply IH; exact Hrest|].
  pose proof (loadMeta_meta_other i (id v) (url v) s Hv) as H1.
  destruct (_loadMeta h (id v) (url v) s) as [s'|e s']; simpl in *.
  - rewrite IH by exact Hrest. exact H1.
  - exact H1.
Qed.

Lemma render_meta_other (i : Z) (s : Lib) :
  unknown_id i s ->
  meta_get i (metaCache (lib_of (render h s))) = meta_get i (metaCache s).
Proof.
  intros Hall. unfold render.
  destruct (Nat.eqb (List.length (videos s)) 0); [reflexivity|].
  destruct (cards_from h s 0 (videos s)) as [cs|e]; [|reflexivity].
  rewrite load_missing_meta_other by exact Hall. reflexivity.
Qed.

Lemma filter_out_id (i : Z) (vs : list Entry) :
  forall v, In v (filter (fun v => negb (id v =? i)%Z) vs) -> id v <> i.
Proof.
  intros v Hv. apply filter_In in Hv. destruct Hv as [_ Hv].
  apply negb_true_iff in Hv. apply Z.eqb_neq in Hv. exact Hv.
Qed.

(** What [deleteVideo] does. *)
Lemma deleteVideo_effect (i : Z) (s : Lib) :
  exists s',
    deleteVideo h i s = Returned s' /\
    videos s' = filter (fun v => negb (id v =? i)%Z) (videos s) /\
    unknownCount s' = unknownCount s /\
    urlInput s' = urlInput s /\
    activeId s' = (if is_active i s then None else activeId s) /\
    player s' = (if is_active i s then put_away (player s) else player s) /\
    meta_get i (metaCache s') = None /\
    saved h s' /\ view_shows s' /\
    toastText s' = "Video removed."%string /\
    toastClass s' = "toast show"%string.
Proof.
  unfold deleteVideo. cbv zeta.
  set (s0 := match activeId s with
             | Some a => if (a =? i)%Z then _ else s
             | None => s
             end).
  assert (H0 : videos s0 = videos s /\ unknownCount s0 = unknownCount s /\
               urlInput s0 = urlInput s /\ metaCache s0 = metaCache s /\
               activeId s0 = (if is_active i s then None else activeId s) /\
               player s0 = (if is_active i s then put_away (player s)
                            else player s)).
  { unfold s0, is_active.
    destruct (activeId s) as [a|] eqn:Ea; [|repeat split; exact Ea].
    destruct (a =? i)%Z; repeat split; exact Ea. }
  destruct H0 as (Z1 & Z2 & Z3 & Z4 & Z5 & Z6).
  match goal with |- context [render h ?x] => set (s1 := x) end.
  destruct (render_returns h s1) as (s2 & Hr & Hview & _).
  pose proof (render_core h s1) as Hc. pose proof (render_meta_other i s1) as Hm.
  rewrite Hr in *. simpl in Hc, Hm. cbn [then_].
  eexists. split; [reflexivity|].
  destruct Hc as (A1 & A2 & A3 & A4 & A5 & A6).
  simpl. rewrite A1, A2, A3, A5, A6. unfold s1 at 1 2 3 4 5. simpl.
  rewrite Z1, Z2, Z3.
  repeat split; try assumption.
  - rewrite Hm.
    + unfold s1. simpl. apply meta_get_delete.
    + unfold unknown_id, s1. simpl. apply filter_out_id.
  - unfold saved. simpl. rewrite A1, A4. apply (save_saved h).
Qed.

Lemma cards_from_highlight (s : Lib) (vs : list Entry) : forall idx cs,
    cards_from h s idx vs = Normal cs ->
    map card_id (filter card_active cs)
    = map id (filter (fun v => is_active (id v) s) vs).
Proof.
  induction vs as [|v vs IH]; intros idx cs; simpl.
  - intros [= <-]. reflexivity.
  - unfold card_of. destruct (_guessFormat h (url v)) as [f|e]; [|discriminate].
    destruct (cards_from h s (S idx) vs) as [cs'|e] eqn:E; [|discriminate].
    intros [= <-]. simpl. specialize (IH _ _ E).
    assert (Ha : match activeId s with
                 | Some a => (id v =? a)%Z
                 | None => false
                 end = is_active (id v) s).
    { unfold is_active. destruct (activeId s) as [a|]; [apply Z.eqb_sym|reflexivity]. }
    rewrite Ha. destruct (is_active (id v) s); simpl; rewrite IH; reflexivity.
Qed.

(** The cards that [render] marks are those of the entries whose
    identifier is [activeId]. *)
Lemma render_highlight (s : Lib) :
  highlighted (lib_of (render h s))
  = map id (filter (fun v => is_active (id v) s) (videos s)).
Proof.
  unfold render, highlighted.
  destruct (videos s) as [|v vs] eqn:Ev; [reflexivity|].
  cbn [List.length Nat.eqb].
  destruct (cards_from_total h s (v :: vs) 0) as (cs & Hcs & _).
  rewrite Hcs.
  destruct (load_missing_meta_returns h (v :: vs)
              (set_view (str h (of_Z (Z.of_nat (S (List.length vs)))) ++ " video" ++
                         (if Nat.eqb (List.length vs) 0 then EmptyString else "s"))
                 (negb false) (Cards cs) true s))
    as (s' & Hl & Hv & _).
  cbn [Nat.eqb] in *. rewrite Hl. simpl. rewrite Hv. simpl.
  exact (cards_from_highlight s (v :: vs) 0 cs Hcs).
Qed.

(** What [playVideo] does. *)
Lemma playVideo_effect (i : Z) (s : Lib) :
  match find (fun v => (id v =? i)%Z) (videos s) with
  | None => playVideo h i s = Returned s
  | Some v =>
      let o := loadVideo (platform h) (url v) (title v) (player s) in
      let s' := lib_of (playVideo h i s) in
      activeId s' = Some i /\ player s' = state_of o /\
      videos s' = videos s /\ unknownCount s' = unknownCount s /\
      storage s' = storage s /\ urlInput s' = urlInput s /\
      match o with
      | Done _ =>
          playVideo h i s = Returned s' /\ view_shows s' /\
          highlighted s'
          = map id (filter (fun v => (id v =? i)%Z) (videos s))
      | Raised e _ =>
          playVideo h i s = Threw e s' /\ same_view s s' /\
          metaCache s' = metaCache s
      end
  end.
Proof.
  unfold playVideo.
  destruct (find (fun v => (id v =? i)%Z) (videos s)) as [v|]; [|reflexivity].
  cbv zeta. cbn [player set_activeId].
  destruct (loadVideo (platform h) (url v) (title v) (player s)) as [p|e p].
  - set (s1 := set_player p (set_activeId (Some i) s)).
    destruct (render_returns h s1) as (s2 & Hr & Hview & _).
    pose proof (render_core h s1) as Hc.
    pose proof (render_highlight s1) as Hh.
    rewrite Hr in *. simpl in Hc, Hh. simpl.
    destruct Hc as (A1 & A2 & A3 & A4 & A5 & A6).
    rewrite A1, A2, A3, A4, A5, A6. simpl.
    repeat split; try assumption.
    rewrite Hh. f_equal. apply filter_ext. intros w. apply Z.eqb_sym.
  - simpl. repeat split.
Qed.

(** What [clearAll] does. *)
Lemma clearAll_effect (answer : bool) (s : Lib) :
  if Nat.eqb (List.length (videos s)) 0 || negb answer
  then clearAll h answer s = Returned s
  else
    exists s',
      clearAll h answer s = Returned s' /\
      videos s' = [] /\ unknownCount s' = pos_zero /\ activeId s' = None /\
      player s' = put_away (player s) /\ urlInput s' = urlInput s /\
      metaCache s' = metaCache s /\
      saved h s' /\ listView s' = EmptyState /\ clearAllShown s' = false /\
      countBadge s' = (str h (of_Z 0) ++ " videos")%string /\
      toastText s' = "Library cleared."%string /\
      toastClass s' = "toast show"%string.
Proof.
  unfold clearAll.
  destruct (Nat.eqb (List.length (videos s)) 0); [reflexivity|].
  destruct answer; [|reflexivity]. simpl.
  eexists. split; [reflexivity|]. simpl.
  repeat split.
  unfold saved, load_videos. simpl.
  rewrite getItem_setItem_other by discriminate.
  rewrite getItem_setItem_same. reflexivity.
Qed.

End Effects.

Section Invariants.

Import Store Library.

Variable h : Host.

Lemma release_probe_core (k : nat) (s : Lib) : same_core s (release_probe k s).
Proof. repeat split. Qed.

(** Every action but the four of the user's leaves the list, the storage
    and the input alone; what the four do is in the [_effect] lemmas. *)
Lemma act_saved (a : Action) (s : Lib) : saved h s -> saved h (act h a s).
Proof.
  intros Hs. destruct a as [text|n1 n2|i|i|answer|i cl|k d|k|hd]; cbn [act].
  - exact Hs.
  - destruct (addVideo_effect h n1 n2 s) as (s' & -> & H). simpl.
    revert H. destruct (accepts h s); intros H.
    + apply H.
    + rewrite H. exact Hs.
  - destruct (deleteVideo_effect h i s) as (s' & -> & H). simpl. apply H.
  - generalize (playVideo_effect h i s).
    destruct (find _ (videos s)) as [v|]; [|intros ->; exact Hs].
    cbv zeta. intros H. destruct H as (_ & _ & Hv & _ & Hst & _).
    unfold saved. rewrite Hv, Hst. exact Hs.
  - generalize (clearAll_effect h answer s).
    destruct (Nat.eqb _ 0 || negb answer); [intros ->; exact Hs|].
    intros H. destruct H as (s' & -> & H). simpl. apply H.
  - eapply saved_frame; [apply head_response_core | exact Hs].
  - eapply saved_frame; [apply probe_loadedmetadata_core | exact Hs].
  - exact Hs.
  - eapply saved_frame; [apply fire_core | exact Hs].
Qed.

Lemma acts_saved (l : list Action) : forall s, saved h s -> saved h (acts h l s).
Proof.
  unfold acts. induction l as [|a l IH]; intros s Hs; simpl; [exact Hs|].
  apply IH. apply act_saved. exact Hs.
Qed.

Lemma existsb_url_false (u : string) (vs : list Entry) :
  existsb (fun v => String.eqb (url v) u) vs = false -> ~ In u (map url vs).
Proof.
  intros He Hin. apply in_map_iff in Hin. destruct Hin as (v & Hu & Hv).
  assert (Ht : existsb (fun v => String.eqb (url v) u) vs = true).
  { apply existsb_exists. exists v. split; [exact Hv|].
    rewrite Hu. apply String.eqb_refl. }
  congruence.
Qed.

(** Taking entries out of a list without repeated URLs leaves none
    repeated. *)
Lemma distinct_urls_filter (keep : Entry -> bool) (vs : list Entry) :
  NoDup (map url vs) -> NoDup (map url (filter keep vs)).
Proof.
  intros Hvs. induction vs as [|v vs IH]; [exact Hvs|].
  simpl in *. inversion Hvs as [|u us Hout Hrest]; subst.
  destruct (keep v); [|exact (IH Hrest)].
  simpl. constructor; [|exact (IH Hrest)].
  intros Hin. apply Hout. apply in_map_iff in Hin.
  destruct Hin as (w & Hw & Hwin). apply filter_In in Hwin.
  apply in_map_iff. exists w. split; [exact Hw | apply Hwin].
Qed.

Lemma act_distinct (a : Action) (s : Lib) :
  NoDup (map url (videos s)) -> NoDup (map url (videos (act h a s))).
Proof.
  intros Hs. destruct a as [text|n1 n2|i|i|answer|i cl|k d|k|hd]; cbn [act].
  - exact Hs.
  - destruct (addVideo_effect h n1 n2 s) as (s' & -> & H). simpl.
    revert H. unfold accepts.
    destruct (String.eqb (String_trim h (urlInput s)) EmptyString);
      [intros ->; exact Hs|].
    destruct (existsb _ (videos s)) eqn:E; [intros ->; exact Hs|].
    simpl. intros (-> & _). simpl. constructor; [|exact Hs].
    apply existsb_url_false. exact E.
  - destruct (deleteVideo_effect h i s) as (s' & -> & H). simpl.
    destruct H as (Hv & _). rewrite Hv. apply distinct_urls_filter. exact Hs.
  - generalize (playVideo_effect h i s).
    destruct (find _ (videos s)) as [v|]; [|intros ->; exact Hs].
    cbv zeta. intros H. destruct H as (_ & _ & -> & _). exact Hs.
  - generalize (clearAll_effect h answer s).
    destruct (Nat.eqb _ 0 || negb answer); [intros ->; exact Hs|].
    intros (s' & -> & Hv & _). simpl. rewrite Hv. constructor.
  - destruct (head_response_core h i cl s) as (-> & _). exact Hs.
  - destruct (probe_loadedmetadata_core h k d s) as (-> & _). exact Hs.
  - exact Hs.
  - destruct (fire_core hd s) as (-> & _). exact Hs.
Qed.

Lemma on_first_card_keeps (i : Z) (m : Meta) (cs : list Card) :
  map card_id (on_first_card i (update_card h m) cs) = map card_id cs /\
  map card_title (on_first_card i (update_card h m) cs) = map card_title cs /\
  map card_active (on_first_card i (update_card h m) cs) = map card_active cs.
Proof.
  induction cs as [|c cs (IH1 & IH2 & IH3)]; simpl; [repeat split|].
  destruct (card_id c =? i)%Z; simpl; [repeat split|].
  rewrite IH1, IH2, IH3. repeat split.
Qed.

Lemma updateCard_view (i : Z) (s : Lib) :
  view_shows s -> view_shows (_updateCard h i s).
Proof.
  unfold view_shows, _updateCard.
  destruct (listView s) as [| |cs] eqn:El; try (rewrite El; exact (fun H => H)).
  simpl. destruct (videos s) as [|v vs]; [discriminate|].
  intros (cs0 & [= <-] & H1 & H2).
  destruct (on_first_card_keeps i
              (match meta_get i (metaCache s) with
               | Some m => m
               | None => no_meta
               end) cs) as (K1 & K2 & _).
  eexists. split; [reflexivity|]. rewrite K1, K2. split; assumption.
Qed.

Lemma act_view (a : Action) (s : Lib) : view_shows s -> view_shows (act h a s).
Proof.
  intros Hs. destruct a as [text|n1 n2|i|i|answer|i cl|k d|k|hd]; cbn [act].
  - exact Hs.
  - destruct (addVideo_effect h n1 n2 s) as (s' & -> & H). simpl.
    revert H. destruct (accepts h s); intros H; [apply H | rewrite H; exact Hs].
  - destruct (deleteVideo_effect h i s) as (s' & -> & H). simpl. apply H.
  - generalize (playVideo_effect h i s).
    destruct (find _ (videos s)) as [v|]; [|intros ->; exact Hs].
    cbv zeta. intros H. destruct H as (_ & _ & Hv & _ & _ & _ & H).
    revert H. destruct (loadVideo _ _ _ _) as [p|e p]; intros H.
    + apply H.
    + destruct H as (_ & (Hl & _) & _).
      eapply view_frame; [exact Hv | exact Hl | exact Hs].
  - generalize (clearAll_effect h answer s).
    destruct (Nat.eqb _ 0 || negb answer); [intros ->; exact Hs|].
    intros H. destruct H as (s' & -> & Hv & _ & _ & _ & _ & _ & _ & Hl & _). simpl.
    unfold view_shows. rewrite Hv. exact Hl.
  - unfold head_response. destruct cl as [c|]; [|exact Hs].
    destruct (String.eqb c EmptyString); [exact Hs|].
    destruct (gt _ _); [|exact Hs].
    destruct (meta_get i (metaCache s)); [|exact Hs].
    match goal with |- context [_updateCard h ?j ?x] =>
      exact (updateCard_view j x Hs) end.
  - unfold probe_loadedmetadata.
    destruct (nth_error (probes s) k) as [p|]; [|exact Hs].
    destruct (num_truthy d && is_finite d); [|exact Hs].
    destruct (meta_get _ _); [|exact Hs].
    cbn [lib_of].
    match goal with |- context [_updateCard h ?j ?x] =>
      exact (updateCard_view j x Hs) end.
  - exact Hs.
  - unfold fire. destruct (find _ (pending s)) as [[n [dl job]]|]; [|exact Hs].
    destruct job; exact Hs.
Qed.

End Invariants.

Section Toast.

Import Store Library.

Variable h : Host.

Lemma keeps_refl (s : Lib) : keeps s s.
Proof. unfold keeps. auto. Qed.

Lemma keeps_trans (a b c : Lib) : keeps a b -> keeps b c -> keeps a c.
Proof.
  intros (A1 & A2 & A3 & A4 & A5) (B1 & B2 & B3 & B4 & B5).
  unfold keeps. split; [congruence|]. split; [congruence|].
  split; [congruence|]. split; [congruence|]. auto.
Qed.

Lemma same_timers_keeps (s s' : Lib) :
  same_timers s s' -> toastText s' = toastText s ->
  toastClass s' = toastClass s -> keeps s s'.
Proof.
  intros (Hp & Hn & Ht) Hx Hc. unfold keeps, handles_ok, hide_timers.
  rewrite Hp, Hn, Ht. auto.
Qed.

Lemma push_probe_keeps (s s' : Lib) (k : nat) :
  pending s' = pending s ++ [(nextHandle s, (15000, ProbeCleanup k))] ->
  nextHandle s' = S (nextHandle s) ->
  toastTimer s' = toastTimer s ->
  toastText s' = toastText s -> toastClass s' = toastClass s ->
  keeps s s'.
Proof.
  intros Hp Hn Ht Hx Hc.
  assert (Hh : hide_timers s' = hide_timers s).
  { unfold hide_timers. rewrite Hp, filter_app. simpl. apply app_nil_r. }
  unfold keeps. split; [exact Ht|]. split; [exact Hh|].
  split; [exact Hx|]. split; [exact Hc|]. intros H.
  split; [|split].
  - rewrite Hp, map_app. destruct H as (Hnd & Hlt & _).
    apply NoDup_app; [exact Hnd | repeat constructor; intros [] |].
    intros a Ha [<-|[]]. apply in_map_iff in Ha.
    destruct Ha as (e & He & Hin). apply Hlt in Hin. simpl in He. lia.
  - rewrite Hp, Hn. intros e He. destruct H as (_ & Hlt & _).
    apply in_app_or in He. destruct He as [He|[<-|[]]].
    + apply Hlt in He. lia.
    + simpl. lia.
  - rewrite Hh, Ht. apply H.
Qed.

Lemma loadMeta_keeps (i : Z) (u : string) (s : Lib) :
  keeps s (lib_of (_loadMeta h i u s)).
Proof.
  unfold _loadMeta.
  destruct (m_hasLoaded _); [apply same_timers_keeps; repeat split|].
  destruct (_getExt (platform h) u) as [ext|];
    [|apply same_timers_keeps; repeat split].
  destruct (is_stream_ext ext); [apply same_timers_keeps; repeat split|].
  eapply push_probe_keeps; reflexivity.
Qed.

Lemma load_missing_meta_keeps (vs : list Entry) : forall s,
    keeps s (lib_of (load_missing_meta h vs s)).
Proof.
  induction vs as [|v vs IH]; intros s; simpl; [apply keeps_refl|].
  destruct (meta_get (id v) (metaCache s)); [apply IH|].
  pose proof (loadMeta_keeps (id v) (url v) s) as H1.
  destruct (_loadMeta h (id v) (url v) s) as [s'|e s']; simpl in H1.
  - eapply keeps_trans; [exact H1 | apply IH].
  - exact H1.
Qed.

Lemma render_keeps (s : Lib) : keeps s (lib_of (render h s)).
Proof.
  unfold render.
  destruct (Nat.eqb (List.length (videos s)) 0);
    [apply same_timers_keeps; repeat split|].
  destruct (cards_from h s 0 (videos s)) as [cs|e];
    [|apply same_timers_keeps; repeat split].
  eapply keeps_trans; [|apply load_missing_meta_keeps].
  apply same_timers_keeps; repeat split.
Qed.

Lemma updateCard_keeps (i : Z) (s : Lib) : keeps s (_updateCard h i s).
Proof.
  unfold _updateCard.
  destruct (listView s); apply same_timers_keeps; repeat split.
Qed.

Lemma clear_handle_hides (t : nat) (l : list (nat * (Z * LibTimer))) :
  (forall e, In e (filter is_hide l) -> fst e = t) ->
  filter is_hide (filter (fun e => negb (Nat.eqb (fst e) t)) l) = [].
Proof.
  induction l as [|e l IH]; simpl; intros Hall; [reflexivity|].
  assert (Hl : filter is_hide (filter (fun e => negb (Nat.eqb (fst e) t)) l) = []).
  { apply IH. intros x Hx. apply Hall. destruct (is_hide e); [right|]; exact Hx. }
  destruct (Nat.eqb (fst e) t) eqn:E; simpl; [exact Hl|].
  destruct (is_hide e) eqn:Eh; [|exact Hl].
  exfalso. assert (fst e = t) by (apply Hall; left; reflexivity).
  apply Nat.eqb_neq in E. contradiction.
Qed.

Lemma NoDup_fst_filter {A : Type} (p : nat * A -> bool) (l : list (nat * A)) :
  NoDup (map fst l) -> NoDup (map fst (filter p l)).
Proof.
  induction l as [|x l IH]; simpl; [exact (fun H => H)|].
  intros Hn. inversion Hn as [|y ys Hnotin Hrest]; subst.
  destruct (p x); simpl; [|apply IH; exact Hrest].
  constructor; [|apply IH; exact Hrest].
  intros Hin. apply Hnotin. apply in_map_iff in Hin.
  destruct Hin as (z & Hz & Hzin). apply filter_In in Hzin.
  apply in_map_iff. exists z. split; [exact Hz | apply Hzin].
Qed.

(** A toast leaves one timer to hide it, the one it has just set. *)
Lemma showToast_timer (msg type : string) (s : Lib) :
  handles_ok s ->
  handles_ok (showToast msg type s) /\
  hide_timers (showToast msg type s) = [(nextHandle s, (3500, ToastHide))].
Proof.
  intros (Hnd & Hlt & Hhide). unfold hide_timers in Hhide.
  assert (Hnone : filter is_hide (clear_handle (toastTimer s) (pending s)) = []).
  { destruct (toastTimer s) as [t|] eqn:Et; simpl.
    - apply clear_handle_hides. intros e He.
      specialize (Hhide e He). congruence.
    - destruct (filter is_hide (pending s)) as [|e l] eqn:Ef; [reflexivity|].
      exfalso. assert (None = Some (fst e)) by (apply Hhide; left; reflexivity).
      discriminate. }
  assert (Hsub : forall e, In e (clear_handle (toastTimer s) (pending s)) ->
                           In e (pending s)).
  { intros e. destruct (toastTimer s); simpl; [|exact (fun H => H)].
    intros He. apply filter_In in He. apply He. }
  assert (Hh : hide_timers (showToast msg type s)
               = [(nextHandle s, (3500, ToastHide))]).
  { unfold hide_timers. cbn [showToast pending set_toast].
    rewrite filter_app, Hnone. reflexivity. }
  split; [|exact Hh].
  split; [|split].
  - simpl. rewrite map_app. apply NoDup_app.
    + destruct (toastTimer s); simpl; [|exact Hnd].
      apply NoDup_fst_filter. exact Hnd.
    + repeat constructor. intros [].
    + intros a Ha [<-|[]]. apply in_map_iff in Ha.
      destruct Ha as (e & He & Hin). apply Hsub, Hlt in Hin. simpl in He. lia.
  - simpl. intros e He. apply in_app_or in He. destruct He as [He|[<-|[]]].
    + apply Hsub, Hlt in He. lia.
    + simpl. lia.
  - rewrite Hh. intros e [<-|[]]. reflexivity.
Qed.

Lemma keeps_ok (s s' : Lib) : keeps s s' -> handles_ok s -> handles_ok s'.
Proof. intros (_ & _ & _ & _ & H). exact H. Qed.

Lemma fire_handles (hd : nat) (s : Lib) : handles_ok s -> handles_ok (fire hd s).
Proof.
  intros (Hnd & Hlt & Hhide). unfold fire.
  destruct (find _ (pending s)) as [[n [dl job]]|];
    [|split; [|split]; assumption].
  assert (Hok : handles_ok
                  (set_toast (toastText s) (toastClass s) (toastTimer s)
                     (clear_handle (Some hd) (pending s)) (nextHandle s) s)).
  { split; [|split]; simpl.
    - apply NoDup_fst_filter. exact Hnd.
    - intros e He. apply filter_In in He. apply Hlt, He.
    - intros e He. apply Hhide. unfold hide_timers in *. simpl in He.
      apply filter_In in He. destruct He as [He Hh].
      apply filter_In in He. apply filter_In. split; [apply He | exact Hh]. }
  destruct job; exact Hok.
Qed.

Lemma render_then_toast (msg : string) (s : Lib) :
  handles_ok s ->
  handles_ok (lib_of (then_ (render h s)
                        (fun s => Returned (showToast msg EmptyString s)))).
Proof.
  intros Hs. pose proof (render_keeps s) as Hk.
  destruct (render_returns h s) as (s' & Hr & _). rewrite Hr in *. simpl in *.
  apply showToast_timer. eapply keeps_ok; eassumption.
Qed.

Lemma handles_ok_same (s s' : Lib) :
  same_timers s s' -> handles_ok s -> handles_ok s'.
Proof.
  intros (Hp & Hn & Ht). unfold handles_ok, hide_timers.
  rewrite Hp, Hn, Ht. exact (fun H => H).
Qed.

Lemma act_handles (a : Action) (s : Lib) : handles_ok s -> handles_ok (act h a s).
Proof.
  intros Hs. destruct a as [text|n1 n2|i|i|answer|i cl|k d|k|hd]; cbn [act].
  - exact Hs.
  - unfold addVideo.
    destruct (String.eqb _ EmptyString); [apply showToast_timer; exact Hs|].
    destruct (existsb _ (videos s)); [apply showToast_timer; exact Hs|].
    cbv zeta.
    match goal with |- context [render h ?x] => set (s1 := x) end.
    assert (H1 : handles_ok s1).
    { unfold s1. destruct (no_title _); exact Hs. }
    pose proof (render_keeps s1) as Hk.
    destruct (render_returns h s1) as (s2 & Hr & _). rewrite Hr in *.
    simpl in Hk. cbn [then_].
    eapply keeps_ok; [apply loadMeta_keeps|].
    apply showToast_timer. eapply keeps_ok; eassumption.
  - unfold deleteVideo. cbv zeta. apply render_then_toast.
    eapply handles_ok_same; [|exact Hs].
    destruct (activeId s) as [a|]; [|repeat split].
    destruct (a =? i)%Z; repeat split.
  - unfold playVideo.
    destruct (find _ (videos s)) as [v|]; [|exact Hs]. cbv zeta.
    destruct (loadVideo _ _ _ _) as [p|e p]; [|exact Hs].
    eapply keeps_ok; [apply render_keeps | exact Hs].
  - unfold clearAll.
    destruct (Nat.eqb _ 0); [exact Hs|].
    destruct (negb answer); [exact Hs|]. cbv zeta.
    apply render_then_toast. exact Hs.
  - unfold head_response. destruct cl as [c|]; [|exact Hs].
    destruct (String.eqb c EmptyString); [exact Hs|].
    destruct (gt _ _); [|exact Hs].
    destruct (meta_get i (metaCache s)); [|exact Hs].
    match goal with |- handles_ok (_updateCard h _ ?x) =>
      apply (keeps_ok x); [apply updateCard_keeps|] end.
    exact Hs.
  - unfold probe_loadedmetadata.
    destruct (nth_error (probes s) k) as [p|]; [|exact Hs].
    destruct (num_truthy d && is_finite d); [|exact Hs].
    destruct (meta_get _ _); [|exact Hs].
    cbn [lib_of].
    match goal with |- handles_ok (release_probe _ ?x) =>
      apply (handles_ok_same x); [repeat split|] end.
    match goal with |- handles_ok (_updateCard h _ ?x) =>
      apply (keeps_ok x); [apply updateCard_keeps|] end.
    exact Hs.
  - exact Hs.
  - apply fire_handles. exact Hs.
Qed.

Lemma acts_handles (l : list Action) : forall s,
    handles_ok s -> handles_ok (acts h l s).
Proof.
  unfold acts. induction l as [|a l IH]; intros s Hs; simpl; [exact Hs|].
  apply IH, act_handles, Hs.
Qed.

Lemma handles_one_hide (s : Lib) :
  handles_ok s -> (List.length (hide_timers s) <= 1)%nat.
Proof.
  intros (Hnd & _ & Hhide).
  assert (Hn : NoDup (map fst (hide_timers s)))
    by (apply NoDup_fst_filter; exact Hnd).
  destruct (hide_timers s) as [|a [|b l]]; simpl; try lia.
  exfalso. inversion Hn as [|x xs Hx _]; subst. apply Hx. left.
  assert (Ha : toastTimer s = Some (fst a)) by (apply Hhide; left; reflexivity).
  assert (Hb : toastTimer s = Some (fst b))
    by (apply Hhide; right; left; reflexivity).
  congruence.
Qed.

End Toast.

(* ------------------------------------------------------------------ *)
(** ** The library: what each action does *)

(** X5 (addVideo, refusal).  When the trimmed text of the input field is
    empty, or some entry already has it as its URL, [addVideo] returns
    having changed neither the list, the counter, the selection, the
    storage, the input field, the player, the cards nor the metadata cache,
    and having started no request: all it does is show a toast of class
    'error', whose text says which of the two it was. *)
Theorem addVideo_refuses_blank_and_duplicate
  (h : Library.Host) (n1 n2 : Z) (s : Library.Lib) :
  accepts h s = false ->
  exists s',
    Library.addVideo h n1 n2 s = Library.Returned s' /\
    same_core s s' /\
    Library.listView s' = Library.listView s /\
    Library.metaCache s' = Library.metaCache s /\
    Library.requests s' = Library.requests s /\
    Library.probes s' = Library.probes s /\
    Library.toastClass s' = "toast show error"%string /\
    Library.toastText s'
    = (if String.eqb (Library.String_trim h (Library.urlInput s)) EmptyString
       then "Please enter a video URL."
       else "This URL is already in your library.")%string.
Proof.
  intros Ha. destruct (addVideo_effect h n1 n2 s) as (s' & Hr & H).
  rewrite Ha in H. exists s'. split; [exact Hr|]. rewrite H.
  repeat split.
Qed.

Lemma addVideo_refuses_blank_and_duplicate_witness :
  exists s',
    Library.addVideo sample_host 4000 4000
      (Library.set_urlInput "  https://example.com/live/index.m3u8" three_videos)
    = Library.Returned s' /\
    same_core
      (Library.set_urlInput "  https://example.com/live/index.m3u8" three_videos)
      s' /\
    Library.toastText s' = "This URL is already in your library."%string.
Proof.
  assert (Ha : accepts sample_host
                 (Library.set_urlInput "  https://example.com/live/index.m3u8"
                    three_videos) = false)
    by (vm_compute; reflexivity).
  destruct (addVideo_refuses_blank_and_duplicate sample_host 4000 4000 _ Ha)
    as (s' & Hr & Hv & _ & _ & _ & _ & _ & Ht).
  exists s'. split; [exact Hr|]. split; [exact Hv|].
  rewrite Ht. vm_compute. reflexivity.
Defined.

(** X6 (addVideo, acceptance).  Otherwise [addVideo] returns with the new
    entry at the head of the list, the older entries behind it in their
    order; the entry carries the trimmed URL, the two clock readings, and
    as title the extracted one when it has two code units or more, else
    'Untitled Stream n' with [n] the counter after its increment (the
    counter moves in that case only).  The input field is emptied, the
    storage holds the new list, the list on screen shows it, the selection
    and the player are untouched, and the toast reads 'Added: ' and the
    title. *)
Theorem addVideo_puts_entry_first
  (h : Library.Host) (n1 n2 : Z) (s : Library.Lib) :
  accepts h s = true ->
  let u := Library.String_trim h (Library.urlInput s) in
  exists s',
    Library.addVideo h n1 n2 s = Library.Returned s' /\
    Library.videos s'
    = {| Store.id := n1; Store.title := new_title h s u; Store.url := u;
         Store.addedAt := n2 |} :: Library.videos s /\
    Library.unknownCount s'
    = (if Library.no_title (Library.extractTitle h u)
       then JS.add (Library.unknownCount s) (JS.of_Z 1)
       else Library.unknownCount s) /\
    Library.activeId s' = Library.activeId s /\
    Library.player s' = Library.player s /\
    Library.urlInput s' = EmptyString /\
    saved h s' /\ view_shows s' /\
    Library.toastText s' = ("Added: " ++ new_title h s u)%string /\
    Library.toastClass s' = "toast show success"%string.
Proof.
  intros Ha. cbv zeta. destruct (addVideo_effect h n1 n2 s) as (s' & Hr & H).
  rewrite Ha in H. exists s'. split; [exact Hr | exact H].
Qed.

Lemma addVideo_puts_entry_first_witness :
  map Store.title (Library.videos three_videos)
  = ["Untitled Stream 1"; "index"; "intro"]%string /\
  map Store.url (Library.videos three_videos)
  = ["https://example.com/x"; "https://example.com/live/index.m3u8";
     "https://example.com/media/intro.mp4"]%string.
Proof.
  pose (s2 := Library.acts sample_host
                [Library.Type_url " https://example.com/media/intro.mp4 ";
                 Library.Click_add 1000 1000;
                 Library.Type_url "https://example.com/live/index.m3u8";
                 Library.Click_add 2000 2001;
                 Library.Type_url "https://example.com/x"]
                fresh_library).
  assert (Ha : accepts sample_host s2 = true) by (vm_compute; reflexivity).
  destruct (addVideo_puts_entry_first sample_host 3000 3000 s2 Ha)
    as (s' & Hr & Hv & _).
  assert (E : three_videos
              = Library.lib_of (Library.addVideo sample_host 3000 3000 s2))
    by (vm_compute; reflexivity).
  rewrite E, Hr. cbn [Library.lib_of]. rewrite Hv.
  split; vm_compute; reflexivity.
Defined.

(** X7 (deleteVideo).  [deleteVideo(id)] returns with every entry of that
    identifier gone and the others kept in their order; the metadata of the
    identifier is forgotten, the storage holds the new list and the list on
    screen shows it.  If the entry was the one being played the selection
    is dropped and the player is put away, its source set to the empty
    string, with the engine and everything else in the player left as it
    was; if not, selection and player are untouched.  The counter and the
    input field never change. *)
Theorem deleteVideo_removes_entry (h : Library.Host) (i : Z) (s : Library.Lib) :
  exists s',
    Library.deleteVideo h i s = Library.Returned s' /\
    Library.videos s'
    = filter (fun v => negb (Store.id v =? i)%Z) (Library.videos s) /\
    unknown_id i s' /\
    Library.meta_get i (Library.metaCache s') = None /\
    Library.activeId s'
    = (if is_active i s then None else Library.activeId s) /\
    Library.player s'
    = (if is_active i s then put_away (Library.player s)
       else Library.player s) /\
    hlsInstance (Library.player s') = hlsInstance (Library.player s) /\
    heap (Library.player s') = heap (Library.player s) /\
    calls (Library.player s') = calls (Library.player s) /\
    Library.unknownCount s' = Library.unknownCount s /\
    Library.urlInput s' = Library.urlInput s /\
    saved h s' /\ view_shows s' /\
    Library.toastText s' = "Video removed."%string /\
    Library.toastClass s' = "toast show"%string.
Proof.
  destruct (deleteVideo_effect h i s)
    as (s' & Hr & Hv & Hu & Hin & Ha & Hp & Hm & Hs & Hview & Ht & Hc).
  exists s'. split; [exact Hr|]. split; [exact Hv|].
  split; [unfold unknown_id; rewrite Hv; apply filter_out_id|].
  split; [exact Hm|]. split; [exact Ha|]. split; [exact Hp|].
  rewrite Hp. destruct (is_active i s); repeat split; assumption.
Qed.

(** X8 (playVideo).  [playVideo(id)] does nothing at all when no entry has
    the identifier.  Otherwise it selects the identifier and hands the URL
    and title of the first entry that has it to [loadVideo]; the list and
    the storage are as before.  When [loadVideo] returns, the list is drawn
    again and the marked cards are exactly those of the entries with that
    identifier; when [loadVideo] throws, the exception leaves [playVideo]
    too and what is on screen stays as it was, the selection and the
    effects of [loadVideo] on the player being kept. *)
Theorem playVideo_selects_entry (h : Library.Host) (i : Z) (s : Library.Lib) :
  match find (fun v => (Store.id v =? i)%Z) (Library.videos s) with
  | None => Library.playVideo h i s = Library.Returned s
  | Some v =>
      let o := loadVideo (Library.platform h) (Store.url v) (Store.title v)
                 (Library.player s) in
      let s' := Library.lib_of (Library.playVideo h i s) in
      Library.activeId s' = Some i /\
      Library.player s' = state_of o /\
      Library.videos s' = Library.videos s /\
      Library.storage s' = Library.storage s /\
      match o with
      | Done _ =>
          Library.playVideo h i s = Library.Returned s' /\
          view_shows s' /\
          highlighted s'
          = map Store.id
              (filter (fun v => (Store.id v =? i)%Z) (Library.videos s))
      | Raised e _ =>
          Library.playVideo h i s = Library.Threw e s' /\ same_view s s'
      end
  end.
Proof.
  generalize (playVideo_effect h i s).
  destruct (find _ (Library.videos s)) as [v|]; [|exact (fun H => H)].
  cbv zeta. intros (Ha & Hp & Hv & _ & Hs & _ & H).
  split; [exact Ha|]. split; [exact Hp|]. split; [exact Hv|].
  split; [exact Hs|].
  destruct (loadVideo _ _ _ _) as [p|e p]; [exact H|].
  split; apply H.
Qed.

(** X9 (clearAll).  [clearAll] does nothing when the library is empty (the
    user is then not even asked) or when the user declines.  When the user
    agrees it empties the list, sets the counter to 0, drops the selection,
    puts the player away with the empty string as its source, stores the
    empty list, and leaves the empty-state panel, the badge for 0 videos
    and no clear button on screen.  The metadata cache is not cleared. *)
Theorem clearAll_empties_library
  (h : Library.Host) (answer : bool) (s : Library.Lib) :
  if Nat.eqb (List.length (Library.videos s)) 0 || negb answer
  then Library.clearAll h answer s = Library.Returned s
  else
    exists s',
      Library.clearAll h answer s = Library.Returned s' /\
      Library.videos s' = [] /\
      Library.unknownCount s' = JS.pos_zero /\
      Library.activeId s' = None /\
      Library.player s' = put_away (Library.player s) /\
      Library.metaCache s' = Library.metaCache s /\
      saved h s' /\
      Library.listView s' = Library.EmptyState /\
      Library.clearAllShown s' = false /\
      Library.countBadge s'
      = (Library.str h (JS.of_Z 0) ++ " videos")%string /\
      Library.toastText s' = "Library cleared."%string.
Proof.
  generalize (clearAll_effect h answer s).
  destruct (Nat.eqb _ 0 || negb answer); [exact (fun H => H)|].
  intros (s' & Hr & Hv & Hu & Ha & Hp & _ & Hm & Hs & Hl & Hc & Hb & Ht & _).
  exists s'. repeat split; assumption.
Qed.

(* ------------------------------------------------------------------ *)
(** ** The library: what holds whatever the user does *)

(** X10 (no URL twice).  If no two entries of the library have the same
    URL, then after any sequence of actions (typing, adding, deleting,
    playing, clearing, answers to the metadata requests, timers) still no
    two entries have the same URL.  URLs are compared as [addVideo]
    compares them, after trimming and character for character. *)
Theorem library_urls_stay_distinct
  (h : Library.Host) (l : list Library.Action) (s : Library.Lib) :
  NoDup (map Store.url (Library.videos s)) ->
  NoDup (map Store.url (Library.videos (Library.acts h l s))).
Proof.
  revert s. unfold Library.acts.
  induction l as [|a l IH]; intros s Hs; simpl; [exact Hs|].
  apply IH. apply act_distinct. exact Hs.
Qed.

Lemma library_urls_stay_distinct_witness :
  NoDup (map Store.url
           (Library.videos
              (Library.acts sample_host
                 [Library.Type_url "https://example.com/x ";
                  Library.Click_add 4000 4000;
                  Library.Click_delete 2000]
                 three_videos))).
Proof.
  apply (library_urls_stay_distinct sample_host).
  vm_compute. repeat constructor; intros H;
    repeat (destruct H as [H|H]; [discriminate H|]); exact H.
Defined.

(** X11 (the storage follows the list).  Once the module has been
    evaluated on a storage that it can read, then after [initLibrary] and
    any sequence of actions the storage holds the list as it then is:
    evaluating the module again on that storage, beside any player, gives
    the same entries in the same order. *)
Theorem library_survives_reload
  (h : Library.Host) (st : Store.Storage) (p p' : State) (s : Library.Lib)
  (l : list Library.Action) :
  Library.boot h st p = Some s ->
  let s' := Library.acts h l (Library.lib_of (Library.initLibrary h s)) in
  exists r,
    Library.boot h (Library.storage s') p' = Some r /\
    Library.videos r = Library.videos s'.
Proof.
  intros Hb. cbv zeta.
  assert (H0 : saved h s).
  { unfold Library.boot in Hb. unfold saved.
    destruct (Library.load_videos h st) as [vs|] eqn:E; [|discriminate].
    injection Hb as <-. exact E. }
  assert (H1 : saved h (Library.lib_of (Library.initLibrary h s)))
    by (eapply saved_frame; [apply render_core | exact H0]).
  pose proof (acts_saved h l _ H1) as H2. unfold saved in H2.
  unfold Library.boot. rewrite H2. eexists. split; reflexivity.
Qed.

Lemma library_survives_reload_witness :
  exists r,
    Library.boot sample_host (Library.storage three_videos) init = Some r /\
    Library.videos r = Library.videos three_videos.
Proof.
  exact (library_survives_reload sample_host [] init init empty_library
           [Library.Type_url " https://example.com/media/intro.mp4 ";
            Library.Click_add 1000 1000;
            Library.Type_url "https://example.com/live/index.m3u8";
            Library.Click_add 2000 2001;
            Library.Type_url "https://example.com/x";
            Library.Click_add 3000 3000] eq_refl).
Defined.

(** X12 (the list on screen).  Once the list has been drawn, after any
    sequence of actions it shows the entries of the library: the empty-state
    panel when there are none, else one card per entry, in the order of the
    list, with the entry's identifier and its title as [escHtml] gives
    it. *)
Theorem list_shows_library
  (h : Library.Host) (l : list Library.Action) (s : Library.Lib) :
  view_shows s -> view_shows (Library.acts h l s).
Proof.
  revert s. unfold Library.acts.
  induction l as [|a l IH]; intros s Hs; simpl; [exact Hs|].
  apply IH. apply act_view. exact Hs.
Qed.

Lemma list_shows_library_witness :
  view_shows
    (Library.acts sample_host
       [Library.Type_url " https://example.com/media/intro.mp4 ";
        Library.Click_add 1000 1000;
        Library.Head_response 1000 (Some "2048"%string);
        Library.Click_play 1000]
       fresh_library).
Proof.
  assert (H : view_shows fresh_library) by (vm_compute; reflexivity).
  exact (list_shows_library sample_host _ fresh_library H).
Defined.

(** X13 (one timer for the toast).  If handles are in order (as they are
    when nothing is pending), then after any sequence of actions at most
    one timer that hides the toast is pending, however many toasts were
    shown; each [showToast] leaves exactly one, of 3500 ms, having cancelled
    the one before; and when a pending toast timer expires the toast gets
    the class 'toast' and keeps its text. *)
Theorem one_toast_timer
  (h : Library.Host) (l : list Library.Action) (s : Library.Lib) :
  handles_ok s ->
  let s' := Library.acts h l s in
  handles_ok s' /\
  (List.length (hide_timers s') <= 1)%nat /\
  (forall msg type,
      hide_timers (Library.showToast msg type s')
      = [(Library.nextHandle s', (3500, Library.ToastHide))]) /\
  (forall e, In e (hide_timers s') ->
             Library.toastClass (Library.fire (fst e) s') = "toast"%string /\
             Library.toastText (Library.fire (fst e) s') = Library.toastText s' /\
             hide_timers (Library.fire (fst e) s') = []).
Proof.
  intros Hs. cbv zeta.
  pose proof (acts_handles h l s Hs) as Hok.
  set (s' := Library.acts h l s) in *.
  split; [exact Hok|]. split; [apply handles_one_hide; exact Hok|].
  split; [intros msg type; apply showToast_timer; exact Hok|].
  intros e He.
  pose proof (handles_one_hide s' Hok) as Hlen.
  destruct Hok as (Hnd & _ & _).
  assert (Hin : In e (Library.pending s'))
    by (unfold hide_timers in He; apply filter_In in He; apply He).
  assert (Hh : is_hide e = true)
    by (unfold hide_timers in He; apply filter_In in He; apply He).
  assert (Hfind : find (fun x => Nat.eqb (fst x) (fst e)) (Library.pending s')
                  = Some e).
  { clear - Hnd Hin. induction (Library.pending s') as [|x p IH]; [destruct Hin|].
    simpl in *. inversion Hnd as [|y ys Hy Hys]; subst.
    destruct Hin as [->|Hin]; [rewrite Nat.eqb_refl; reflexivity|].
    destruct (Nat.eqb (fst x) (fst e)) eqn:E; [|apply IH; assumption].
    exfalso. apply Hy. apply Nat.eqb_eq in E. rewrite E.
    apply in_map. exact Hin. }
  unfold Library.fire. rewrite Hfind.
  destruct e as [n [dl job]]. unfold is_hide in Hh. simpl in Hh.
  destruct job; [|discriminate]. simpl.
  split; [reflexivity|]. split; [reflexivity|].
  unfold hide_timers in *. simpl.
  destruct (filter is_hide (Library.pending s')) as [|a [|b r]] eqn:Ef;
    [destruct He | | simpl in Hlen; lia].
  destruct He as [->|[]].
  assert (Hall : forall x, In x (filter is_hide (Library.pending s')) -> fst x = n).
  { intros x Hx. rewrite Ef in Hx. destruct Hx as [<-|[]]. reflexivity. }
  clear - Hall. induction (Library.pending s') as [|x p IH]; [reflexivity|].
  simpl in *. destruct (Nat.eqb (fst x) n) eqn:E; simpl.
  - apply IH. intros y Hy. apply Hall. destruct (is_hide x); [right|]; exact Hy.
  - destruct (is_hide x) eqn:Ex.
    + exfalso. assert (fst x = n) by (apply Hall; left; reflexivity).
      apply Nat.eqb_neq in E. contradiction.
    + apply IH. exact Hall.
Qed.

Lemma one_toast_timer_witness :
  (List.length (hide_timers three_videos) <= 1)%nat.
Proof.
  assert (H0 : handles_ok fresh_library).
  { split; [vm_compute; constructor|]. split; vm_compute; intros e []. }
  assert (E : three_videos = Library.acts sample_host
           [Library.Type_url " https://example.com/media/intro.mp4 ";
            Library.Click_add 1000 1000;
            Library.Type_url "https://example.com/live/index.m3u8";
            Library.Click_add 2000 2001;
            Library.Type_url "https://example.com/x";
            Library.Click_add 3000 3000] fresh_library) by (vm_compute; reflexivity).
  rewrite E.
  exact (proj1 (proj2 (one_toast_timer sample_host _ fresh_library H0))).
Defined.

Section Probes.

Import Store Library.

Variable h : Host.

Lemma skipn_length_app {A : Type} (l x : list A) :
  skipn (List.length l) (l ++ x) = x.
Proof. induction l as [|a l IH]; simpl; [reflexivity | exact IH]. Qed.

(** What [_loadMeta] starts: nothing when the entry was asked about before
    or its extension is m3u8 or mpd, else one HEAD request, one probe and
    the timer that cleans the probe up. *)
Lemma loadMeta_effect (i : Z) (u : string) (s : Lib) :
  exists s' ext m,
    _loadMeta h i u s = Returned s' /\
    _getExt (platform h) u = Normal (Some ext) /\
    meta_get i (metaCache s') = Some m /\ m_hasLoaded m = true /\
    let known := match meta_get i (metaCache s) with
                 | Some m0 => m_hasLoaded m0
                 | None => false
                 end in
    if known || is_stream_ext (Some ext)
    then requests s' = requests s /\ probes s' = probes s /\
         same_timers s s'
    else requests s' = requests s ++ [HeadRequest i u] /\
         probes s' = probes s ++ [{| p_entry := i; p_src := u;
                                     p_attached := true |}] /\
         pending s' = pending s ++
                      [(nextHandle s,
                        (15000, ProbeCleanup (List.length (probes s))))] /\
         nextHandle s' = S (nextHandle s) /\
         toastTimer s' = toastTimer s.
Proof.
  destruct (getExt_total (platform h) u) as (ext & He & _).
  unfold _loadMeta. rewrite He.
  destruct (meta_get i (metaCache s)) as [m0|] eqn:Em; cbn [m_hasLoaded no_meta].
  - destruct (m_hasLoaded m0) eqn:Eh.
    + exists (set_metaCache (meta_set i m0 (metaCache s)) s), ext, m0.
      split; [reflexivity|]. split; [reflexivity|].
      split; [apply meta_get_set_same|]. split; [exact Eh|].
      simpl. repeat split.
    + destruct (is_stream_ext (Some ext)) eqn:Es;
        do 3 eexists; (split; [reflexivity|]); (split; [reflexivity|]);
        (split; [simpl; apply meta_get_set_same|]); (split; [reflexivity|]);
        cbv zeta; rewrite Es; cbn [orb]; repeat split.
  - destruct (is_stream_ext (Some ext)) eqn:Es;
      do 3 eexists; (split; [reflexivity|]); (split; [reflexivity|]);
      (split; [simpl; apply meta_get_set_same|]); (split; [reflexivity|]);
      cbv zeta; rewrite Es; cbn [orb]; repeat split.
Qed.

Lemma nth_error_update_nth_same {A : Type} (f : A -> A) (l : list A) :
  forall k, nth_error (update_nth k f l) k = option_map f (nth_error l k).
Proof.
  induction l as [|a l IH]; intros [|k]; simpl; try reflexivity. apply IH.
Qed.

Lemma nth_error_update_nth_other {A : Type} (f : A -> A) (l : list A) :
  forall k j, j <> k -> nth_error (update_nth k f l) j = nth_error l j.
Proof.
  induction l as [|a l IH]; intros [|k] [|j] Hne; simpl; try reflexivity.
  - contradiction.
  - apply IH. intros ->. apply Hne. reflexivity.
Qed.

Lemma NoDup_fst_unique {A : Type} (l : list (nat * A)) (n : nat) (x y : A) :
  NoDup (map fst l) -> In (n, x) l -> In (n, y) l -> x = y.
Proof.
  induction l as [|[m z] l IH]; simpl; intros Hn Hx Hy; [destruct Hx|].
  inversion Hn as [|a b Ha Hb]; subst.
  destruct Hx as [Hx|Hx], Hy as [Hy|Hy].
  - congruence.
  - exfalso. apply Ha. injection Hx as -> _. apply (in_map fst) in Hy. exact Hy.
  - exfalso. apply Ha. injection Hy as -> _. apply (in_map fst) in Hx. exact Hx.
  - apply IH; assumption.
Qed.

Lemma tidy_same (s s' : Lib) : same_async s s' -> tidy s -> tidy s'.
Proof.
  intros ((Hp & Hn & Ht) & Hpr). unfold tidy, handles_ok, hide_timers, attached.
  rewrite Hp, Hn, Ht, Hpr. exact (fun H => H).
Qed.

Lemma release_probe_tidy (k : nat) (s : Lib) : tidy s -> tidy (release_probe k s).
Proof.
  intros (H1 & H2 & H3). split; [exact H1|]. split; [exact H2|].
  intros j (p & Hp & Ha). apply H3. unfold attached. simpl in Hp.
  destruct (Nat.eq_dec j k) as [->|Hne].
  - rewrite nth_error_update_nth_same in Hp.
    destruct (nth_error (probes s) k); [|discriminate].
    injection Hp as <-. discriminate.
  - rewrite nth_error_update_nth_other in Hp by exact Hne.
    exists p. split; assumption.
Qed.

Lemma loadMeta_tidy (i : Z) (u : string) (s : Lib) :
  tidy s -> tidy (lib_of (_loadMeta h i u s)).
Proof.
  intros Ht. pose proof (loadMeta_keeps h i u s) as Hk.
  destruct (loadMeta_effect i u s) as (s' & ext & m & Hr & _ & _ & _ & H).
  rewrite Hr in *. simpl in Hk. cbv zeta in H. cbn [lib_of].
  destruct (_ || _).
  - destruct H as (_ & Hp & Hs). apply (tidy_same s); [split; assumption|exact Ht].
  - destruct H as (_ & Hpr & Hpe & Hn & Htt).
    destruct Ht as (H1 & H2 & H3).
    split; [apply (keeps_ok s); assumption|]. split.
    + intros t Et. rewrite Htt in Et. destruct (H2 t Et) as (Hlt & Hex).
      rewrite Hn. split; [lia|]. intros e He Hf. rewrite Hpe in He.
      apply in_app_or in He. destruct He as [He|[<-|[]]];
        [apply Hex; assumption|].
      simpl in Hf. lia.
    + intros k (p & Hp & Ha). rewrite Hpr in Hp. rewrite Hpe.
      destruct (Nat.lt_ge_cases k (List.length (probes s))) as [Hlt|Hge].
      * rewrite nth_error_app1 in Hp by exact Hlt.
        destruct (H3 k) as (hd & Hhd); [exists p; split; assumption|].
        exists hd. apply in_or_app. left. exact Hhd.
      * assert (k = List.length (probes s)) as ->.
        { assert (Hsome : nth_error (probes s ++
                    [{| p_entry := i; p_src := u; p_attached := true |}]) k
                    <> None) by congruence.
          apply nth_error_Some in Hsome. rewrite length_app in Hsome.
          simpl in Hsome. lia. }
        exists (nextHandle s). apply in_or_app. right. left. reflexivity.
Qed.

Lemma load_missing_meta_tidy (vs : list Entry) : forall s,
    tidy s -> tidy (lib_of (load_missing_meta h vs s)).
Proof.
  induction vs as [|v vs IH]; intros s Hs; simpl; [exact Hs|].
  destruct (meta_get (id v) (metaCache s)); [apply IH; exact Hs|].
  pose proof (loadMeta_tidy (id v) (url v) s Hs) as H1.
  destruct (_loadMeta h (id v) (url v) s) as [s'|e s']; simpl in H1.
  - apply IH. exact H1.
  - exact H1.
Qed.

Lemma render_tidy (s : Lib) : tidy s -> tidy (lib_of (render h s)).
Proof.
  intros Hs. unfold render.
  destruct (Nat.eqb (List.length (videos s)) 0); [exact Hs|].
  destruct (cards_from h s 0 (videos s)) as [cs|e]; [|exact Hs].
  apply load_missing_meta_tidy. exact Hs.
Qed.

Lemma updateCard_tidy (i : Z) (s : Lib) : tidy s -> tidy (_updateCard h i s).
Proof.
  unfold _updateCard. destruct (listView s); exact (fun H => H).
Qed.

Lemma showToast_tidy (msg type : string) (s : Lib) :
  tidy s -> tidy (showToast msg type s).
Proof.
  intros (H1 & H2 & H3).
  split; [apply showToast_timer; exact H1|]. split.
  - simpl. intros t [= <-]. split; [lia|].
    intros e He Hf. apply in_app_or in He. destruct He as [He|[<-|[]]];
      [|reflexivity].
    exfalso. destruct H1 as (_ & Hlt & _).
    assert (Hin : In e (pending s)).
    { destruct (toastTimer s); simpl in He; [|exact He].
      apply filter_In in He. apply He. }
    apply Hlt in Hin. lia.
  - intros k Hk. destruct (H3 k Hk) as (hd & Hhd).
    exists hd. simpl. apply in_or_app. left.
    destruct (toastTimer s) as [t|] eqn:Et; simpl; [|exact Hhd].
    apply filter_In. split; [exact Hhd|]. simpl.
    destruct (Nat.eqb hd t) eqn:E; [|reflexivity].
    apply Nat.eqb_eq in E. destruct (H2 t eq_refl) as (_ & Hex).
    specialize (Hex _ Hhd E). discriminate.
Qed.

Lemma find_handle (hd : nat) (l : list (nat * (Z * LibTimer))) :
  match find (fun e => Nat.eqb (fst e) hd) l with
  | Some e => In e l /\ fst e = hd
  | None => forall e, In e l -> fst e <> hd
  end.
Proof.
  induction l as [|x l IH]; simpl; [intros e []|].
  destruct (Nat.eqb (fst x) hd) eqn:E.
  - split; [left; reflexivity | apply Nat.eqb_eq; exact E].
  - destruct (find _ l) as [e|].
    + split; [right; apply IH | apply IH].
    + intros e [<-|He]; [apply Nat.eqb_neq; exact E | apply IH; exact He].
Qed.

Lemma fire_tidy (hd : nat) (s : Lib) : tidy s -> tidy (fire hd s).
Proof.
  intros (H1 & H2 & H3).
  pose proof (fire_handles hd s H1) as Hok.
  pose proof (find_handle hd (pending s)) as Hf.
  unfold fire in *.
  destruct (find _ (pending s)) as [[n [dl job]]|];
    [|split; [|split]; assumption].
  destruct Hf as (Hin & Hn). simpl in Hn. subst n.
  assert (Hsurv : forall k hd',
             In (hd', (15000, ProbeCleanup k)) (pending s) ->
             (dl, job) <> (15000, ProbeCleanup k) ->
             In (hd', (15000, ProbeCleanup k))
               (clear_handle (Some hd) (pending s))).
  { intros k hd' Hk Hne. simpl. apply filter_In. split; [exact Hk|]. simpl.
    destruct (Nat.eqb hd' hd) eqn:E; [|reflexivity].
    apply Nat.eqb_eq in E. subst hd'. exfalso. apply Hne.
    destruct H1 as (Hnd & _).
    exact (NoDup_fst_unique _ _ _ _ Hnd Hin Hk). }
  assert (H2' : forall t, toastTimer s = Some t ->
                  (t < nextHandle s)%nat /\
                  forall e, In e (clear_handle (Some hd) (pending s)) ->
                            fst e = t -> is_hide e = true).
  { intros t Et. destruct (H2 t Et) as (Hlt & Hex). split; [exact Hlt|].
    intros e He. apply Hex. simpl in He. apply filter_In in He. apply He. }
  destruct job as [|k0].
  - split; [exact Hok|]. split; [exact H2'|].
    intros k Hk. destruct (H3 k Hk) as (hd' & Hhd'). exists hd'.
    apply Hsurv; [exact Hhd' | discriminate].
  - split; [exact Hok|]. split; [exact H2'|].
    intros k (p & Hp & Ha). simpl in Hp.
    destruct (Nat.eq_dec k k0) as [->|Hne].
    + rewrite nth_error_update_nth_same in Hp.
      destruct (nth_error (probes s) k0); [|discriminate].
      injection Hp as <-. discriminate.
    + rewrite nth_error_update_nth_other in Hp by exact Hne.
      destruct (H3 k) as (hd' & Hhd'); [exists p; split; assumption|].
      exists hd'. apply Hsurv; [exact Hhd'|]. intros [= _ E].
      apply Hne. symmetry. exact E.
Qed.

Lemma render_then_toast_tidy (msg : string) (s : Lib) :
  tidy s ->
  tidy (lib_of (then_ (render h s)
                  (fun s => Returned (showToast msg EmptyString s)))).
Proof.
  intros Hs. pose proof (render_tidy s Hs) as Hk.
  destruct (render_returns h s) as (s' & Hr & _). rewrite Hr in *. simpl in *.
  apply showToast_tidy. exact Hk.
Qed.

Lemma act_tidy (a : Action) (s : Lib) : tidy s -> tidy (act h a s).
Proof.
  intros Hs. destruct a as [text|n1 n2|i|i|answer|i cl|k d|k|hd]; cbn [act].
  - exact Hs.
  - unfold addVideo.
    destruct (String.eqb _ EmptyString); [apply showToast_tidy; exact Hs|].
    destruct (existsb _ (videos s)); [apply showToast_tidy; exact Hs|].
    cbv zeta.
    match goal with |- context [render h ?x] => set (s1 := x) end.
    assert (H1 : tidy s1).
    { unfold s1. destruct (no_title _); exact Hs. }
    pose proof (render_tidy s1 H1) as Hk.
    destruct (render_returns h s1) as (s2 & Hr & _). rewrite Hr in *.
    simpl in Hk. cbn [then_].
    apply loadMeta_tidy. apply showToast_tidy. exact Hk.
  - unfold deleteVideo. cbv zeta. apply render_then_toast_tidy.
    eapply tidy_same; [|exact Hs].
    destruct (activeId s) as [a|]; [|repeat split].
    destruct (a =? i)%Z; repeat split.
  - unfold playVideo.
    destruct (find _ (videos s)) as [v|]; [|exact Hs]. cbv zeta.
    destruct (loadVideo _ _ _ _) as [p|e p]; [|exact Hs].
    apply render_tidy. exact Hs.
  - unfold clearAll.
    destruct (Nat.eqb _ 0); [exact Hs|].
    destruct (negb answer); [exact Hs|]. cbv zeta.
    apply render_then_toast_tidy. exact Hs.
  - unfold head_response. destruct cl as [c|]; [|exact Hs].
    destruct (String.eqb c EmptyString); [exact Hs|].
    destruct (gt _ _); [|exact Hs].
    destruct (meta_get i (metaCache s)); [|exact Hs].
    apply updateCard_tidy. exact Hs.
  - unfold probe_loadedmetadata.
    destruct (nth_error (probes s) k) as [p|]; [|exact Hs].
    destruct (num_truthy d && is_finite d);
      [|apply release_probe_tidy; exact Hs].
    destruct (meta_get _ _); [|exact Hs].
    cbn [lib_of]. apply release_probe_tidy. apply updateCard_tidy. exact Hs.
  - apply release_probe_tidy. exact Hs.
  - apply fire_tidy. exact Hs.
Qed.

Lemma acts_tidy (l : list Action) : forall s, tidy s -> tidy (acts h l s).
Proof.
  unfold acts. induction l as [|a l IH]; intros s Hs; simpl; [exact Hs|].
  apply IH, act_tidy, Hs.
Qed.

End Probes.

(* ------------------------------------------------------------------ *)
(** ** The library: metadata *)

(** X14 (metadata is asked for once).  [_loadMeta(id, url)] returns, and
    starts either nothing or exactly one HEAD request for the URL together
    with one probe element on it; it starts nothing when the extension of
    the URL is m3u8 or mpd.  Whatever it did, calling it again for the same
    identifier, with any URL, starts no request, no probe and no timer. *)
Theorem metadata_requested_once
  (h : Library.Host) (i : Z) (u u' : string) (s : Library.Lib) :
  exists s1 s2,
    Library._loadMeta h i u s = Library.Returned s1 /\
    Library._loadMeta h i u' s1 = Library.Returned s2 /\
    Library.requests s2 = Library.requests s1 /\
    Library.probes s2 = Library.probes s1 /\
    Library.pending s2 = Library.pending s1 /\
    (new_requests s s1 = [] /\ new_probes s s1 = [] \/
     new_requests s s1 = [Library.HeadRequest i u] /\
     new_probes s s1 = [{| Library.p_entry := i; Library.p_src := u;
                           Library.p_attached := true |}]) /\
    (forall ext, _getExt (Library.platform h) u = Normal ext ->
                 Library.is_stream_ext ext = true ->
                 Library.requests s1 = Library.requests s /\
                 Library.probes s1 = Library.probes s).
Proof.
  destruct (loadMeta_effect h i u s) as (s1 & ext & m & Hr & He & Hm & Hl & H).
  destruct (loadMeta_effect h i u' s1) as (s2 & ext' & m' & Hr' & _ & _ & _ & H').
  cbv zeta in H, H'. rewrite Hm, Hl in H'. cbn [orb] in H'.
  destruct H' as (R1 & R2 & R3 & _).
  exists s1, s2. split; [exact Hr|]. split; [exact Hr'|].
  split; [exact R1|]. split; [exact R2|]. split; [exact R3|].
  unfold new_requests, new_probes. split.
  - destruct (_ || _).
    + left. destruct H as (-> & -> & _).
      split; apply skipn_all.
    + right. destruct H as (-> & -> & _).
      split; apply skipn_length_app.
  - intros e He' Hs. rewrite He in He'. injection He' as <-.
    rewrite Hs, orb_true_r in H. split; apply H.
Qed.

(** X15 (metadata that comes late).  When an answer arrives for an entry
    that the metadata cache no longer knows (it has been deleted
    meanwhile): a content-length header changes nothing whatever its
    value; a duration that is a finite number other than 0 makes the
    'loadedmetadata' listener throw a TypeError before it has released the
    probe, which stays as it was; any other duration releases the
    probe. *)
Theorem late_metadata_is_dropped
  (h : Library.Host) (k : nat) (p : Library.Probe) (d : JS.number)
  (cl : option string) (s : Library.Lib) :
  nth_error (Library.probes s) k = Some p ->
  Library.meta_get (Library.p_entry p) (Library.metaCache s) = None ->
  Library.head_response h (Library.p_entry p) cl s = s /\
  (if JS.num_truthy d && JS.is_finite d
   then exists msg,
          Library.probe_loadedmetadata h k d s
          = Library.Threw (JS.TypeError msg) s
   else Library.probe_loadedmetadata h k d s
        = Library.Returned (Library.release_probe k s)).
Proof.
  intros Hp Hm. split.
  - unfold Library.head_response. rewrite Hm.
    destruct cl as [c|]; [|reflexivity].
    destruct (String.eqb c EmptyString); [reflexivity|].
    destruct (JS.gt _ _); reflexivity.
  - unfold Library.probe_loadedmetadata. rewrite Hp, Hm.
    destruct (JS.num_truthy d && JS.is_finite d); [|reflexivity].
    eexists. reflexivity.
Qed.

Lemma late_metadata_is_dropped_witness :
  exists msg,
    Library.probe_loadedmetadata sample_host 0 (JS.of_Z 90)
      (Library.acts sample_host [Library.Click_delete 1000] three_videos)
    = Library.Threw (JS.TypeError msg)
        (Library.acts sample_host [Library.Click_delete 1000] three_videos).
Proof.
  assert (Hp : nth_error
                 (Library.probes
                    (Library.acts sample_host [Library.Click_delete 1000]
                       three_videos)) 0
               = Some {| Library.p_entry := 1000;
                         Library.p_src := "https://example.com/media/intro.mp4";
                         Library.p_attached := true |})
    by (vm_compute; reflexivity).
  assert (Hm : Library.meta_get 1000
                 (Library.metaCache
                    (Library.acts sample_host [Library.Click_delete 1000]
                       three_videos)) = None)
    by (vm_compute; reflexivity).
  exact (proj2 (late_metadata_is_dropped sample_host 0 _ (JS.of_Z 90) None
                  _ Hp Hm)).
Defined.

(** X16 (no probe is left behind).  If the timers and probes are in order
    (as they are when the page has just loaded), then after any sequence of
    actions every probe element that is still in the document has its
    15 s clean-up timer pending, and when that timer expires the probe is
    out of the document with its source emptied. *)
Theorem probes_are_cleaned_up
  (h : Library.Host) (l : list Library.Action) (s : Library.Lib) :
  tidy s ->
  let s' := Library.acts h l s in
  forall k, attached k s' ->
    exists hd,
      In (hd, (15000, Library.ProbeCleanup k)) (Library.pending s') /\
      released k (Library.fire hd s').
Proof.
  intros Hs. cbv zeta. pose proof (acts_tidy h l s Hs) as Ht.
  set (s' := Library.acts h l s) in *.
  intros k Hk. destruct Ht as ((Hnd & _ & _) & _ & H3).
  destruct (H3 k Hk) as (hd & Hhd). exists hd. split; [exact Hhd|].
  pose proof (find_handle hd (Library.pending s')) as Hf.
  unfold Library.fire.
  destruct (find _ (Library.pending s')) as [[n [dl job]]|].
  - destruct Hf as (Hin & Hn). simpl in Hn. subst n.
    pose proof (NoDup_fst_unique _ _ _ _ Hnd Hin Hhd) as E.
    injection E as -> ->.
    destruct Hk as (p & Hp & _). unfold released. simpl.
    rewrite nth_error_update_nth_same, Hp. simpl.
    eexists. split; [reflexivity|]. split; reflexivity.
  - exfalso. apply (Hf _ Hhd). reflexivity.
Qed.

Lemma probes_are_cleaned_up_witness :
  exists hd,
    In (hd, (15000, Library.ProbeCleanup 1))
      (Library.pending
         (Library.acts sample_host
            [Library.Type_url " https://example.com/media/intro.mp4 ";
             Library.Click_add 1000 1000;
             Library.Type_url "https://example.com/media/outro.webm";
             Library.Click_add 2000 2000;
             Library.Probe_error 0]
            fresh_library)) /\
    released 1
      (Library.fire hd
         (Library.acts sample_host
            [Library.Type_url " https://example.com/media/intro.mp4 ";
             Library.Click_add 1000 1000;
             Library.Type_url "https://example.com/media/outro.webm";
             Library.Click_add 2000 2000;
             Library.Probe_error 0]
            fresh_library)).
Proof.
  assert (H0 : tidy fresh_library).
  { split; [split; [vm_compute; constructor | split; vm_compute; intros e []]|].
    split; [vm_compute; discriminate|].
    intros k (p & Hp & _). vm_compute in Hp. destruct k; discriminate Hp. }
  apply (probes_are_cleaned_up sample_host _ fresh_library H0 1%nat).
  eexists. split; vm_compute; reflexivity.
Defined.

(** X17 (the format badge).  [_guessFormat] never throws, whatever the URL,
    and what it returns is never the empty string: an extension that is not
    in its table is shown in upper case, and 'VIDEO' stands in when that
    would be empty. *)
Theorem guessFormat_never_blank (h : Library.Host) (u : string) :
  exists f,
    Library._guessFormat h u = Normal f /\
    f <> Library.Label EmptyString /\
    forall ext,
      _getExt (Library.platform h) u = Normal (Some ext) ->
      Library.format_map ext = None ->
      f = Library.Label
            (if String.eqb (Library.String_toUpperCase h ext) EmptyString
             then "VIDEO" else Library.String_toUpperCase h ext).
Proof.
  destruct (getExt_total (Library.platform h) u) as (ext & He & _).
  unfold Library._guessFormat. rewrite He.
  destruct (Library.format_map ext) as [f|] eqn:Ef.
  - exists f. split; [reflexivity|]. split.
    + unfold Library.format_map in Ef.
      repeat match type of Ef with
             | (if ?c then _ else _) = _ => destruct c
             end; try discriminate; injection Ef as <-; discriminate.
    + intros e [= <-] Hn. congruence.
  - eexists. split; [reflexivity|]. split.
    + destruct (String.eqb _ EmptyString) eqn:E; [discriminate|].
      intros [= Hx]. rewrite Hx in E. discriminate.
    + intros e [= <-] _. reflexivity.
Qed.

(* ------------------------------------------------------------------ *)
(** ** The controls *)

Section Scrubber.

Import Controls.

Variable env : Platform.
Variable se : Stats.Env.

Lemma drag_ok_frame (c c' : Panel) : same_drag c c' -> drag_ok c -> drag_ok c'.
Proof. unfold drag_ok. intros (-> & ->). exact (fun H => H). Qed.

Lemma scrubMove_drag (e : Pointer) (c : Panel) : same_drag c (_scrubMove env e c).
Proof. unfold _scrubMove. destruct (negb (isDragging c)); split; reflexivity. Qed.

Lemma scrubStart_drag (e : Pointer) (c : Panel) :
  drag_ok c ->
  isDragging (_scrubStart env e c) = true /\
  window_listeners (_scrubStart env e c) = drag_listeners.
Proof.
  unfold drag_ok, _scrubStart. intros H. cbv zeta.
  destruct (scrubMove_drag e (set_drag true (window_listeners c) c)) as (Hd & Hl).
  cbn [isDragging window_listeners set_drag] in *.
  set (c1 := _scrubMove env e (set_drag true (window_listeners c) c)) in *.
  clearbody c1. rewrite Hd, Hl, H.
  destruct (isDragging c); split; reflexivity.
Qed.

Lemma scrubEnd_drag (e : Pointer) (c : Panel) :
  drag_ok c ->
  isDragging (panel_of (_scrubEnd e c)) = false /\
  window_listeners (panel_of (_scrubEnd e c)) = [].
Proof.
  unfold drag_ok, _scrubEnd. intros H.
  destruct (isDragging c) eqn:Ed; simpl; [|rewrite Ed; split; [reflexivity|exact H]].
  rewrite H.
  destruct (duration (video (player c))) as [|d]; [split; reflexivity|].
  destruct (num_truthy d); [|split; reflexivity].
  destruct (is_finite _); split; reflexivity.
Qed.

Lemma window_event_drag (ev : WindowEvent) (e : Pointer) (c : Panel) :
  drag_ok c -> drag_ok (window_event env ev e c).
Proof.
  intros H. unfold window_event. pose proof H as H0. unfold drag_ok in H0.
  destruct (isDragging c) eqn:Ed; rewrite H0; [|exact H].
  destruct ev; simpl.
  - eapply drag_ok_frame; [apply scrubMove_drag | exact H].
  - destruct (scrubEnd_drag e c H) as (H1 & H2).
    unfold drag_ok. rewrite H1, H2. reflexivity.
  - eapply drag_ok_frame; [apply scrubMove_drag | exact H].
  - destruct (scrubEnd_drag e c H) as (H1 & H2).
    unfold drag_ok. rewrite H1, H2. reflexivity.
Qed.

Lemma due_drag (id : nat) (c : Panel) : same_drag c (due se id c).
Proof.
  unfold due. destruct (find _ (scheduled c)) as [[n t]|]; [|split; reflexivity].
  destruct (repeats t), (job t); split; reflexivity.
Qed.

Lemma step_drag (i : Input) (c : Panel) : drag_ok c -> drag_ok (step env se i c).
Proof.
  intros H. destruct i as [e|ev e| | | | | | | |id|i]; cbn [step].
  - destruct (scrubStart_drag e c H) as (H1 & H2).
    unfold drag_ok. rewrite H1, H2. reflexivity.
  - apply window_event_drag. exact H.
  - eapply drag_ok_frame; [|exact H]. unfold _onTimeUpdate.
    destruct (duration _) as [|d]; [split; reflexivity|].
    destruct (_ || _); split; reflexivity.
  - eapply drag_ok_frame; [|exact H]. unfold revealControls.
    cbv zeta. destruct (negb _); split; reflexivity.
  - eapply drag_ok_frame; [|exact H]. unfold container_mouseleave.
    destruct (negb _); split; reflexivity.
  - exact H.
  - eapply drag_ok_frame; [|exact H]. unfold revealControls.
    cbv zeta. destruct (negb _); split; reflexivity.
  - eapply drag_ok_frame; [|exact H]. unfold toggleStats.
    destruct (statsActive _); split; reflexivity.
  - exact H.
  - eapply drag_ok_frame; [apply due_drag | exact H].
  - eapply drag_ok_frame; [|exact H].
    destruct i; try (split; reflexivity).
    unfold loadVideo. cbv zeta.
    destruct (Player.loadVideo _ _ _ _); split; reflexivity.
Qed.

Lemma run_drag (l : list Input) : forall c, drag_ok c -> drag_ok (run env se l c).
Proof.
  unfold run. induction l as [|i l IH]; intros c H; simpl; [exact H|].
  apply IH, step_drag, H.
Qed.

End Scrubber.

Section Scheduling.

Import Controls.

Variable env : Platform.
Variable se : Stats.Env.

Lemma handler_statsActive (e : HlsEmit) (s : State) :
  statsActive (ui (state_of (handler_of e s))) = statsActive (ui s).
Proof.
  destruct e as [|data|]; simpl.
  - unfold on_MANIFEST_PARSED.
    destruct (hlsInstance s) as [i|]; [|reflexivity].
    destruct (nth_error (heap s) i) as [g|]; [|reflexivity].
    destruct (audioTracks g) as [[|a l]|]; reflexivity.
  - unfold on_ERROR.
    destruct (hlsInstance s) as [i|];
      (destruct (fatal data); [|reflexivity]);
      destruct (type data); reflexivity.
  - unfold on_AUDIO_TRACK_LOADED.
    destruct (hlsInstance s) as [i|]; [|reflexivity].
    destruct (nth_error (heap s) i) as [g|]; [|reflexivity].
    destruct (audioTrack g <? 0)%Z; [|reflexivity].
    destruct (audioTracks g) as [[|a l]|]; reflexivity.
Qed.

Lemma hls_emit_statsActive (i : nat) (e : HlsEmit) (s : State) :
  statsActive (ui (hls_emit i e s)) = statsActive (ui s).
Proof.
  unfold hls_emit. destruct (nth_error (heap s) i) as [g|]; [|reflexivity].
  generalize (listeners g). intros l. revert s.
  induction l as [|ev l IH]; intros s; simpl; [reflexivity|].
  rewrite IH. destruct (HlsEvent_eqb ev (event_of e)); [|reflexivity].
  apply handler_statsActive.
Qed.

Lemma loadVideo_statsActive (url title : string) (s : State) :
  statsActive (ui (state_of (Player.loadVideo env url title s))) = false.
Proof.
  unfold Player.loadVideo.
  destruct (_getExt env url) as [ext|x]; [|reflexivity].
  cbv zeta. unfold hlsInstance_on.
  match goal with
  | |- context [match hlsInstance ?x with _ => _ end] => set (s1 := x)
  end.
  assert (H1 : statsActive (ui s1) = false).
  { unfold s1. destruct (kind_of ext url); try reflexivity.
    unfold _loadHls.
    destruct (negb (Hls_defined env));
      [destruct (canPlayType_mpegurl env); reflexivity|].
    destruct (negb (Hls_isSupported env)); reflexivity. }
  destruct (hlsInstance s1); exact H1.
Qed.

Lemma step_statsActive (i : Player.Input) (s : State) :
  (forall url title, i <> ILoadVideo url title) ->
  statsActive (ui (Player.step env i s)) = statsActive (ui s).
Proof.
  intros Hne. destruct i as [url title|secs| |ev|j e|j tr n|v|k]; simpl.
  - exfalso. apply (Hne url title). reflexivity.
  - unfold seek. destruct (is_finite _); reflexivity.
  - unfold togglePlayPause. destruct (paused (video s)); reflexivity.
  - destruct ev; simpl; try reflexivity.
    + unfold _scheduleUnmute. simpl. destruct (unmutePending s); reflexivity.
    + unfold _scheduleUnmute. simpl. destruct (unmutePending s); reflexivity.
    + unfold _onProgress.
      destruct (negb (truthy (duration (video s))) ||
                (List.length (buffered (video s)) =? 0)%nat); [reflexivity|].
      destruct (nth_error _ _) as [[a b]|]; reflexivity.
  - apply hls_emit_statsActive.
  - reflexivity.
  - reflexivity.
  - unfold fire_timer. destruct (nth_error (timers s) k) as [t|]; [|reflexivity].
    destruct t as [dl cb]. destruct cb. simpl. unfold unmute_callback. simpl.
    destruct (negb _ && _); reflexivity.
Qed.

Lemma find_handle_any {A : Type} (hd : nat) (l : list (nat * A)) :
  match find (fun e => Nat.eqb (fst e) hd) l with
  | Some e => In e l /\ fst e = hd
  | None => forall e, In e l -> fst e <> hd
  end.
Proof.
  induction l as [|x l IH]; simpl; [intros e []|].
  destruct (Nat.eqb (fst x) hd) eqn:E.
  - split; [left; reflexivity | apply Nat.eqb_eq; exact E].
  - destruct (find _ l) as [e|].
    + split; [right; apply IH | apply IH].
    + intros e [<-|He]; [apply Nat.eqb_neq; exact E | apply IH; exact He].
Qed.

Lemma filter_clear_other {A : Type} (p : nat * A -> bool) (t : nat)
      (l : list (nat * A)) :
  (forall e, In e l -> fst e = t -> p e = false) ->
  filter p (filter (fun e => negb (Nat.eqb (fst e) t)) l) = filter p l.
Proof.
  induction l as [|x l IH]; simpl; intros H; [reflexivity|].
  assert (Hl : filter p (filter (fun e => negb (Nat.eqb (fst e) t)) l)
               = filter p l)
    by (apply IH; intros e He; apply H; right; exact He).
  destruct (Nat.eqb (fst x) t) eqn:E; simpl.
  - apply Nat.eqb_eq in E. rewrite (H x (or_introl eq_refl) E). exact Hl.
  - rewrite Hl. reflexivity.
Qed.

Lemma filter_clear_all {A : Type} (p : nat * A -> bool) (t : nat)
      (l : list (nat * A)) :
  (forall e, In e (filter p l) -> fst e = t) ->
  filter p (filter (fun e => negb (Nat.eqb (fst e) t)) l) = [].
Proof.
  induction l as [|x l IH]; simpl; intros H; [reflexivity|].
  assert (Hl : filter p (filter (fun e => negb (Nat.eqb (fst e) t)) l) = []).
  { apply IH. intros e He. apply H. destruct (p x); [right|]; exact He. }
  destruct (Nat.eqb (fst x) t) eqn:E; simpl; [exact Hl|].
  destruct (p x) eqn:Ep; [|exact Hl].
  exfalso. assert (fst x = t) by (apply H; left; reflexivity).
  apply Nat.eqb_neq in E. contradiction.
Qed.

Lemma sched_frame (c c' : Panel) :
  same_sched c c' -> timers_in_order c -> timers_in_order c'.
Proof.
  intros (H1 & H2 & H3 & H4 & H5).
  unfold timers_in_order, hide_jobs, stats_jobs.
  rewrite H1, H2, H3, H4, H5. exact (fun H => H).
Qed.

(** [clearTimeout(hideTimer)] takes the hide timers away and nothing
    else. *)
Lemma clear_hideTimer (c : Panel) :
  timers_in_order c ->
  filter is_hide_job (clear (hideTimer c) (scheduled c)) = [] /\
  filter (fun e => negb (is_hide_job e)) (clear (hideTimer c) (scheduled c))
  = stats_jobs c /\
  NoDup (map fst (clear (hideTimer c) (scheduled c))) /\
  (forall e, In e (clear (hideTimer c) (scheduled c)) -> In e (scheduled c)).
Proof.
  intros (H1 & H2 & H3 & H4 & H5). unfold hide_jobs in H3.
  destruct (hideTimer c) as [t|] eqn:Et; simpl.
  - split; [|split; [|split]].
    + apply filter_clear_all. intros e He. destruct (H3 e He) as ([= ->] & _).
      reflexivity.
    + apply filter_clear_other. intros e He Hf.
      destruct (H4 t eq_refl) as (_ & Hx). rewrite (Hx e He Hf). reflexivity.
    + apply NoDup_fst_filter. exact H1.
    + intros e He. apply filter_In in He. apply He.
  - split; [|split; [|split]]; try assumption; try reflexivity; auto.
    destruct (filter is_hide_job (scheduled c)) as [|e l] eqn:Ef; [reflexivity|].
    destruct (H3 e (or_introl eq_refl)) as (Hx & _). discriminate.
Qed.

Lemma stats_open_cases (c : Panel) (b : bool) (si : option nat)
      (l : list (nat * Scheduled)) :
  stats_open c = b ->
  (if b
   then exists n, si = Some n /\
                  filter (fun e => negb (is_hide_job e)) l = [(n, stats_interval)]
   else si = None /\ filter (fun e => negb (is_hide_job e)) l = []) ->
  if stats_open c
  then exists n, si = Some n /\
                 filter (fun e => negb (is_hide_job e)) l = [(n, stats_interval)]
  else si = None /\ filter (fun e => negb (is_hide_job e)) l = [].
Proof. intros ->. exact (fun H => H). Qed.

Lemma revealControls_order (c : Panel) :
  timers_in_order c -> timers_in_order (revealControls c).
Proof.
  intros H. pose proof (clear_hideTimer c H) as (C1 & C2 & C3 & C4).
  destruct H as (H1 & H2 & H3 & H4 & H5).
  unfold revealControls. cbv zeta.
  cbn [hideTimer scheduled set_hidden player nextId statsInterval].
  destruct (negb (paused (video (player c)))).
  - unfold timers_in_order, hide_jobs, stats_jobs, stats_open. simpl.
    rewrite !filter_app, C1, C2. simpl. rewrite app_nil_r.
    split; [|split; [|split; [|split]]].
    + rewrite map_app. apply NoDup_app; [exact C3 | repeat constructor; intros [] |].
      intros a Ha [<-|[]]. apply in_map_iff in Ha.
      destruct Ha as (e & He & Hin). apply C4, H2 in Hin. simpl in He. lia.
    + intros e He. apply in_app_or in He. destruct He as [He|[<-|[]]].
      * apply C4, H2 in He. lia.
      * simpl. lia.
    + intros e [<-|[]]. split; reflexivity.
    + intros t [= <-]. split; [lia|]. intros e He Hf.
      apply in_app_or in He. destruct He as [He|[<-|[]]]; [|reflexivity].
      apply C4, H2 in He. lia.
    + exact H5.
  - unfold timers_in_order, hide_jobs, stats_jobs, stats_open. simpl.
    rewrite C1, C2.
    split; [exact C3|]. split; [intros e He; apply H2, C4, He|].
    split; [intros e []|]. split; [|exact H5].
    intros t Et. destruct (H4 t Et) as (Hlt & Hx). split; [exact Hlt|].
    intros e He. apply Hx, C4, He.
Qed.

Lemma controls_mouseenter_order (c : Panel) :
  timers_in_order c -> timers_in_order (controls_mouseenter c).
Proof.
  intros H. pose proof (clear_hideTimer c H) as (C1 & C2 & C3 & C4).
  destruct H as (H1 & H2 & H3 & H4 & H5).
  unfold timers_in_order, hide_jobs, stats_jobs, stats_open,
    controls_mouseenter. simpl.
  rewrite C1, C2.
  split; [exact C3|]. split; [intros e He; apply H2, C4, He|].
  split; [intros e []|]. split; [|exact H5].
  intros t Et. destruct (H4 t Et) as (Hlt & Hx). split; [exact Hlt|].
  intros e He. apply Hx, C4, He.
Qed.

Lemma closeStats_order (c : Panel) :
  timers_in_order c ->
  timers_in_order (closeStats c) /\ stats_open (closeStats c) = false.
Proof.
  intros (H1 & H2 & H3 & H4 & H5). split; [|reflexivity].
  assert (Hsub : forall e, In e (clear (statsInterval c) (scheduled c)) ->
                           In e (scheduled c)).
  { intros e. destruct (statsInterval c); simpl; [|exact (fun H => H)].
    intros He. apply filter_In in He. apply He. }
  assert (Hhide : filter is_hide_job (clear (statsInterval c) (scheduled c))
                  = hide_jobs c).
  { unfold hide_jobs. destruct (stats_open c).
    - destruct H5 as (n & -> & Hs). simpl. apply filter_clear_other.
      intros e He Hf. destruct (is_hide_job e) eqn:E; [|reflexivity].
      exfalso.
      assert (Hin : In (n, stats_interval) (scheduled c)).
      { assert (Hx : In (n, stats_interval) (stats_jobs c))
          by (rewrite Hs; left; reflexivity).
        unfold stats_jobs in Hx. apply filter_In in Hx. apply Hx. }
      destruct e as [m t]. simpl in Hf. subst m.
      pose proof (NoDup_fst_unique _ _ _ _ H1 He Hin) as ->. discriminate.
    - destruct H5 as (-> & _). reflexivity. }
  assert (Hstats : filter (fun e => negb (is_hide_job e))
                     (clear (statsInterval c) (scheduled c)) = []).
  { destruct (stats_open c).
    - destruct H5 as (n & -> & Hs). simpl. apply filter_clear_all.
      intros e He. unfold stats_jobs in Hs. rewrite Hs in He.
      destruct He as [<-|[]]. reflexivity.
    - destruct H5 as (-> & Hs). exact Hs. }
  unfold timers_in_order, hide_jobs, stats_jobs, stats_open, closeStats. simpl.
  rewrite Hhide, Hstats.
  split; [destruct (statsInterval c); simpl;
          [apply NoDup_fst_filter|]; exact H1|].
  split; [intros e He; apply H2, Hsub, He|].
  split; [exact H3|]. split; [|split; reflexivity].
  intros t Et. destruct (H4 t Et) as (Hlt & Hx). split; [exact Hlt|].
  intros e He. apply Hx, Hsub, He.
Qed.

Lemma openStats_order (c : Panel) :
  stats_open c = false ->
  timers_in_order c -> timers_in_order (openStats se c).
Proof.
  intros Hc (H1 & H2 & H3 & H4 & H5). rewrite Hc in H5. destruct H5 as (_ & H5).
  unfold stats_jobs in H5.
  unfold timers_in_order, hide_jobs, stats_jobs, stats_open, openStats. simpl.
  rewrite !filter_app, H5. simpl. rewrite app_nil_r.
  split; [|split; [|split; [|split]]].
  - rewrite map_app. apply NoDup_app; [exact H1 | repeat constructor; intros [] |].
    intros a Ha [<-|[]]. apply in_map_iff in Ha.
    destruct Ha as (e & He & Hin). apply H2 in Hin. simpl in He. lia.
  - intros e He. apply in_app_or in He. destruct He as [He|[<-|[]]].
    + apply H2 in He. lia.
    + simpl. lia.
  - exact H3.
  - intros t Et. destruct (H4 t Et) as (Hlt & Hx). split; [lia|].
    intros e He Hf. apply in_app_or in He. destruct He as [He|[<-|[]]].
    + apply Hx; assumption.
    + simpl in Hf. lia.
  - eexists. split; reflexivity.
Qed.

Lemma loadVideo_order (url title : string) (c : Panel) :
  timers_in_order c -> timers_in_order (panel_of (loadVideo env url title c)).
Proof.
  intros H. destruct (closeStats_order c H) as (Hc & Ho).
  unfold loadVideo, clearStats. cbv zeta.
  set (c1 := set_player _ (closeStats c)).
  assert (H1 : timers_in_order c1)
    by (apply (sched_frame (closeStats c)); [repeat split | exact Hc]).
  assert (Ho1 : stats_open c1 = false) by exact Ho.
  pose proof (loadVideo_statsActive url title (player c1)) as Hl.
  destruct (Player.loadVideo env url title (player c1)) as [p|x p]; simpl in *;
    (apply (sched_frame c1); [|exact H1]); repeat split;
    unfold stats_open; simpl; rewrite Hl; symmetry; exact Ho1.
Qed.

Lemma due_order (id : nat) (c : Panel) :
  timers_in_order c -> timers_in_order (due se id c).
Proof.
  intros H. pose proof (find_handle_any id (scheduled c)) as Hf.
  unfold due. destruct (find _ (scheduled c)) as [[n t]|]; [|exact H].
  destruct Hf as (Hin & Hn). simpl in Hn. subst n.
  assert (Hc : timers_in_order
                 (if repeats t then c
                  else set_timers (hideTimer c) (statsInterval c)
                         (clear (Some id) (scheduled c)) (nextId c) c)).
  { destruct (repeats t) eqn:Er; [exact H|].
    destruct H as (H1 & H2 & H3 & H4 & H5).
    assert (Hjob : is_hide_job (id, t) = true).
    { destruct (is_hide_job (id, t)) eqn:E; [reflexivity|]. exfalso.
      assert (Hs : In (id, t) (stats_jobs c))
        by (apply filter_In; split; [exact Hin | rewrite E; reflexivity]).
      destruct (stats_open c).
      - destruct H5 as (n & _ & Hx). rewrite Hx in Hs.
        destruct Hs as [[= _ <-]|[]]. discriminate.
      - destruct H5 as (_ & Hx). rewrite Hx in Hs. destruct Hs. }
    assert (Hstats : filter (fun e => negb (is_hide_job e))
                       (clear (Some id) (scheduled c)) = stats_jobs c).
    { simpl. apply filter_clear_other. intros e He Hf.
      destruct e as [m t']. simpl in Hf. subst m.
      rewrite (NoDup_fst_unique _ _ _ _ H1 He Hin). rewrite Hjob. reflexivity. }
    unfold timers_in_order, hide_jobs, stats_jobs, stats_open. simpl.
    fold (stats_open c). change (filter (fun e => negb (is_hide_job e))
                                   (filter (fun e => negb (Nat.eqb (fst e) id))
                                      (scheduled c)))
      with (filter (fun e => negb (is_hide_job e)) (clear (Some id) (scheduled c))).
    rewrite Hstats.
    split; [apply NoDup_fst_filter; exact H1|].
    split; [intros e He; apply H2; apply filter_In in He; apply He|].
    split.
    { intros e He. apply H3. unfold hide_jobs. apply filter_In in He.
      destruct He as (He & Hp). apply filter_In in He.
      apply filter_In. split; [apply He | exact Hp]. }
    split; [|exact H5].
    intros t' Et. destruct (H4 t' Et) as (Hlt & Hx). split; [exact Hlt|].
    intros e He. apply Hx. apply filter_In in He. apply He. }
  destruct (job t); (eapply sched_frame; [|exact Hc]); repeat split.
Qed.

Lemma step_order (i : Input) (c : Panel) :
  timers_in_order c -> timers_in_order (step env se i c).
Proof.
  intros H. destruct i as [e|ev e| | | | | | | |id|i]; cbn [step].
  - eapply sched_frame; [|exact H]. unfold _scrubStart, _scrubMove. cbv zeta.
    simpl. destruct (duration _) as [|d]; [repeat split|].
    destruct (num_truthy d); repeat split.
  - unfold window_event. revert H. generalize (window_listeners c). intros l.
    revert c. induction l as [|x l IH]; intros c H; simpl; [exact H|].
    apply IH. destruct (WindowEvent_eqb (fst x) ev); [|exact H].
    eapply sched_frame; [|exact H].
    destruct (snd x); simpl.
    + unfold _scrubMove. destruct (negb (isDragging c)); [repeat split|].
      cbv zeta. destruct (duration _) as [|d]; [repeat split|].
      destruct (num_truthy d); repeat split.
    + unfold _scrubEnd. destruct (negb (isDragging c)); [repeat split|].
      cbv zeta. simpl. destruct (duration _) as [|d]; [repeat split|].
      destruct (num_truthy d); [|repeat split].
      destruct (is_finite _); repeat split.
  - eapply sched_frame; [|exact H]. unfold _onTimeUpdate.
    destruct (duration _) as [|d]; [repeat split|].
    destruct (_ || _); repeat split.
  - apply revealControls_order. exact H.
  - eapply sched_frame; [|exact H]. unfold container_mouseleave.
    destruct (negb _); repeat split.
  - apply controls_mouseenter_order. exact H.
  - apply revealControls_order. exact H.
  - unfold toggleStats. destruct (statsActive (ui (player c))) eqn:E.
    + apply closeStats_order. exact H.
    + apply openStats_order; [exact E | exact H].
  - apply closeStats_order. exact H.
  - apply due_order. exact H.
  - destruct i as [url title|secs| |ev|j e|j tr n|v|k];
      try (eapply sched_frame; [|exact H]; repeat split;
           unfold stats_open; cbn [player set_player];
           apply step_statsActive; intros u t; discriminate).
    apply loadVideo_order. exact H.
Qed.

Lemma run_order (l : list Input) : forall c,
    timers_in_order c -> timers_in_order (run env se l c).
Proof.
  unfold run. induction l as [|i l IH]; intros c H; simpl; [exact H|].
  apply IH, step_order, H.
Qed.

End Scheduling.

Lemma ratio_is_ratio (e : Controls.Pointer) : is_ratio (Controls.ratio e).
Proof.
  unfold is_ratio, Controls.ratio.
  set (x := div (sub (Controls.clientX e) (Controls.rect_left e))
              (Controls.rect_width e)).
  destruct (is_nan x) eqn:En.
  - left. destruct x; try discriminate. reflexivity.
  - right.
    destruct (clamp_cases x (of_Z 1) eq_refl eq_refl En) as (_ & H1 & H2 & H3 & _).
    auto.
Qed.

Lemma loadVideo_stats_closed (env : Platform) (url title : string) (s : State) :
  statsBody (ui (state_of (Player.loadVideo env url title s))) = EmptyString.
Proof.
  unfold Player.loadVideo.
  destruct (_getExt env url) as [ext|x]; [|reflexivity].
  cbv zeta. unfold hlsInstance_on.
  match goal with
  | |- context [match hlsInstance ?x with _ => _ end] => set (s1 := x)
  end.
  assert (H1 : statsBody (ui s1) = EmptyString).
  { unfold s1. destruct (kind_of ext url); try reflexivity.
    unfold _loadHls.
    destruct (negb (Hls_defined env));
      [destruct (canPlayType_mpegurl env); reflexivity|].
    destruct (negb (Hls_isSupported env)); reflexivity. }
  destruct (hlsInstance s1); exact H1.
Qed.

Lemma hide_jobs_at_most_one (c : Controls.Panel) :
  timers_in_order c -> (List.length (hide_jobs c) <= 1)%nat.
Proof.
  intros (Hnd & _ & Hhide & _).
  assert (Hn : NoDup (map fst (hide_jobs c)))
    by (apply NoDup_fst_filter; exact Hnd).
  destruct (hide_jobs c) as [|a [|b l]]; simpl; try lia.
  exfalso. inversion Hn as [|x xs Hx _]; subst. apply Hx. left.
  destruct (Hhide a (or_introl eq_refl)) as (Ha & _).
  destruct (Hhide b (or_intror (or_introl eq_refl))) as (Hb & _).
  congruence.
Qed.

(** X18 (the drag and its listeners).  If the window carries the scrub
    listeners exactly during a drag, it still does after any sequence of
    inputs: pressing on the bar while a drag is on adds no second set, and
    one release takes all four away.  So, outside a drag, no movement or
    release on the window changes anything; and during a drag 'timeupdate'
    leaves the played bar, the thumb and the time display to the
    pointer. *)
Theorem scrub_listeners_follow_drag
  (env : Platform) (se : Stats.Env) (l : list Controls.Input)
  (c : Controls.Panel) :
  drag_ok c ->
  let c' := Controls.run env se l c in
  drag_ok c' /\
  (Controls.isDragging c' = false ->
   forall ev e, Controls.window_event env ev e c' = c') /\
  (Controls.isDragging c' = true -> Controls._onTimeUpdate env c' = c') /\
  (forall e, Controls.isDragging (Controls._scrubStart env e c') = true /\
             Controls.window_listeners (Controls._scrubStart env e c')
             = drag_listeners).
Proof.
  intros H. cbv zeta. pose proof (run_drag env se l c H) as H'.
  set (c' := Controls.run env se l c) in *. clearbody c'.
  split; [exact H'|]. split; [|split].
  - intros Hd ev e. unfold Controls.window_event.
    unfold drag_ok in H'. rewrite Hd in H'. rewrite H'. reflexivity.
  - intros Hd. unfold Controls._onTimeUpdate. rewrite Hd.
    destruct (duration _); reflexivity.
  - intros e. apply scrubStart_drag. exact H'.
Qed.

Lemma scrub_listeners_follow_drag_witness :
  Controls.window_listeners dragging_panel = drag_listeners /\
  Controls.window_listeners
    (Controls.run sample_platform sample_stats
       [Controls.Core (IVideoChange (video_at JS.pos_zero (JS.Num (JS.of_Z 120))));
        Controls.Bar_down sample_pointer;
        Controls.Bar_down sample_pointer;
        Controls.Window_event Controls.Mouseup sample_pointer]
       Controls.init) = [].
Proof.
  assert (H0 : drag_ok Controls.init) by reflexivity.
  split.
  - pose proof (proj1 (scrub_listeners_follow_drag sample_platform sample_stats
                         [Controls.Core (IVideoChange
                            (video_at JS.pos_zero (JS.Num (JS.of_Z 120))));
                          Controls.Bar_down sample_pointer]
                         Controls.init H0)) as H.
    unfold drag_ok in H. unfold dragging_panel. rewrite H.
    vm_compute. reflexivity.
  - pose proof (proj1 (scrub_listeners_follow_drag sample_platform sample_stats
                         [Controls.Core (IVideoChange
                            (video_at JS.pos_zero (JS.Num (JS.of_Z 120))));
                          Controls.Bar_down sample_pointer;
                          Controls.Bar_down sample_pointer;
                          Controls.Window_event Controls.Mouseup sample_pointer]
                         Controls.init H0)) as H.
    unfold drag_ok in H. rewrite H. vm_compute. reflexivity.
Defined.

(** X19 (releasing the scrubber).  The ratio that the scrub handlers
    compute is NaN or lies between 0 and 1.  [_scrubEnd] does nothing
    outside a drag.  In a drag it ends the drag and removes the listeners
    first; then, with no usable duration, it returns without seeking; with
    a duration it assigns ratio times duration to [currentTime] when that
    product is finite, and throws a TypeError, the position unchanged, when
    it is not, which is always the case when the duration is infinite. *)
Theorem scrub_release_seeks (e : Controls.Pointer) (c : Controls.Panel) :
  drag_ok c ->
  is_ratio (Controls.ratio e) /\
  if Controls.isDragging c then
    let c' := Controls.panel_of (Controls._scrubEnd e c) in
    Controls.isDragging c' = false /\
    Controls.window_listeners c' = [] /\
    match duration (video (Controls.player c)) with
    | Num d =>
        if num_truthy d then
          let t := mul (Controls.ratio e) d in
          (if is_finite t
           then Controls._scrubEnd e c = Controls.Returned c' /\
                currentTime (video (Controls.player c')) = t
           else (exists msg, Controls._scrubEnd e c
                             = Controls.Threw (TypeError msg) c') /\
                Controls.player c' = Controls.player c) /\
          (d = Infinity -> is_finite t = false)
        else Controls._scrubEnd e c = Controls.Returned c' /\
             Controls.player c' = Controls.player c
    | Undefined =>
        Controls._scrubEnd e c = Controls.Returned c' /\
        Controls.player c' = Controls.player c
    end
  else Controls._scrubEnd e c = Controls.Returned c.
Proof.
  intros H. split; [apply ratio_is_ratio|].
  pose proof (scrubEnd_drag e c H) as (H1 & H2).
  unfold Controls._scrubEnd in *.
  destruct (Controls.isDragging c); [|reflexivity].
  cbn [negb] in *. cbv zeta in *.
  split; [exact H1|]. split; [exact H2|].
  cbn [Controls.player Controls.set_drag].
  destruct (duration (video (Controls.player c))) as [|d]; [split; reflexivity|].
  destruct (num_truthy d) eqn:Et; [|split; reflexivity].
  split.
  - destruct (is_finite (mul (Controls.ratio e) d)); [split; reflexivity|].
    split; [eexists; reflexivity | reflexivity].
  - intros ->. destruct (ratio_is_ratio e) as [->|(Hf & _)]; [reflexivity|].
    destruct (Controls.ratio e) as [s|s| |s m x]; try discriminate;
      destruct s; reflexivity.
Qed.

Lemma scrub_release_seeks_witness :
  currentTime (video (Controls.player
    (Controls.panel_of (Controls._scrubEnd sample_pointer dragging_panel))))
  = of_Z 30.
Proof.
  assert (H0 : drag_ok dragging_panel) by (vm_compute; reflexivity).
  assert (Hd : Controls.isDragging dragging_panel = true)
    by (vm_compute; reflexivity).
  assert (Hv : duration (video (Controls.player dragging_panel))
               = Num (of_Z 120)) by (vm_compute; reflexivity).
  assert (Ht : num_truthy (of_Z 120) = true) by (vm_compute; reflexivity).
  assert (Hf : is_finite (mul (Controls.ratio sample_pointer) (of_Z 120)) = true)
    by (vm_compute; reflexivity).
  generalize (scrub_release_seeks sample_pointer dragging_panel H0).
  rewrite Hd, Hv. cbv zeta. rewrite Ht, Hf.
  intros (_ & _ & _ & (_ & H) & _). rewrite H. vm_compute. reflexivity.
Defined.

(** X20 (one timer hides the controls).  If the timers are in order (as
    they are when the player has just been set up), then after any sequence
    of inputs at most one timer that hides the controls is scheduled; it is
    a timeout of 3000 ms and [hideTimer] holds its identifier.  Revealing
    the controls then leaves exactly one such timer while the video plays,
    and none while it is paused. *)
Theorem one_hide_timer
  (env : Platform) (se : Stats.Env) (l : list Controls.Input)
  (c : Controls.Panel) :
  timers_in_order c ->
  let c' := Controls.run env se l c in
  (List.length (hide_jobs c') <= 1)%nat /\
  (forall e, In e (hide_jobs c') ->
             snd e = hide_timeout /\ Controls.hideTimer c' = Some (fst e)) /\
  hide_jobs (Controls.revealControls c')
  = (if paused (video (Controls.player c')) then []
     else [(Controls.nextId c', hide_timeout)]) /\
  Controls.controlsHidden (Controls.revealControls c') = false.
Proof.
  intros H. cbv zeta. pose proof (run_order env se l c H) as H'.
  set (c' := Controls.run env se l c) in *. clearbody c'.
  split; [apply hide_jobs_at_most_one; exact H'|].
  split; [intros e He; destruct H' as (_ & _ & H3 & _);
          destruct (H3 e He); split; assumption|].
  destruct (clear_hideTimer c' H') as (C1 & _).
  unfold hide_jobs, Controls.revealControls. cbv zeta.
  cbn [Controls.hideTimer Controls.scheduled Controls.set_hidden
       Controls.player Controls.nextId Controls.statsInterval].
  destruct (paused (video (Controls.player c'))); simpl.
  - split; [exact C1 | reflexivity].
  - rewrite filter_app, C1. split; reflexivity.
Qed.

Lemma one_hide_timer_witness :
  hide_jobs
    (Controls.revealControls
       (Controls.run sample_platform sample_stats
          [Controls.Core (IVideoChange (video_at JS.pos_zero (JS.Num (JS.of_Z 120))));
           Controls.Container_move; Controls.Stats_toggle;
           Controls.Controls_leave]
          Controls.init))
  = [(3%nat, hide_timeout)].
Proof.
  assert (H0 : timers_in_order Controls.init).
  { split; [constructor|]. split; [intros e []|]. split; [intros e []|].
    split; [discriminate|]. split; reflexivity. }
  destruct (one_hide_timer sample_platform sample_stats
              [Controls.Core (IVideoChange
                 (video_at JS.pos_zero (JS.Num (JS.of_Z 120))));
               Controls.Container_move; Controls.Stats_toggle;
               Controls.Controls_leave] Controls.init H0) as (_ & _ & H & _).
  rewrite H. vm_compute. reflexivity.
Defined.

(** X21 (the stats timer follows the panel).  If the timers are in order,
    then after any sequence of inputs the stats are refreshed by a timer
    exactly while the panel is open: open, there is one interval of
    1000 ms, under the identifier in [statsInterval]; closed, there is none
    and [statsInterval] is null.  Loading a video closes the panel, stops
    the interval and empties the panel's body, whether [loadVideo] returns
    or throws. *)
Theorem stats_interval_follows_panel
  (env : Platform) (se : Stats.Env) (l : list Controls.Input)
  (c : Controls.Panel) :
  timers_in_order c ->
  let c' := Controls.run env se l c in
  (if stats_open c'
   then exists n, Controls.statsInterval c' = Some n /\
                  stats_jobs c' = [(n, stats_interval)]
   else Controls.statsInterval c' = None /\ stats_jobs c' = []) /\
  forall url title,
    let c'' := Controls.panel_of (Controls.loadVideo env url title c') in
    stats_open c'' = false /\ stats_jobs c'' = [] /\
    Controls.statsInterval c'' = None /\
    statsBody (ui (Controls.player c'')) = EmptyString.
Proof.
  intros H. cbv zeta. pose proof (run_order env se l c H) as H'.
  set (c' := Controls.run env se l c) in *. clearbody c'.
  split; [apply H'|]. intros url title.
  pose proof (loadVideo_order env url title c' H') as (_ & _ & _ & _ & H5).
  assert (Ho : stats_open (Controls.panel_of (Controls.loadVideo env url title c'))
               = false).
  { unfold stats_open, Controls.loadVideo. cbv zeta.
    match goal with
    | |- context [Player.loadVideo env url title ?p] =>
        pose proof (loadVideo_statsActive env url title p) as Hl;
        destruct (Player.loadVideo env url title p)
    end; exact Hl. }
  rewrite Ho in H5. destruct H5 as (H5 & H6).
  split; [exact Ho|]. split; [exact H6|]. split; [exact H5|].
  unfold Controls.loadVideo. cbv zeta.
  match goal with
  | |- context [Player.loadVideo env url title ?p] =>
      pose proof (loadVideo_stats_closed env url title p) as Hl;
      destruct (Player.loadVideo env url title p)
  end; exact Hl.
Qed.

Lemma stats_interval_follows_panel_witness :
  stats_jobs
    (Controls.run sample_platform sample_stats
       [Controls.Stats_toggle; Controls.Due 0; Controls.Container_move]
       Controls.init)
  = [(0%nat, stats_interval)].
Proof.
  assert (H0 : timers_in_order Controls.init).
  { split; [constructor|]. split; [intros e []|]. split; [intros e []|].
    split; [discriminate|]. split; reflexivity. }
  assert (Ho : stats_open
                 (Controls.run sample_platform sample_stats
                    [Controls.Stats_toggle; Controls.Due 0;
                     Controls.Container_move] Controls.init) = true)
    by (vm_compute; reflexivity).
  assert (Hi : Controls.statsInterval
                 (Controls.run sample_platform sample_stats
                    [Controls.Stats_toggle; Controls.Due 0;
                     Controls.Container_move] Controls.init) = Some 0%nat)
    by (vm_compute; reflexivity).
  generalize (stats_interval_follows_panel sample_platform sample_stats
              [Controls.Stats_toggle; Controls.Due 0; Controls.Container_move]
              Controls.init H0).
  cbv zeta. rewrite Ho, Hi. intros ((n & [= <-] & Hs) & _). exact Hs.
Defined.

(* ------------------------------------------------------------------ *)
(** ** Formatting *)

Lemma count_char_app (c : ascii) (a b : string) :
  count_char c (a ++ b) = (count_char c a + count_char c b)%nat.
Proof.
  induction a as [|x a IH]; simpl; [reflexivity|]. rewrite IH. lia.
Qed.

Lemma escHtml_count (c : ascii) (s : string) :
  c = "<"%char \/ c = ">"%char \/ c = Html.quot ->
  count_char c (Html.escHtml s) = O.
Proof.
  intros Hc. induction s as [|a s IH]; [reflexivity|].
  rewrite escHtml_cons, count_char_app, IH, Nat.add_0_r.
  unfold esc_char.
  destruct (Ascii.eqb a "&") eqn:E1.
  { destruct Hc as [ -> | [ -> | -> ] ]; reflexivity. }
  destruct (Ascii.eqb a "<") eqn:E2.
  { destruct Hc as [ -> | [ -> | -> ] ]; reflexivity. }
  destruct (Ascii.eqb a ">") eqn:E3.
  { destruct Hc as [ -> | [ -> | -> ] ]; reflexivity. }
  destruct (Ascii.eqb a Html.quot) eqn:E4.
  { destruct Hc as [ -> | [ -> | -> ] ]; reflexivity. }
  cbn [count_char].
  destruct Hc as [ -> | [ -> | -> ] ]; rewrite ?E2, ?E3, ?E4; reflexivity.
Qed.

Lemma row_html_count (c : ascii) (r : Stats.Row) :
  c = "<"%char \/ c = ">"%char \/ c = Html.quot ->
  count_char c (Stats.row_html r) = tags [r].
Proof.
  intros Hc.
  assert (He : forall s, count_char c (Html.escHtml s) = O).
  { intros s. apply escHtml_count. exact Hc. }
  destruct r as [|k v]; unfold Stats.row_html.
  - destruct Hc as [ -> | [ -> | -> ] ]; reflexivity.
  - rewrite !count_char_app, !He.
    destruct Hc as [ -> | [ -> | -> ] ]; reflexivity.
Qed.

Lemma markup_count (c : ascii) (rs : list Stats.Row) :
  c = "<"%char \/ c = ">"%char \/ c = Html.quot ->
  count_char c (Stats.markup rs) = tags rs.
Proof.
  intros Hc. unfold Stats.markup.
  induction rs as [|r rs IH]; [reflexivity|].
  assert (Hcat : String.concat EmptyString (map Stats.row_html (r :: rs))
                 = (Stats.row_html r ++
                    String.concat EmptyString (map Stats.row_html rs))%string).
  { simpl. destruct (map Stats.row_html rs) as [|x l] eqn:E.
    - simpl. clear. induction (Stats.row_html r) as [|a s IHs];
        [reflexivity | simpl; rewrite <- IHs; reflexivity].
    - reflexivity. }
  rewrite Hcat, count_char_app, IH, (row_html_count c r Hc).
  destruct r; simpl; lia.
Qed.

(** X22 (the markup of the stats panel).  [updateStats] leaves the panel's
    open state alone and writes as its body the markup of the rows.  The
    rows begin with the provider and a divider, and contain the rows of the
    engine only when there is an engine.  Whatever the readings are (codec
    names, connection type, numbers as the platform prints them), the
    markup contains exactly the tags of its rows: two less-than signs, two
    greater-than signs and two double quotes for a divider, six of each for
    a row; no value adds one. *)
Theorem stats_markup_has_only_its_tags (e : Stats.Env) (s : State) :
  statsBody (ui (Stats.updateStats e s)) = Stats.markup (Stats.rows e s) /\
  statsActive (ui (Stats.updateStats e s)) = statsActive (ui s) /\
  (exists rest,
      Stats.rows e s
      = Stats.KV "Provider" "X Stream & Play" :: Stats.Divider :: rest) /\
  (hlsInstance s = None ->
   forall k, In k engine_keys -> has_key k (Stats.rows e s) = false) /\
  count_char "<" (Stats.markup (Stats.rows e s)) = tags (Stats.rows e s) /\
  count_char ">" (Stats.markup (Stats.rows e s)) = tags (Stats.rows e s) /\
  count_char Html.quot (Stats.markup (Stats.rows e s)) = tags (Stats.rows e s).
Proof.
  split; [reflexivity|]. split; [reflexivity|].
  split; [eexists; reflexivity|]. split.
  - intros Hn k Hk. unfold Stats.rows. rewrite Hn.
    unfold has_key. rewrite !existsb_app. simpl.
    unfold Stats.resolution_rows, Stats.rate_rows, Stats.time_rows,
      Stats.buffer_rows, Stats.frame_rows, Stats.connection_rows.
    unfold engine_keys in Hk. simpl in Hk.
    destruct (num_truthy (Stats.videoWidth e) && num_truthy (Stats.videoHeight e)),
      (Stats.playbackRate e), (duration (video s)) as [|d],
      (_getBufferAhead (video s)), (Stats.getVideoPlaybackQuality e) as [q|],
      (Stats.connection e) as [cn|];
      try destruct (num_truthy d);
      try destruct (gt (Stats.totalVideoFrames q) pos_zero);
      try destruct (Stats.downlink cn);
      try destruct (Stats.nonempty (Stats.effectiveType cn));
      destruct Hk as [<-|[<-|[<-|[<-|[<-|[<-|[]]]]]]]; reflexivity.
  - split; [|split]; apply markup_count; auto.
Qed.

(** X23 (whole seconds on the clock).  For every whole number of seconds
    from 0 up to two hours, the floating-point division, remainder and
    floor of [_fmt] (which is [_fmtDur] of library.js word for word) give
    the hours, minutes and seconds of integer division: the text is m:ss
    below an hour and h:mm:ss from there, minutes and seconds padded to two
    digits in the second form, seconds in the first. *)
Theorem fmt_whole_seconds (str : number -> string) (n : Z) :
  0 <= n < 7200 ->
  Fmt._fmt str (of_Z n) = clock str n.
Proof.
  intros Hn.
  assert (Hlt : (Z.to_nat n < two_hours)%nat) by (unfold two_hours; lia).
  assert (Hid : Z.of_nat (Z.to_nat n) = n) by lia.
  assert (Hgen : forall k, all_below clock_parts_ok k = true ->
                           forall j, (j < k)%nat ->
                                     clock_parts_ok (Z.of_nat j) = true).
  { induction k as [|k IH]; intros Hk j Hj; [lia|].
    cbn [all_below] in Hk. apply andb_true_iff in Hk. destruct Hk as (H1 & H2).
    destruct (Nat.eq_dec j k) as [->|Hne]; [exact H1|].
    apply IH; [exact H2 | lia]. }
  assert (Hok : clock_parts_ok n = true).
  { rewrite <- Hid. apply (Hgen two_hours); [|exact Hlt].
    vm_compute. reflexivity. }
  clear Hgen Hlt Hid.
  assert (Heq : forall x y, same_float x y = true -> x = y).
  { intros [a|a| |a m x] [b|b| |b k y]; simpl; intros H; try discriminate;
      try reflexivity.
    - apply Bool.eqb_prop in H. subst. reflexivity.
    - apply Bool.eqb_prop in H. subst. reflexivity.
    - apply andb_true_iff in H. destruct H as (H & H3).
      apply andb_true_iff in H. destruct H as (H1 & H2).
      apply Bool.eqb_prop in H1. apply Pos.eqb_eq in H2. apply Z.eqb_eq in H3.
      subst. reflexivity. }
  unfold clock_parts_ok in Hok. cbv zeta in Hok.
  apply andb_true_iff in Hok. destruct Hok as (Hok & Hgt).
  apply andb_true_iff in Hok. destruct Hok as (Hok & Hs).
  apply andb_true_iff in Hok. destruct Hok as (Hok & Hm).
  apply andb_true_iff in Hok. destruct Hok as (Hfin & Hh).
  apply Heq in Hh, Hm, Hs. apply Bool.eqb_prop in Hgt.
  unfold Fmt._fmt, clock. cbv zeta.
  rewrite Hfin, Hh, Hm, Hs, Hgt. reflexivity.
Qed.

Lemma fmt_whole_seconds_witness :
  Fmt._fmt sample_toString (of_Z 125) = "2:05"%string /\
  Fmt._fmt sample_toString (of_Z 3725) = "1:02:05"%string.
Proof.
  split.
  - rewrite (fmt_whole_seconds sample_toString 125) by lia.
    vm_compute. reflexivity.
  - rewrite (fmt_whole_seconds sample_toString 3725) by lia.
    vm_compute. reflexivity.
Defined.

(* ------------------------------------------------------------------ *)
(** ** Loading a video *)

Lemma loadVideo_resets_frame (env : Platform) (url title : string) (s : State) :
  exists k,
    classify env url = Normal k /\
    let s' := state_of (loadVideo env url title s) in
    volume (video s') = of_Z 1 /\
    muted (video s') = match k with Progressive => false | _ => true end.
Proof.
  destruct (getExt_total env url) as (ext & He & _).
  exists (kind_of (Some ext) url).
  unfold classify, loadVideo. rewrite He.
  split; [reflexivity|]. cbv zeta. unfold hlsInstance_on.
  match goal with
  | |- context [match hlsInstance ?x with _ => _ end] => set (s1 := x)
  end.
  assert (Hs : video (state_of match hlsInstance s1 with
                            | Some i =>
                                Done (call (COn i AUDIO_TRACK_LOADED)
                                        (with_engine i (hls_on AUDIO_TRACK_LOADED) s1))
                            | None => Raised (TypeError "hlsInstance is null") s1
                            end) = video s1)
    by (destruct (hlsInstance s1); reflexivity).
  rewrite Hs. unfold s1. clear s1 Hs.
  destruct (kind_of (Some ext) url); [|split; reflexivity|split; reflexivity].
  unfold _loadHls.
  destruct (Hls_defined env), (Hls_isSupported env), (canPlayType_mpegurl env);
    split; reflexivity.
Qed.

(** X24 (what every load resets).  Whatever the URL and the state, and
    whether [loadVideo] returns or throws, it leaves the player in sight
    under the given title ('Untitled' for an empty one), the stats panel
    closed and emptied, and the volume at 1.  The element is left unmuted
    for a progressive file and muted for HLS and DASH.  The error overlay
    is up, in place of the spinner, exactly when the URL is HLS, HLS.js is
    not loaded and the browser cannot play HLS itself; in that case the
    element is left without a source.  When the load neither fails nor goes
    through HLS.js, the element's source is the URL.  Nothing is said of the
    source while HLS.js holds the element: the engine puts its own there. *)
Theorem loadVideo_resets_player
  (env : Platform) (url title : string) (s : State) :
  exists k,
    classify env url = Normal k /\
    let s' := state_of (loadVideo env url title s) in
    let failed := match k with
                  | HLS => negb (Hls_defined env) &&
                           negb (canPlayType_mpegurl env)
                  | _ => false
                  end in
    playerTitle (ui s')
    = (if String.eqb title EmptyString then "Untitled" else title)%string /\
    playerVisible (ui s') = true /\
    statsActive (ui s') = false /\ statsBody (ui s') = EmptyString /\
    volume (video s') = of_Z 1 /\
    muted (video s') = match k with Progressive => false | _ => true end /\
    errorActive (ui s') = failed /\
    spinnerActive (ui s') = negb failed /\
    (failed = true ->
     errorMsg (ui s') = "HLS.js failed to load. Check your connection."%string) /\
    (failed = true -> src (video s') = None) /\
    (failed = false -> engine_path env url = false ->
     src (video s') = Some url).
Proof.
  destruct (getExt_total env url) as (ext & He & _).
  exists (kind_of (Some ext) url).
  unfold classify, engine_path, classify, loadVideo. rewrite He.
  split; [reflexivity|]. cbv zeta. unfold hlsInstance_on.
  match goal with
  | |- context [match hlsInstance ?x with _ => _ end] => set (s1 := x)
  end.
  assert (Hs : ui (state_of match hlsInstance s1 with
                            | Some i =>
                                Done (call (COn i AUDIO_TRACK_LOADED)
                                        (with_engine i (hls_on AUDIO_TRACK_LOADED) s1))
                            | None => Raised (TypeError "hlsInstance is null") s1
                            end) = ui s1 /\
               video (state_of match hlsInstance s1 with
                            | Some i =>
                                Done (call (COn i AUDIO_TRACK_LOADED)
                                        (with_engine i (hls_on AUDIO_TRACK_LOADED) s1))
                            | None => Raised (TypeError "hlsInstance is null") s1
                            end) = video s1)
    by (destruct (hlsInstance s1); split; reflexivity).
  destruct Hs as (-> & ->). unfold s1. clear s1.
  destruct (kind_of (Some ext) url).
  - unfold _loadHls.
    destruct (Hls_defined env), (Hls_isSupported env), (canPlayType_mpegurl env);
      simpl; unfold _destroyHls; destruct (hlsInstance s);
      repeat split; try discriminate; try reflexivity;
      intros _ H; discriminate H.
  - simpl. unfold _destroyHls.
    destruct (hlsInstance s); repeat split; try discriminate; reflexivity.
  - simpl. unfold _destroyHls.
    destruct (hlsInstance s); repeat split; try discriminate; reflexivity.
Qed.

(** X25 (muted until the manifest is there).  When a load goes through
    HLS.js, [loadVideo] leaves the element muted at volume 1 and does not
    call [play]; when the engine it has just made then reports its manifest,
    the handler unmutes the element, keeps the volume at 1 and calls [play]
    once, the only call it makes on a fresh engine. *)
Theorem hls_load_stays_muted_until_manifest
  (env : Platform) (url title : string) (s : State) :
  engines_ok s ->
  engine_path env url = true ->
  let s1 := state_of (loadVideo env url title s) in
  let s2 := hls_emit (List.length (heap s)) EmitManifestParsed s1 in
  muted (video s1) = true /\ volume (video s1) = of_Z 1 /\
  ~ In CVideoPlay (new_calls s s1) /\
  muted (video s2) = false /\ volume (video s2) = of_Z 1 /\
  new_calls s1 s2 = [CVideoPlay].
Proof.
  intros Hok Hp. cbv zeta.
  destruct (loadVideo_resets_frame env url title s) as (k & Hk & Hres).
  pose proof (loadVideo_ok env url title s Hok) as Hok1.
  destruct (destroyHls_layout s Hok) as (_ & _ & Hlen & Hcalls & _).
  destruct (loadVideo_layout env url title s Hok) as (Hl & _).
  rewrite Hp in Hl. destruct Hl as (Hi & Hh & Hc).
  set (s1 := state_of (loadVideo env url title s)) in *.
  assert (Hk' : k = HLS).
  { unfold engine_path in Hp. rewrite Hk in Hp. destruct k; [reflexivity| |];
      discriminate. }
  subst k. cbv zeta in Hres. destruct Hres as (Hv & Hm).
  split; [exact Hm|]. split; [exact Hv|]. split.
  - unfold new_calls. rewrite Hc, Hcalls, <- app_assoc, skipn_app, skipn_all,
      Nat.sub_diag. simpl.
    destruct (hlsInstance s); simpl; intros H;
      repeat (destruct H as [H|H]; [discriminate H|]); exact H.
  - rewrite (emit_runs_handler_once s1 EmitManifestParsed Hok1).
    rewrite Hi, Nat.eqb_refl. simpl handler_of. unfold on_MANIFEST_PARSED.
    rewrite Hi, Hh, nth_error_app2, Hlen, Nat.sub_diag by lia. simpl.
    repeat split. unfold new_calls. simpl.
    rewrite skipn_app, skipn_all, Nat.sub_diag. reflexivity.
Qed.

Lemma hls_load_stays_muted_until_manifest_witness :
  muted (video (run sample_platform
                  [ILoadVideo "https://cdn.example.com/live/index.m3u8" "Live"]
                  init)) = true /\
  muted (video (run sample_platform
                  [ILoadVideo "https://cdn.example.com/live/index.m3u8" "Live";
                   IHlsEvent 0 EmitManifestParsed]
                  init)) = false.
Proof.
  assert (H0 : engines_ok init) by constructor.
  assert (Hp : engine_path sample_platform
                 "https://cdn.example.com/live/index.m3u8" = true)
    by (vm_compute; reflexivity).
  destruct (hls_load_stays_muted_until_manifest sample_platform
              "https://cdn.example.com/live/index.m3u8" "Live" init H0 Hp)
    as (H1 & _ & _ & H2 & _).
  split; [exact H1 | exact H2].
Defined.

(* ------------------------------------------------------------------ *)
(** ** The models at work *)

Example escHtml_markup :
  Html.escHtml "<b>Tom & Jerry</b>" = "&lt;b&gt;Tom &amp; Jerry&lt;/b&gt;"%string.
Proof. reflexivity. Qed.

(** 59.9 s is shown as 0:59, and a time that is not finite as a dash. *)
Example fmt_fraction :
  Fmt._fmt sample_toString (div (of_Z 599) (of_Z 10)) = "0:59"%string /\
  Fmt._fmt sample_toString Infinity = "–"%string.
Proof. split; vm_compute; reflexivity. Qed.

(** A negative time is not clamped. *)
Example fmt_negative :
  Fmt._fmt sample_toString (of_Z (-5)) = "-1:-5"%string.
Proof. vm_compute. reflexivity. Qed.

Example three_videos_on_screen :
  Library.countBadge three_videos = "3 videos"%string /\
  match Library.listView three_videos with
  | Library.Cards cs =>
      map Library.card_format cs = ["/X"; "HLS"; "MP4"]%string /\
      map Library.card_title cs = ["Untitled Stream 1"; "index"; "intro"]%string
  | _ => False
  end.
Proof. vm_compute. repeat split. Qed.

(** The requests that three additions start: none for the stream. *)
Example three_videos_requests :
  Library.requests three_videos
  = [Library.HeadRequest 1000 "https://example.com/media/intro.mp4";
     Library.HeadRequest 3000 "https://example.com/x"].
Proof. vm_compute. reflexivity. Qed.

Example stats_rows_without_engine :
  map (fun r => match r with
                | Stats.KV k _ => k
                | Stats.Divider => "-"%string
                end) (Stats.rows sample_stats init)
  = ["Provider"; "-"; "Resolution"; "Viewport"; "Playback Rate"; "-";
     "Total Frames"; "Dropped Frames"; "Drop Rate"]%string.
Proof. vm_compute. reflexivity. Qed.

Example scrub_shows_quarter :
  Controls.playedBarWidth dragging_panel = "25%"%string /\
  Controls.timeDisplay dragging_panel = "0:30 / 2:00"%string.
Proof. vm_compute. split; reflexivity. Qed.
